(** * xbbs: a distributed build coordinator and its workers

    A shallow embedding of [xbbs/messages.py], [xbbs/coordinator/__init__.py]
    and [xbbs/worker/__init__.py], and the properties of the message codec,
    the chunk reassembler, graph construction, the failure cascade, the
    intake handlers and the command surface.

    Conventions.
    - Python [bytes] and [str] are both [string] (a sequence of 8-bit
      characters); [b"initial"] is ["initial"].
    - A Python exception is a constructor of [exn]; a function that can
      raise returns [result].  Where the state a handler leaves behind
      matters after it raised, the function returns the state next to the
      outcome.
    - Python objects that are shared by reference (the [Artifact]s of a
      build) live in a store, a list indexed by object identity; a
      reference is an index into it.
    - A [dict] whose iteration order matters is an association list in
      insertion order; one whose order is never observed is a [gmap]. *)

From Stdlib Require Import ZArith String List Bool Lia.
From stdpp Require Import base option countable gmap strings pretty list.

Open Scope string_scope.
Open Scope list_scope.

(** ** Python values and exceptions *)

Abbreviation bytes := string (only parsing).

Inductive exn :=
| AttributeError (what : string)
| TypeError (what : string)
| KeyError (key : string)
| ValidationError (what : string)
| RuntimeError (what : string)
| AssertionError (what : string)
| CalledProcessError (cmd : list string)
| OSError (path : string)
| UnboundLocalError (name : string)
| UnicodeDecodeError
| UnpackException.

Inductive result (A : Type) :=
| Ok (a : A)
| Raise (e : exn).
Arguments Ok {A} a.
Arguments Raise {A} e.

#[global] Instance result_bind : MBind result := fun A B k r =>
  match r with
  | Ok a => k a
  | Raise e => Raise e
  end.

#[global] Instance result_ret : MRet result := fun A a => Ok a.

(** A Python number: an [int], or a finite [float] given as the dyadic
    rational [m * 2^e]. *)
Inductive number :=
| Int (z : Z)
| Float (m e : Z).

(** [n == 0] on numbers. *)
Definition number_is_zero (n : number) : bool :=
  match n with
  | Int z => (z =? 0)%Z
  | Float m _ => (m =? 0)%Z
  end.

(** What [msgpack.loads] returns and [msgpack.dumps] accepts. *)
#[warnings="-register-all"]
Inductive value :=
| VNone
| VBool (b : bool)
| VNum (n : number)
| VStr (s : string)
| VBytes (b : bytes)
| VList (l : list value)
| VDict (d : list (string * value)).

(** [d[k]] and [k in d] on an association list. *)
Fixpoint dict_get {V} (d : list (string * V)) (k : string) : option V :=
  match d with
  | [] => None
  | (k', v) :: d' => if String.eqb k' k then Some v else dict_get d' k
  end.

Definition dict_mem {V} (d : list (string * V)) (k : string) : bool :=
  match dict_get d k with Some _ => true | None => false end.

(** [d[k] = v]: replaces the value in place when [k] is present, appends
    otherwise. *)
Fixpoint dict_set {V} (d : list (string * V)) (k : string) (v : V)
  : list (string * V) :=
  match d with
  | [] => [(k, v)]
  | (k', v') :: d' =>
      if String.eqb k' k then (k', v) :: d' else (k', v') :: dict_set d' k v
  end.

(** The two external libraries the wire format rests on.  [msgpack] is
    known by its round trip, [hashlib.blake2b] by its digest size; a hasher
    object that was fed [b1], ..., [bn] by [update] has the digest of
    [b1 ++ ... ++ bn]. *)
Class Msgpack := {
  dumps : value -> bytes;
  loads : bytes -> option value;
  loads_dumps : forall v, loads (dumps v) = Some v
}.

(** What [msgpack.dumps] takes: it raises [OverflowError] on an [int]
    that is not in [-2^63 .. 2^64 - 1], so a value with such an [int] has
    no packed form in the code, and [loads_dumps] says nothing of the
    code for it. *)
Definition in_range (n : number) : bool :=
  match n with
  | Int z => (- 2 ^ 63 <=? z)%Z && (z <? 2 ^ 64)%Z
  | Float _ _ => true
  end.

Fixpoint packable (v : value) : bool :=
  match v with
  | VNum n => in_range n
  | VList l => forallb packable l
  | VDict d => forallb (fun kv : string * value => packable kv.2) d
  | _ => true
  end.

Class Blake2b := {
  blake2b_digest : bytes -> bytes;
  blake2b_digest_size : forall b, String.length (blake2b_digest b) = 64
}.

(** The hasher object [blake2b()]: the bytes it was fed so far. *)
Record hasher := { fed : bytes }.
Definition blake2b_new : hasher := {| fed := "" |}.
Definition hasher_update (h : hasher) (b : bytes) : hasher :=
  {| fed := fed h +:+ b |}.
Definition hasher_digest `{Blake2b} (h : hasher) : bytes :=
  blake2b_digest (fed h).

(** ** xbbs/messages.py *)

Module JobStatus.
Inductive t :=
| WAITING
| RUNNING
| WAITING_FOR_DONE
| FAILED
| SUCCESS
| PREREQUISITE_FAILED
| UP_TO_DATE
| IGNORED_FAILURE.

Definition eqb (a b : t) : bool :=
  match a, b with
  | WAITING, WAITING | RUNNING, RUNNING
  | WAITING_FOR_DONE, WAITING_FOR_DONE | FAILED, FAILED
  | SUCCESS, SUCCESS | PREREQUISITE_FAILED, PREREQUISITE_FAILED
  | UP_TO_DATE, UP_TO_DATE | IGNORED_FAILURE, IGNORED_FAILURE => true
  | _, _ => false
  end.

Definition terminating (s : t) : bool :=
  match s with
  | FAILED | SUCCESS | IGNORED_FAILURE | UP_TO_DATE => true
  | _ => false
  end.

Definition successful (s : t) : bool :=
  match s with
  | SUCCESS | IGNORED_FAILURE | UP_TO_DATE => true
  | _ => false
  end.
End JobStatus.

Module BuildState.
Inductive t :=
| SCHEDULED
| FETCH
| SETUP
| CALCULATING
| SETUP_REPOS
| RUNNING
| DONE.

(** The members of the enumeration, in definition order. *)
Definition members : list (string * t) :=
  [ ("SCHEDULED", SCHEDULED); ("FETCH", FETCH); ("SETUP", SETUP);
    ("CALCULATING", CALCULATING); ("SETUP_REPOS", SETUP_REPOS);
    ("RUNNING", RUNNING); ("DONE", DONE) ].

(** [BuildState.<name>]: attribute access on the enumeration class. *)
Definition getattr (name : string) : result t :=
  match dict_get members name with
  | Some s => Ok s
  | None => Raise (AttributeError name)
  end.

Definition name (s : t) : string :=
  match s with
  | SCHEDULED => "SCHEDULED" | FETCH => "FETCH" | SETUP => "SETUP"
  | CALCULATING => "CALCULATING" | SETUP_REPOS => "SETUP_REPOS"
  | RUNNING => "RUNNING" | DONE => "DONE"
  end.

Definition terminating (s : t) : bool :=
  match s with DONE => true | _ => false end.
End BuildState.

(** *** Validators (the part of [valideer] the messages use) *)

#[warnings="-register-all"]
Inductive vtype :=
| TString                         (* "string" *)
| TBytes                          (* bytes *)
| TNumber                         (* "number" *)
| TBoolean                        (* "boolean" *)
| TEnum (allowed : list string)   (* V.Enum({...}) *)
| TCond (p : value -> bool)       (* a predicate *)
| TNullable (t : vtype)           (* "?..." on a value, V.Nullable(...) *)
| TAny                            (* V.AdaptTo(tuple, ...), not detailed *)
| TInteger                        (* "integer" *)
| TList (t : vtype)               (* [t], on a list *)
| TMapping (key : string -> bool) (t : vtype)
                                  (* V.Mapping(key, t), on a dict of str keys *)
| TObject (props : list (string * bool * vtype)).
                                  (* a nested {...}: name, required, type *)

Fixpoint vtype_ok (t : vtype) (v : value) : bool :=
  match t, v with
  | TString, VStr _ => true
  | TBytes, VBytes _ => true
  | TNumber, VNum _ => true
  | TBoolean, VBool _ => true
  | TEnum allowed, VStr s => existsb (String.eqb s) allowed
  | TCond p, v => p v
  | TNullable _, VNone => true
  | TNullable t, v => vtype_ok t v
  | TAny, _ => true
  | TInteger, VNum (Int _) => true
  | TList t, VList l => forallb (vtype_ok t) l
  | TMapping key t, VDict d =>
      forallb (fun kv : string * value => key kv.1 && vtype_ok t kv.2) d
  | TObject props, VDict d =>
      forallb (fun p : string * bool * vtype =>
                 match dict_get d p.1.1 with
                 | Some v => vtype_ok p.2 v
                 | None => negb p.1.2
                 end) props
  | _, _ => false
  end.

(** One property of an object schema: its name, whether it is required
    (no leading [?] on the key), and the validator of its value. *)
Record property := {
  prop_name : string;
  prop_required : bool;
  prop_type : vtype
}.

Definition property_ok (d : list (string * value)) (p : property) : bool :=
  match dict_get d (prop_name p) with
  | Some v => vtype_ok (prop_type p) v
  | None => negb (prop_required p)
  end.

(** [validator.validate(x)] for an object schema. *)
Definition validate (schema : list property) (x : value)
  : result (list (string * value)) :=
  match x with
  | VDict d =>
      match find (fun p => negb (property_ok d p)) schema with
      | Some p => Raise (ValidationError (prop_name p))
      | None => Ok d
      end
  | _ => Raise (ValidationError "must be a mapping")
  end.

(** *** Classes generated by [attr.s] *)

(** An attribute and its default, if it has one. *)
Definition fields := list (string * option value).
(** An instance: its attributes. *)
Definition instance := list (string * value).

Fixpoint attrs_fill (fs : fields) (kwargs : list (string * value))
  : result instance :=
  match fs with
  | [] => Ok []
  | (name, default) :: fs' =>
      v ← match dict_get kwargs name, default with
          | Some v, _ => Ok v
          | None, Some d => Ok d
          | None, None =>
              Raise (TypeError ("missing required argument: " +:+ name))
          end;
      o ← attrs_fill fs' kwargs;
      Ok ((name, v) :: o)
  end.

(** Calling the class with keyword arguments: the generated [__init__]
    takes exactly the attributes of the class as keywords. *)
Definition attrs_init (fs : fields) (kwargs : list (string * value))
  : result instance :=
  match find (fun kv => negb (dict_mem fs kv.1)) kwargs with
  | Some (k, _) => Raise (TypeError ("unexpected keyword argument: " +:+ k))
  | None => attrs_fill fs kwargs
  end.

(** [obj.name] *)
Definition getattr (o : instance) (name : string) : result value :=
  match dict_get o name with
  | Some v => Ok v
  | None => Raise (AttributeError name)
  end.

(** *** The message classes *)

Record message_class := {
  cls_fields : fields;
  cls_validator : list property;
  (** [_filter] of [attr.asdict], [None] on every class but [Heartbeat] *)
  cls_filter : value -> bool
}.

Definition required (n : string) (t : vtype) : property :=
  {| prop_name := n; prop_required := true; prop_type := t |}.
Definition optional (n : string) (t : vtype) : property :=
  {| prop_name := n; prop_required := false; prop_type := t |}.

Definition keep_all (v : value) : bool := true.
Definition is_not_None (v : value) : bool :=
  match v with VNone => false | _ => true end.

(** The validator of [load] here and in [StatusMessage] is
    [V.AdaptTo(tuple, ...)], which hands the class another value than
    the one it is given; it is left open ([TAny]), and no round trip is
    stated below for these two classes. *)
Definition Heartbeat : message_class :=
  {| cls_fields := [("load", None); ("fqdn", None);
                    ("project", Some VNone); ("job", Some VNone)];
     cls_validator := [required "load" TAny; required "fqdn" TString;
                       optional "project" TString; optional "job" TString];
     cls_filter := is_not_None |}.

Definition WorkMessage : message_class :=
  {| cls_fields := [("project", None); ("git", None); ("revision", None)];
     cls_validator := [required "project" TString; required "git" TString;
                       required "revision" TString];
     cls_filter := keep_all |}.

(** [PKG_TOOL_VALIDATOR = V.Mapping("string", "string")] *)
Definition any_key (k : string) : bool := true.
Definition PKG_TOOL_VALIDATOR : vtype := TMapping any_key TString.

(** [[a-zA-Z0-9]] *)
Definition alnum (c : Ascii.ascii) : bool :=
  let n := Ascii.nat_of_ascii c in
  (Nat.leb 48 n && Nat.leb n 57) || (Nat.leb 65 n && Nat.leb n 90)
  || (Nat.leb 97 n && Nat.leb n 122).

(** What [^([a-zA-Z0-9]{2}:){15}[a-zA-Z0-9]{2}$] matches: [groups] pairs
    with a colon after each, then a last pair, and nothing more but for
    the newline that [$] lets through at the end. *)
Fixpoint fingerprint_from (groups : nat) (s : string) : bool :=
  match s with
  | String a (String b rest) =>
      alnum a && alnum b &&
      match groups with
      | O => String.eqb rest "" || String.eqb rest (String (Ascii.ascii_of_nat 10) "")
      | S groups' =>
          match rest with
          | String c rest' =>
              Ascii.eqb c (Ascii.ascii_of_nat 58) && fingerprint_from groups' rest'
          | EmptyString => false
          end
      end
  | _ => false
  end.

Definition is_fingerprint (s : string) : bool := fingerprint_from 15 s.

Definition JobMessage : message_class :=
  {| cls_fields :=
       [("project", None); ("job", None); ("repository", None);
        ("revision", None); ("output", None); ("build_root", None);
        ("needed_pkgs", None); ("needed_tools", None); ("prod_pkgs", None);
        ("prod_tools", None); ("prod_files", None); ("tool_repo", None);
        ("pkg_repo", None); ("rolling_ids", None);
        ("xbps_keys", Some VNone)];
     cls_validator :=
       [required "project" TString; required "job" TString;
        required "repository" TString; required "revision" TString;
        required "output" TString; required "build_root" TString;
        required "needed_pkgs" PKG_TOOL_VALIDATOR;
        required "needed_tools" PKG_TOOL_VALIDATOR;
        required "prod_pkgs" PKG_TOOL_VALIDATOR;
        required "prod_tools" PKG_TOOL_VALIDATOR;
        required "prod_files" (TList TString); required "tool_repo" TString;
        required "pkg_repo" TString; required "rolling_ids" PKG_TOOL_VALIDATOR;
        optional "xbps_keys" (TMapping is_fingerprint TBytes)];
     cls_filter := keep_all |}.

Definition _is_blake2b_digest (x : value) : bool :=
  match x with
  | VBytes b => Nat.eqb (String.length b) 64
  | _ => false
  end.

Definition ArtifactMessage : message_class :=
  {| cls_fields := [("project", None); ("artifact_type", None);
                    ("artifact", None); ("success", None);
                    ("filename", Some VNone); ("last_hash", Some VNone)];
     cls_validator :=
       [required "project" TString;
        required "artifact_type" (TEnum ["tool"; "package"; "file"]);
        required "artifact" TString; required "success" TBoolean;
        optional "filename" (TNullable TString);
        optional "last_hash" (TNullable (TCond _is_blake2b_digest))];
     cls_filter := keep_all |}.

Definition LogMessage : message_class :=
  {| cls_fields := [("project", None); ("job", None); ("line", None)];
     cls_validator := [required "project" TString; required "job" TString;
                       required "line" TString];
     cls_filter := keep_all |}.

Definition _last_hash_validator (x : value) : bool :=
  match x with
  | VBytes b => if String.eqb b "initial" then true else _is_blake2b_digest x
  | _ => _is_blake2b_digest x
  end.

Definition ChunkMessage : message_class :=
  {| cls_fields := [("last_hash", None); ("data", None)];
     cls_validator := [required "last_hash" (TCond _last_hash_validator);
                       required "data" TBytes];
     cls_filter := keep_all |}.

Definition JobCompletionMessage : message_class :=
  {| cls_fields := [("project", None); ("job", None); ("exit_code", None);
                    ("run_time", None)];
     cls_validator := [required "project" TString; required "job" TString;
                       required "exit_code" TNumber;
                       required "run_time" TNumber];
     cls_filter := keep_all |}.

Definition StatusMessage : message_class :=
  {| cls_fields := [("hostname", None); ("load", None); ("projects", None);
                    ("pid", None)];
     cls_validator :=
       [required "hostname" TString; required "load" TAny;
        required "pid" TInteger;
        required "projects"
          (TMapping any_key
             (TObject [("git", true, TString); ("description", true, TString);
                       ("classes", true, TList TString);
                       ("running", true, TBoolean)]))];
     cls_filter := keep_all |}.

Definition ScheduleMessage : message_class :=
  {| cls_fields := [("project", None); ("delay", None)];
     cls_validator := [required "project" TString; required "delay" TNumber];
     cls_filter := keep_all |}.

(** The message classes [xbbs/messages.py] defines, by name: what
    [msgs.<name>] finds in the module. *)
Definition messages : list (string * message_class) :=
  [ ("Heartbeat", Heartbeat); ("WorkMessage", WorkMessage);
    ("JobMessage", JobMessage); ("ArtifactMessage", ArtifactMessage);
    ("LogMessage", LogMessage); ("ChunkMessage", ChunkMessage);
    ("JobCompletionMessage", JobCompletionMessage);
    ("StatusMessage", StatusMessage);
    ("ScheduleMessage", ScheduleMessage) ].

(** [module.<name>] for a module of message classes. *)
Definition module_getattr (module : list (string * message_class))
  (name : string) : result message_class :=
  match dict_get module name with
  | Some c => Ok c
  | None => Raise (AttributeError name)
  end.

Section Codec.
Context `{Msgpack}.

(** [BaseMessage.pack] *)
Definition pack (cls : message_class) (o : instance) : bytes :=
  dumps (VDict (filter (fun kv => cls_filter cls kv.2 = true) o)).

(** [BaseMessage.unpack] *)
Definition unpack (cls : message_class) (data : bytes) : result instance :=
  x ← match loads data with
      | Some x => Ok x
      | None => Raise UnpackException
      end;
  x ← validate (cls_validator cls) x;
  attrs_init (cls_fields cls) x.

End Codec.

(** ** xbbs/coordinator/__init__.py: the data model *)

(** [for x in l: body], where the body may fail to finish. *)
Fixpoint for_each {S A} (body : A -> S -> option S) (l : list A) (s : S)
  : option S :=
  match l with
  | [] => Some s
  | x :: l' =>
      match body x s with
      | Some s' => for_each body l' s'
      | None => None
      end
  end.

Module Kind.
Inductive t := TOOL | PACKAGE | FILE.

Definition eqb (a b : t) : bool :=
  match a, b with
  | TOOL, TOOL | PACKAGE, PACKAGE | FILE, FILE => true
  | _, _ => false
  end.
End Kind.

(** The [architecture] attribute: [None] or a string as ingested, or the
    list [list(arch_set)] that [set_graph] writes over ["noarch"]. *)
Inductive arch :=
| ArchVal (a : option string)
| ArchList (l : list (option string)).

Definition option_string_eqb (a b : option string) : bool :=
  match a, b with
  | Some x, Some y => String.eqb x y
  | None, None => true
  | _, _ => false
  end.

Fixpoint option_strings_eqb (l1 l2 : list (option string)) : bool :=
  match l1, l2 with
  | [], [] => true
  | a :: l1', b :: l2' => option_string_eqb a b && option_strings_eqb l1' l2'
  | _, _ => false
  end.

Definition arch_eqb (a b : arch) : bool :=
  match a, b with
  | ArchVal x, ArchVal y => option_string_eqb x y
  | ArchList x, ArchList y => option_strings_eqb x y
  | _, _ => false
  end.

Module Artifact.
Record t := {
  kind : Kind.t;
  name : string;
  version : option string;
  architecture : arch;
  received : bool;
  failed : bool
}.

(** [__eq__] as [attr.s] generates it: [received] and [failed] are declared
    with [eq=False]. *)
Definition eqb (a b : t) : bool :=
  Kind.eqb (kind a) (kind b) && String.eqb (name a) (name b)
  && option_string_eqb (version a) (version b)
  && arch_eqb (architecture a) (architecture b).

Definition set_received (v : bool) (a : t) : t :=
  {| kind := kind a; name := name a; version := version a;
     architecture := architecture a; received := v; failed := failed a |}.

Definition set_failed (v : bool) (a : t) : t :=
  {| kind := kind a; name := name a; version := version a;
     architecture := architecture a; received := received a; failed := v |}.

Definition set_architecture (v : arch) (a : t) : t :=
  {| kind := kind a; name := name a; version := version a;
     architecture := v; received := received a; failed := failed a |}.
End Artifact.

(** The [Artifact] objects of a build; a reference to one is its index. *)
Abbreviation store := (list Artifact.t) (only parsing).

(** [x.failed] and [x.received] through a reference. *)
Definition is_failed (objs : store) (r : nat) : bool :=
  match objs !! r with Some a => Artifact.failed a | None => false end.
Definition is_received (objs : store) (r : nat) : bool :=
  match objs !! r with Some a => Artifact.received a | None => false end.

(** [prod in deps] on a list of references: [in] compares by identity,
    then by [__eq__]. *)
Definition artifact_in (objs : store) (prod : nat) (deps : list nat) : bool :=
  existsb (fun d =>
    Nat.eqb d prod ||
    match objs !! d, objs !! prod with
    | Some x, Some y => Artifact.eqb x y
    | _, _ => false
    end) deps.

Module Job.
Record t := {
  unstable : bool;
  deps : list nat;
  products : list nat;
  capabilities : gset string;
  status : JobStatus.t;
  exit_code : option number;
  run_time : option number
}.

Definition set_status (s : JobStatus.t) (j : t) : t :=
  {| unstable := unstable j; deps := deps j; products := products j;
     capabilities := capabilities j; status := s;
     exit_code := exit_code j; run_time := run_time j |}.

Definition set_completion (code time : number) (j : t) : t :=
  {| unstable := unstable j; deps := deps j; products := products j;
     capabilities := capabilities j; status := status j;
     exit_code := Some code; run_time := Some time |}.

Definition append_dep (r : nat) (j : t) : t :=
  {| unstable := unstable j; deps := deps j ++ [r]; products := products j;
     capabilities := capabilities j; status := status j;
     exit_code := exit_code j; run_time := run_time j |}.

Definition append_product (r : nat) (j : t) : t :=
  {| unstable := unstable j; deps := deps j; products := products j ++ [r];
     capabilities := capabilities j; status := status j;
     exit_code := exit_code j; run_time := run_time j |}.

(** The jobs of a graph ([build.jobs]) by name, in insertion order, and the
    artifacts they refer to.  A job of the graph is referred to by its
    position. *)
Record graph := {
  objects : store;
  jobs : list (string * t)
}.

Definition job_at (g : graph) (i : nat) : option t :=
  snd <$> jobs g !! i.

Definition alter_job (f : t -> t) (i : nat) (g : graph) : graph :=
  {| objects := objects g;
     jobs := alter (fun kv => (kv.1, f kv.2)) i (jobs g) |}.

Definition alter_object (f : Artifact.t -> Artifact.t) (r : nat) (g : graph)
  : graph :=
  {| objects := alter f r (objects g); jobs := jobs g |}.

(** The status [fail] moves a job to. *)
Definition failed_status (j : t) : JobStatus.t :=
  match status j with
  | JobStatus.RUNNING => JobStatus.WAITING_FOR_DONE
  | _ => if unstable j then JobStatus.IGNORED_FAILURE else JobStatus.FAILED
  end.

(** The status bits [fail] writes on a product. *)
Definition mark_failed (prod : nat) (g : graph) : graph :=
  alter_object (Artifact.set_received true)
    prod (alter_object (Artifact.set_failed true) prod g).

(** The body of [for job in graph.values()]:
    [if prod in job.deps: job.fail(graph)] *)
Definition fail_consumer (fail : nat -> graph -> option graph)
  (prod k : nat) (g : graph) : option graph :=
  match job_at g k with
  | Some job =>
      if artifact_in (objects g) prod (deps job) then fail k g else Some g
  | None => Some g
  end.

Definition fail_consumers (fail : nat -> graph -> option graph)
  (prod : nat) (g : graph) : option graph :=
  for_each (fail_consumer fail prod) (seq 0 (length (jobs g))) g.

(** The body of [for prod in self.products] *)
Definition fail_product (fail : nat -> graph -> option graph)
  (prod : nat) (g : graph) : option graph :=
  match objects g !! prod with
  | Some a =>
      if Artifact.failed a then Some g
      else fail_consumers fail prod (mark_failed prod g)
  | None => Some g
  end.

Definition fail_products (fail : nat -> graph -> option graph)
  (prods : list nat) (g : graph) : option graph :=
  for_each (fail_product fail) prods g.

(** [Job.fail(self, graph)].  The recursion is not structural; [fuel]
    bounds its depth and [None] means the bound was reached.
    [fail_terminates] below shows that one more than the number of
    artifacts is always enough. *)
Fixpoint fail_fuel (fuel : nat) (self : nat) (g : graph) : option graph :=
  match fuel with
  | O => None
  | S fuel' =>
      match job_at g self with
      | None => Some g
      | Some j =>
          fail_products (fail_fuel fuel') (products j)
            (alter_job (set_status (failed_status j)) self g)
      end
  end.

Definition fail (self : nat) (g : graph) : graph :=
  default g (fail_fuel (S (length (objects g))) self g).
End Job.

(** *** Programs with state and exceptions *)

(** A piece of code that reads and writes a state [S] and returns or
    raises.  The state it leaves behind is kept in both cases. *)
Definition prog (S A : Type) : Type := S -> S * result A.

#[global] Instance prog_bind {S} : MBind (prog S) := fun A B k m s =>
  match m s with
  | (s', Ok a) => k a s'
  | (s', Raise e) => (s', Raise e)
  end.

#[global] Instance prog_ret {S} : MRet (prog S) := fun A a s => (s, Ok a).

Definition raise {S A} (e : exn) : prog S A := fun s => (s, Raise e).
(** A step that reads the state first. *)
Definition with_state {S A} (k : S -> prog S A) : prog S A := fun s => k s s.
Definition modify {S} (f : S -> S) : prog S unit := fun s => (f s, Ok tt).
Definition lift {S A} (r : result A) : prog S A := fun s => (s, r).

(** [for x in l: body] *)
Fixpoint mfor {S A} (body : A -> prog S unit) (l : list A) : prog S unit :=
  match l with
  | [] => mret tt
  | x :: l' => body x;; mfor body l'
  end.

(** What the coordinator does to the world outside the process, in order. *)
Record snapshot := {
  snap_state : string;
  snap_jobs : list (string * JobStatus.t);
  snap_incremental : bool;
  snap_revision : option string;
  snap_success : option bool
}.

Inductive event :=
| Makedirs (path : string)
| StoreStatus (coordfile : string) (s : snapshot)
| Command (cmd : list string) (cwd : string)
| WriteFile (path : string)
| Chmod (path : string) (mode : string)
| Unlink (path : string)
| Move (src dst : string)
| Copy (src dst : string)
| Spawn (project : string) (delay : value) (incremental : value)
| Symlink (src dst : string)
| Rmtree (path : string)
| Logged (what : string).

Definition path_join (a b : string) : string := a +:+ "/" +:+ b.

(** The graph [set_graph] is given, as [GRAPH_VALIDATOR] returns it. *)
Module Info.
(** ARTIFACT_VALIDATOR *)
Record descriptor := {
  name : string;
  version : string;
  architecture : string
}.

Record t := {
  up2date : bool;
  unstable : bool;
  (** an optional key: [None] when the mapping has no ["capabilities"] *)
  capabilities : option (gset string);
  products_tools : list descriptor;
  products_pkgs : list descriptor;
  products_files : list string;
  needed_tools : list descriptor;
  needed_pkgs : list descriptor
}.
End Info.

Module Build.
Record t := {
  name : string;
  repository : string;
  build_directory : string;
  incremental : bool;
  revision : option string;
  state : BuildState.t;
  (** [jobs], with the [Artifact] objects the jobs and the three sets
      refer to *)
  graph : Job.graph;
  success : bool;
  ts : string;
  tool_set : gmap string nat;
  file_set : gmap string nat;
  pkg_set : gmap string nat;
  commits_object : value;
  (** the [gevent.event.Event]: whether it is set *)
  artifact_received : bool
}.

Definition jobs (b : t) : list (string * Job.t) := Job.jobs (graph b).
Definition objects (b : t) : list Artifact.t := Job.objects (graph b).

Definition set_graph_field (g : Job.graph) (b : t) : t :=
  {| name := name b; repository := repository b;
     build_directory := build_directory b; incremental := incremental b;
     revision := revision b; state := state b; graph := g;
     success := success b; ts := ts b; tool_set := tool_set b;
     file_set := file_set b; pkg_set := pkg_set b;
     commits_object := commits_object b;
     artifact_received := artifact_received b |}.

Definition set_state (s : BuildState.t) (b : t) : t :=
  {| name := name b; repository := repository b;
     build_directory := build_directory b; incremental := incremental b;
     revision := revision b; state := s; graph := graph b;
     success := success b; ts := ts b; tool_set := tool_set b;
     file_set := file_set b; pkg_set := pkg_set b;
     commits_object := commits_object b;
     artifact_received := artifact_received b |}.

Definition set_incremental (v : bool) (b : t) : t :=
  {| name := name b; repository := repository b;
     build_directory := build_directory b; incremental := v;
     revision := revision b; state := state b; graph := graph b;
     success := success b; ts := ts b; tool_set := tool_set b;
     file_set := file_set b; pkg_set := pkg_set b;
     commits_object := commits_object b;
     artifact_received := artifact_received b |}.

Definition set_artifact_received (v : bool) (b : t) : t :=
  {| name := name b; repository := repository b;
     build_directory := build_directory b; incremental := incremental b;
     revision := revision b; state := state b; graph := graph b;
     success := success b; ts := ts b; tool_set := tool_set b;
     file_set := file_set b; pkg_set := pkg_set b;
     commits_object := commits_object b; artifact_received := v |}.

Definition set_revision (rev : string) (commits : value) (b : t) : t :=
  {| name := name b; repository := repository b;
     build_directory := build_directory b; incremental := incremental b;
     revision := Some rev; state := state b; graph := graph b;
     success := success b; ts := ts b; tool_set := tool_set b;
     file_set := file_set b; pkg_set := pkg_set b;
     commits_object := commits; artifact_received := artifact_received b |}.

Definition set_sets (tools pkgs files : gmap string nat) (b : t) : t :=
  {| name := name b; repository := repository b;
     build_directory := build_directory b; incremental := incremental b;
     revision := revision b; state := state b; graph := graph b;
     success := success b; ts := ts b; tool_set := tools;
     file_set := files; pkg_set := pkgs;
     commits_object := commits_object b;
     artifact_received := artifact_received b |}.

(** [store_status]: the JSON document written to [<build_directory>/coordinator] *)
Definition store_status (success : option bool) (b : t) : event :=
  StoreStatus (path_join (build_directory b) "coordinator")
    {| snap_state := BuildState.name (state b);
       snap_jobs := (fun kv => (kv.1, Job.status kv.2)) <$> jobs b;
       snap_incremental := incremental b;
       snap_revision := revision b;
       snap_success := success |}.

(** [update_state] *)
Definition update_state (s : BuildState.t) (b : t) : t * event :=
  let b := set_state s b in (b, store_status None b).

(** The object [Build.create] makes, at the time whose formatted
    timestamp is [now]: [cls(...)] and the assignment of
    [build_directory]. *)
Definition fresh (project_base : string) (project_name project_git : string)
  (project_incremental : bool) (now : string) : t :=
  {| name := project_name; repository := project_git;
     build_directory := path_join (path_join project_base project_name) now;
     incremental := project_incremental;
     revision := None; state := BuildState.SCHEDULED;
     graph := {| Job.objects := []; Job.jobs := [] |};
     success := true; ts := now; tool_set := ∅; file_set := ∅;
     pkg_set := ∅; commits_object := VDict [];
     artifact_received := false |}.

(** [Build.create].  [os.makedirs] is called without [exist_ok]: it
    raises [FileExistsError], an [OSError], when the directory is there
    ([path_exists] is [os.path.exists]). *)
Definition create (path_exists : string -> bool)
  (project_base : string) (project_name project_git : string)
  (project_incremental : bool) (now : string) : result (t * list event) :=
  let inst := fresh project_base project_name project_git
                project_incremental now in
  if path_exists (build_directory inst)
  then Raise (OSError (build_directory inst))
  else Ok (inst, [Makedirs (build_directory inst); store_status None inst]).

(** The state of the loop over the graph in [set_graph]: the build, the
    local [arch_set] and the [job_val] under construction. *)
Record ingest := {
  build : t;
  arch_set : gset (option string);
  job_val : Job.t
}.

Definition aset (kind : Kind.t) (b : t) : gmap string nat :=
  match kind with
  | Kind.TOOL => tool_set b
  | Kind.PACKAGE => pkg_set b
  | Kind.FILE => file_set b
  end.

Definition set_aset (kind : Kind.t) (m : gmap string nat) (b : t) : t :=
  match kind with
  | Kind.TOOL => set_sets m (pkg_set b) (file_set b) b
  | Kind.PACKAGE => set_sets (tool_set b) m (file_set b) b
  | Kind.FILE => set_sets (tool_set b) (pkg_set b) m b
  end.

(** Allocates a new [Artifact] object and returns the reference to it. *)
Definition new_object (a : Artifact.t) (b : t) : t * nat :=
  (set_graph_field {| Job.objects := objects b ++ [a]; Job.jobs := jobs b |} b,
   length (objects b)).

Definition append_to (to_deps : bool) (r : nat) (j : Job.t) : Job.t :=
  if to_deps then Job.append_dep r j else Job.append_product r j.

Definition multiarch : exn := RuntimeError "multiarch builds unsupported".

(** [_handle_artifact(kind, reqset, x)], with [reqset] the [deps]
    ([to_deps]) or the [products] of [job_val]. *)
Definition _handle_artifact (kind : Kind.t) (to_deps : bool)
  (x : Info.descriptor) : prog ingest unit := fun st =>
  let b := build st in
  let name := Info.name x in
  let '(b, r) :=
    match aset kind b !! name with
    | Some r => (b, r)
    | None =>
        let '(b, r) :=
          new_object {| Artifact.kind := kind; Artifact.name := name;
                        Artifact.version := Some (Info.version x);
                        Artifact.architecture :=
                          ArchVal (Some (Info.architecture x));
                        Artifact.received := false;
                        Artifact.failed := false |} b in
        (set_aset kind (<[name := r]> (aset kind b)) b, r)
    end in
  let st := {| build := b; arch_set := arch_set st;
               job_val := append_to to_deps r (job_val st) |} in
  match Artifact.architecture <$> objects b !! r with
  | Some (ArchVal ta) =>
      if option_string_eqb ta (Some "noarch") then (st, Ok tt)
      else if negb (bool_decide (arch_set st = ∅))
              && negb (bool_decide (ta ∈ arch_set st))
      then (st, Raise multiarch)
      else ({| build := b; arch_set := {[ta]} ∪ arch_set st;
               job_val := job_val st |}, Ok tt)
  | Some (ArchList _) => (st, Raise (TypeError "unhashable type: 'list'"))
  | None => (st, Raise (KeyError name))
  end.

(** The [FILE] products of a job: a new object each, also when the name
    is already in [file_set]. *)
Definition handle_file (fname : string) : prog ingest unit := fun st =>
  let '(b, r) :=
    new_object {| Artifact.kind := Kind.FILE; Artifact.name := fname;
                  Artifact.version := None;
                  Artifact.architecture := ArchVal None;
                  Artifact.received := false;
                  Artifact.failed := false |} (build st) in
  ({| build := set_aset Kind.FILE (<[fname := r]> (file_set b)) b;
      arch_set := arch_set st;
      job_val := Job.append_product r (job_val st) |}, Ok tt).

Definition alter_object (f : Artifact.t -> Artifact.t) (r : nat) (b : t) : t :=
  set_graph_field (Job.alter_object f r (graph b)) b.

(** [prod.received = True; prod.failed = False] on every product. *)
Definition mark_up2date (prods : list nat) (b : t) : t :=
  foldl (fun b r =>
    alter_object (Artifact.set_failed false)
      r (alter_object (Artifact.set_received true) r b)) b prods.

(** One turn of [for job, info in graph.items()]. *)
Definition ingest_job (job : string) (info : Info.t) : prog ingest unit :=
  caps ← match Info.capabilities info with
         | Some c => mret c
         | None => raise (KeyError "capabilities")
         end;
  modify (fun st =>
    {| build := build st; arch_set := arch_set st;
       job_val := {| Job.unstable := Info.unstable info; Job.deps := [];
                     Job.products := []; Job.capabilities := caps;
                     Job.status := JobStatus.WAITING;
                     Job.exit_code := None; Job.run_time := None |} |});;
  mfor (_handle_artifact Kind.TOOL true) (Info.needed_tools info);;
  mfor (_handle_artifact Kind.PACKAGE true) (Info.needed_pkgs info);;
  mfor (_handle_artifact Kind.TOOL false) (Info.products_tools info);;
  mfor (_handle_artifact Kind.PACKAGE false) (Info.products_pkgs info);;
  mfor handle_file (Info.products_files info);;
  modify (fun st =>
    let '(b, j) :=
      if Info.up2date info
      then (mark_up2date (Job.products (job_val st)) (build st),
            Job.set_status JobStatus.UP_TO_DATE (job_val st))
      else (build st, job_val st) in
    {| build := set_graph_field
                  {| Job.objects := objects b;
                     Job.jobs := dict_set (jobs b) job j |} b;
       arch_set := arch_set st; job_val := j |}).

(** [x.architecture = list(arch_set)] where it is ["noarch"]. *)
Definition expand_noarch (archs : gset (option string)) (a : Artifact.t)
  : Artifact.t :=
  if arch_eqb (Artifact.architecture a) (ArchVal (Some "noarch"))
  then Artifact.set_architecture (ArchList (elements archs)) a
  else a.

(** [for x in itertools.chain(tools.values(), pkgs.values()): ...] *)
Definition expand_all (archs : gset (option string)) (b : t) : t :=
  foldl (fun b r => alter_object (expand_noarch archs) r b) b
    ((map_to_list (tool_set b)).*2 ++ (map_to_list (pkg_set b)).*2).

(** [Build.set_graph]; the [project] argument is not used by the body. *)
Definition set_graph (revision : string) (graph : list (string * Info.t))
  (commits_object : value) (b : t) : t * result event :=
  let b := set_revision revision commits_object b in
  let st0 :=
    {| build := b; arch_set := ∅;
       job_val := {| Job.unstable := false; Job.deps := [];
                     Job.products := []; Job.capabilities := ∅;
                     Job.status := JobStatus.WAITING;
                     Job.exit_code := None; Job.run_time := None |} |} in
  match mfor (fun ji => ingest_job ji.1 ji.2) graph st0 with
  | (st, Ok _) =>
      let b := expand_all (arch_set st) (build st) in
      (b, Ok (store_status None b))
  | (st, Raise e) => (build st, Raise e)
  end.
End Build.

Module Project.
Record t := {
  name : string;
  git : string;
  description : string;
  classes : list string;
  packages : string;
  tools : string;
  base : string;
  distfile_path : string;
  incremental : bool;
  fingerprint : option string;
  current : option Build.t;
  mirror_root : option string;
  default_branch : string
}.

Definition set_current (c : option Build.t) (p : t) : t :=
  {| name := name p; git := git p; description := description p;
     classes := classes p; packages := packages p; tools := tools p;
     base := base p; distfile_path := distfile_path p;
     incremental := incremental p; fingerprint := fingerprint p;
     current := c; mirror_root := mirror_root p;
     default_branch := default_branch p |}.
End Project.

(** Truth value of an optional string: [None] and [""] are false. *)
Definition truthy (s : option string) : bool :=
  match s with
  | Some s => negb (String.eqb s "")
  | None => false
  end.

Module Xbbs.
(** An entry of [cmd_chunk.table]: the descriptor and the path of the
    staging file, and the hasher. *)
Record entry := {
  fd : nat;
  path : string;
  digest_fn : hasher
}.

(** A greenlet running [run_project] and its arguments. *)
Record greenlet := {
  g_project : string;
  g_delay : value;
  g_incremental : value
}.

Record t := {
  project_base : string;
  collection_dir : string;
  tmp_dir : string;
  build_root : string;
  intake_address : string;
  projects : gmap string Project.t;
  project_greenlets : list greenlet;
  (** [gevent.queue.Queue(1)]; a [put] on the full queue waits for a
      worker, which the list does not show *)
  outgoing_job_queue : list (gset string * bytes);
  (** process-wide state next to the instance: [cmd_chunk.table], the
      contents of the open staging files by descriptor, the next free
      descriptor, and what was done to the outside world so far *)
  table : gmap string entry;
  files : gmap nat bytes;
  next_fd : nat;
  trace : list event
}.

Definition set_projects (v : gmap string Project.t) (i : t) : t :=
  {| project_base := project_base i; collection_dir := collection_dir i;
     tmp_dir := tmp_dir i; build_root := build_root i;
     intake_address := intake_address i; projects := v;
     project_greenlets := project_greenlets i;
     outgoing_job_queue := outgoing_job_queue i; table := table i;
     files := files i; next_fd := next_fd i; trace := trace i |}.

Definition set_project_greenlets (v : list greenlet) (i : t) : t :=
  {| project_base := project_base i; collection_dir := collection_dir i;
     tmp_dir := tmp_dir i; build_root := build_root i;
     intake_address := intake_address i; projects := projects i;
     project_greenlets := v;
     outgoing_job_queue := outgoing_job_queue i; table := table i;
     files := files i; next_fd := next_fd i; trace := trace i |}.

Definition set_outgoing_job_queue (v : list (gset string * bytes)) (i : t)
  : t :=
  {| project_base := project_base i; collection_dir := collection_dir i;
     tmp_dir := tmp_dir i; build_root := build_root i;
     intake_address := intake_address i; projects := projects i;
     project_greenlets := project_greenlets i;
     outgoing_job_queue := v; table := table i;
     files := files i; next_fd := next_fd i; trace := trace i |}.

Definition set_chunks (tbl : gmap string entry) (fs : gmap nat bytes)
  (next : nat) (i : t) : t :=
  {| project_base := project_base i; collection_dir := collection_dir i;
     tmp_dir := tmp_dir i; build_root := build_root i;
     intake_address := intake_address i; projects := projects i;
     project_greenlets := project_greenlets i;
     outgoing_job_queue := outgoing_job_queue i; table := tbl;
     files := fs; next_fd := next; trace := trace i |}.

Definition set_trace (v : list event) (i : t) : t :=
  {| project_base := project_base i; collection_dir := collection_dir i;
     tmp_dir := tmp_dir i; build_root := build_root i;
     intake_address := intake_address i; projects := projects i;
     project_greenlets := project_greenlets i;
     outgoing_job_queue := outgoing_job_queue i; table := table i;
     files := files i; next_fd := next_fd i; trace := v |}.

Definition emit (e : event) (i : t) : t := set_trace (trace i ++ [e]) i.
Definition emits (es : list event) (i : t) : t := set_trace (trace i ++ es) i.

(** [inst.projects[name].current] *)
Definition current (name : string) (i : t) : option Build.t :=
  projects i !! name ≫= Project.current.

(** A write through [inst.projects[name].current]. *)
Definition alter_current (f : Build.t -> Build.t) (name : string) (i : t)
  : t :=
  set_projects
    (alter (fun p => Project.set_current (f <$> Project.current p) p)
       name (projects i)) i.

Definition set_current (c : option Build.t) (name : string) (i : t) : t :=
  set_projects (alter (Project.set_current c) name (projects i)) i.
End Xbbs.

(** What the handlers ask of the outside world: the exit status and the
    output of the commands they run, the files they read, and the external
    parsers. *)
Record Env := {
  command_ok : list string -> bool;
  command_output : list string -> string;
  file_ok : string -> bool;
  path_exists : string -> bool;
  read_file : string -> bytes;
  json_loads : string -> result value;
  (** [GRAPH_VALIDATOR.validate] *)
  graph_of_json : value -> result (list (string * Info.t));
  (** the [signature-by] key of the property list at a path *)
  plist_signature_by : string -> result string;
  (** [json.dumps(_load_version_information(project))] for a project base *)
  version_information : string -> result string;
  load : value;
  pid : Z;
  hostname : string;
  (** the text of an exception in a reply: its type name, a colon and
      [str(e)] *)
  exception_text : exn -> string
}.

Definition str_attr (o : instance) (name : string) : result string :=
  v ← getattr o name;
  match v with
  | VStr s => Ok s
  | _ => Raise (TypeError name)
  end.

Definition emit (e : event) : prog Xbbs.t unit := modify (Xbbs.emit e).

(** [try: body finally: cleanup] *)
Definition finally {S A} (body : prog S A) (cleanup : prog S unit)
  : prog S A := fun s =>
  match body s with
  | (s', r) =>
      match cleanup s' with
      | (s'', Ok _) => (s'', r)
      | (s'', Raise e) => (s'', Raise e)
      end
  end.

(** [try: body except Exception: handler; raise] *)
Definition on_exception {S A} (body : prog S A) (handler : prog S unit)
  : prog S A := fun s =>
  match body s with
  | (s', Ok a) => (s', Ok a)
  | (s', Raise e) =>
      match handler s' with
      | (s'', Ok _) => (s'', Raise e)
      | (s'', Raise e') => (s'', Raise e')
      end
  end.

(** [cmd.decode("us-ascii")], of the two loops *)
Fixpoint is_ascii (b : bytes) : bool :=
  match b with
  | EmptyString => true
  | String (Ascii.Ascii _ _ _ _ _ _ _ b7) b' => negb b7 && is_ascii b'
  end.

Definition decode_ascii (b : bytes) : result string :=
  if is_ascii b then Ok b else Raise UnicodeDecodeError.

(** [os.path.dirname]: the path up to its last [/], without the
    slashes at the end of that unless it is made of slashes only. *)
Definition slash : Ascii.ascii := Ascii.ascii_of_nat 47.

Fixpoint all_slashes (s : string) : bool :=
  match s with
  | EmptyString => true
  | String c s' => Ascii.eqb c slash && all_slashes s'
  end.

Fixpoint rstrip_slashes (s : string) : string :=
  match s with
  | EmptyString => ""
  | String c s' =>
      let r := rstrip_slashes s' in
      if Ascii.eqb c slash && Nat.eqb (String.length r) 0 then ""
      else String c r
  end.

(** [p[:p.rfind("/") + 1]], with [seen] the part of the path read so far
    and [head] the result for it. *)
Fixpoint head_from (head seen : string) (p : string) : string :=
  match p with
  | EmptyString => head
  | String c p' =>
      let seen := seen +:+ String c "" in
      if Ascii.eqb c slash then head_from seen seen p'
      else head_from head seen p'
  end.

Definition dirname (p : string) : string :=
  let head := head_from "" "" p in
  if all_slashes head then head else rstrip_slashes head.

(** ** The intake: chunks *)

Section Intake.
Context `{Msgpack} `{Blake2b} (env : Env).

(** [tempfile.mkstemp(dir=...)]: a new empty file and its descriptor. *)
Definition mkstemp (inst : Xbbs.t) : Xbbs.t * (nat * string) :=
  let fd := Xbbs.next_fd inst in
  (Xbbs.set_chunks (Xbbs.table inst) (<[fd := ""]> (Xbbs.files inst))
     (S fd) inst,
   (fd, path_join (Xbbs.collection_dir inst) ("tmp" +:+ pretty fd))).

Definition bytes_attr (o : instance) (name : string) : result bytes :=
  v ← getattr o name;
  match v with
  | VBytes s => Ok s
  | _ => Raise (TypeError name)
  end.

(** [cmd_chunk] *)
Definition cmd_chunk (value : bytes) : prog Xbbs.t unit := fun inst =>
  match
    cls ← module_getattr messages "ChunkMessage";
    chunk ← unpack cls value;
    last_hash ← bytes_attr chunk "last_hash";
    data ← bytes_attr chunk "data";
    Ok (last_hash, data)
  with
  | Raise e => (inst, Raise e)
  | Ok (last_hash, data) =>
      let found :=
        if String.eqb last_hash "initial" then
          let '(inst, (fd, path)) := mkstemp inst in
          Some (Xbbs.emit (Chmod path "0644") inst,
                {| Xbbs.fd := fd; Xbbs.path := path;
                   Xbbs.digest_fn := blake2b_new |})
        else
          match Xbbs.table inst !! last_hash with
          | None => None
          | Some store =>
              Some (Xbbs.set_chunks (delete last_hash (Xbbs.table inst))
                      (Xbbs.files inst) (Xbbs.next_fd inst) inst, store)
          end in
      match found with
      | None => (inst, Ok tt)
      | Some (inst, store) =>
          let digest := blake2b_digest value in
          let store :=
            {| Xbbs.fd := Xbbs.fd store; Xbbs.path := Xbbs.path store;
               Xbbs.digest_fn := hasher_update (Xbbs.digest_fn store) data |} in
          (Xbbs.set_chunks (<[digest := store]> (Xbbs.table inst))
             (alter (fun old => old +:+ data) (Xbbs.fd store) (Xbbs.files inst))
             (Xbbs.next_fd inst) inst, Ok tt)
      end
  end.

End Intake.

(** ** The intake: artifacts, logs and job completions *)

Section Handlers.
Context `{Msgpack} `{Blake2b} (env : Env).

(** [check_call_logged] *)
Definition check_call_logged (cmd : list string) (cwd : string)
  : prog Xbbs.t unit :=
  emit (Command cmd cwd);;
  if command_ok env cmd then mret tt else raise (CalledProcessError cmd).

(** [check_output_logged] *)
Definition check_output_logged (cmd : list string) (cwd : string)
  : prog Xbbs.t string :=
  emit (Command cmd cwd);;
  if command_ok env cmd then mret (command_output env cmd)
  else raise (CalledProcessError cmd).

(** A file operation that the outside world lets succeed or not. *)
Definition file_op (e : event) (path : string) : prog Xbbs.t unit :=
  emit e;;
  if file_ok env path then mret tt else raise (OSError path).

(** [maybe_sign_artifact] *)
Definition maybe_sign_artifact (artifact : string) (project : Project.t)
  : prog Xbbs.t unit :=
  match Project.fingerprint project with
  | Some fp =>
      if String.eqb fp "" then mret tt
      else
        let privkey := path_join (Project.base project) (fp +:+ ".rsa") in
        let pubkey := path_join (Project.base project) (fp +:+ ".plist") in
        signed_by ← lift (plist_signature_by env pubkey);
        check_call_logged ["xbps-rindex"; "--signedby"; signed_by;
                           "--privkey"; privkey; "-s"; dirname artifact] "";;
        check_call_logged ["xbps-rindex"; "--signedby"; signed_by;
                           "--privkey"; privkey; "-S"; artifact] ""
  | None => mret tt
  end.

(** [load_tool_registry]: the versions in [tools.json], none when the file
    is missing. *)
Definition load_tool_registry (tool_repo : string)
  : result (list (string * value)) :=
  let dbf := path_join tool_repo "tools.json" in
  if path_exists env dbf then
    v ← json_loads env (read_file env dbf);
    match v with
    | VDict d => Ok d
    | _ => Ok []
    end
  else Ok [].

(** The selection of the set an artifact message refers to. *)
Definition aset_of (artifact_type : string) (run : Build.t)
  : result (gmap string nat) :=
  if String.eqb artifact_type "tool" then Ok (Build.tool_set run)
  else if String.eqb artifact_type "file" then Ok (Build.file_set run)
  else if String.eqb artifact_type "package" then Ok (Build.pkg_set run)
  else Raise (AssertionError "artifact_type").

(** The inner [try] of [cmd_artifact]: the staging file is moved into the
    repository of the build and copied into the rolling one. *)
Definition deposit (proj : Project.t) (artifact : Artifact.t)
  (repo repo_roll target : string) (filename : value) : prog Xbbs.t unit :=
  match Artifact.architecture artifact with
  | ArchList l =>
      if Nat.eqb (length l) 1 then mret tt
      else raise (AssertionError "multiarch support missing, yet demanded?")
  | ArchVal _ => mret tt
  end;;
  filename ← match filename with
             | VStr f => mret f
             | _ => raise (TypeError "filename")
             end;
  let artifact_file := path_join repo filename in
  let artifact_roll := path_join repo_roll filename in
  file_op (Move target artifact_file) artifact_file;;
  match Artifact.kind artifact with
  | Kind.PACKAGE =>
      check_call_logged ["xbps-rindex"; "-fa"; artifact_file] "";;
      (if negb (path_exists env artifact_roll) then
         file_op (Copy artifact_file artifact_roll) artifact_roll;;
         check_call_logged ["xbps-rindex"; "-a"; artifact_roll] "";;
         check_call_logged ["xbps-rindex"; "-r"; repo_roll] ""
       else
         if String.eqb (read_file env artifact_file)
              (read_file env artifact_roll)
         then mret tt
         else emit (Logged "hash changed, but pkgver didn't!"));;
      maybe_sign_artifact artifact_file proj;;
      maybe_sign_artifact artifact_roll proj
  | Kind.TOOL =>
      toolvers ← lift (load_tool_registry repo_roll);
      let same_version :=
        match dict_get toolvers (Artifact.name artifact),
              Artifact.version artifact with
        | Some (VStr v), Some v' => String.eqb v v'
        | _, _ => false
        end in
      if negb (path_exists env artifact_roll) || negb same_version then
        file_op (Copy artifact_file artifact_roll) artifact_roll;;
        file_op (WriteFile (path_join repo_roll "tools.json"))
          (path_join repo_roll "tools.json")
      else
        if String.eqb (read_file env artifact_file)
             (read_file env artifact_roll)
        then mret tt
        else emit (Logged "hash changed, but version didn't!")
  | Kind.FILE => file_op (Copy artifact_file artifact_roll) artifact_roll
  end.

(** [run.artifact_received.set()] on the current build of a project. *)
Definition wake_solver (project : string) : prog Xbbs.t unit :=
  modify (Xbbs.alter_current (Build.set_artifact_received true) project).

(** A write to the status bits of an artifact of the current build. *)
Definition write_artifact (project : string) (r : nat)
  (f : Artifact.t -> Artifact.t) : prog Xbbs.t unit :=
  modify (Xbbs.alter_current (Build.alter_object f r) project).

(** [if run and not run.state.terminating: run.store_status()], on the
    build [run] refers to, which stays the current one throughout. *)
Definition store_status_if_running (project : string) : prog Xbbs.t unit :=
  with_state (fun inst =>
  match Xbbs.current project inst with
  | Some run =>
      if BuildState.terminating (Build.state run) then mret tt
      else emit (Build.store_status None run)
  | None => mret tt
  end).

(** [(fd, target, digest_fn) = cmd_chunk.table[message.last_hash]] and
    [del cmd_chunk.table[message.last_hash]] *)
Definition claim_entry (last_hash : value) : prog Xbbs.t Xbbs.entry :=
  fun inst =>
  match last_hash with
  | VBytes h =>
      match Xbbs.table inst !! h with
      | Some store =>
          (Xbbs.set_chunks (delete h (Xbbs.table inst)) (Xbbs.files inst)
             (Xbbs.next_fd inst) inst, Ok store)
      | None => (inst, Raise (KeyError h))
      end
  | _ => (inst, Raise (KeyError "None"))
  end.

(** The inner [try ... except Exception] around [deposit]. *)
Definition try_deposit (project : string) (proj : Project.t) (r : nat)
  (repo repo_roll target : string) (filename : value) : prog Xbbs.t unit :=
  fun inst =>
  match Xbbs.current project inst ≫= fun b => Build.objects b !! r with
  | Some artifact =>
      match deposit proj artifact repo repo_roll target filename inst with
      | (inst, Ok _) => (inst, Ok tt)
      | (inst, Raise _) =>
          write_artifact project r (Artifact.set_failed true)
            (Xbbs.emit (Logged "artifact deposit failed") inst)
      end
  | None => (inst, Ok tt)
  end.

(** [cmd_artifact] from [artifact = aset[message.artifact]] to the end of
    the outer [try], with its [except] clause.  It returns the [target],
    once bound, for the [finally] clause. *)
Definition receive_artifact (message : instance) (project : string)
  (proj : Project.t) (r : nat) (repo repo_roll : string)
  : prog Xbbs.t (option string) :=
  on_exception
    (success ← lift (getattr message "success");
     let failed := match success with VBool b => negb b | _ => false end in
     write_artifact project r (Artifact.set_received true);;
     write_artifact project r (Artifact.set_failed failed);;
     if failed then
       (wake_solver project;; mret None)
     else
       (last_hash ← lift (getattr message "last_hash");
        store ← claim_entry last_hash;
        filename ← lift (getattr message "filename");
        try_deposit project proj r repo repo_roll (Xbbs.path store) filename;;
        wake_solver project;;
        mret (Some (Xbbs.path store))))
    (write_artifact project r (Artifact.set_failed true);;
     wake_solver project).

(** The body of the outer [try] of [cmd_artifact], from the point where
    [run] is bound. *)
Definition artifact_body (message : instance) (project : string)
  (proj : Project.t) (run : Build.t) : prog Xbbs.t (option string) :=
  artifact_type ← lift (str_attr message "artifact_type");
  aset ← lift (aset_of artifact_type run);
  let repo :=
    path_join (Build.build_directory run) (artifact_type +:+ "_repo") in
  let repo_roll :=
    path_join (Project.base proj) ("rolling/" +:+ artifact_type +:+ "_repo") in
  emit (Makedirs repo);;
  emit (Makedirs repo_roll);;
  name ← lift (str_attr message "artifact");
  match (aset : gmap string nat) !! name with
  | None => mret None
  | Some r => receive_artifact message project proj r repo repo_roll
  end.

(** [cmd_artifact] *)
Definition cmd_artifact (value : bytes) : prog Xbbs.t unit :=
  cls ← lift (module_getattr messages "ArtifactMessage");
  message ← lift (unpack cls value);
  project ← lift (str_attr message "project");
  with_state (fun inst =>
  match Xbbs.projects inst !! project with
  | None =>
      (* [return] inside [try], then [finally] reads [run], which was
         never assigned *)
      raise (UnboundLocalError "run")
  | Some proj =>
      match Project.current proj with
      | None => mret tt
      | Some run =>
          fun inst =>
            match artifact_body message project proj run inst with
            | (inst, r) =>
                match store_status_if_running project inst with
                | (inst, _) =>
                    match r with
                    | Ok (Some target) => (Xbbs.emit (Unlink target) inst, Ok tt)
                    | Ok None => (inst, Ok tt)
                    | Raise e => (inst, Raise e)
                    end
                end
            end
      end
  end).

(** [cmd_log] *)
Definition cmd_log (value : bytes) : prog Xbbs.t unit :=
  cls ← lift (module_getattr messages "LogMessage");
  message ← lift (unpack cls value);
  project ← lift (str_attr message "project");
  with_state (fun inst =>
  match Xbbs.projects inst !! project with
  | None => mret tt
  | Some proj =>
      match Project.current proj with
      | None => emit (Logged "dropped log because project was not running")
      | Some run =>
          job ← lift (str_attr message "job");
          emit (WriteFile (path_join (Build.build_directory run) (job +:+ ".log")))
      end
  end).

Definition num_attr (o : instance) (name : string) : result number :=
  v ← getattr o name;
  match v with
  | VNum n => Ok n
  | _ => Raise (TypeError name)
  end.

(** The status a completion message gives a job. *)
Definition completion_status (exit_code : number) (job : Job.t)
  : JobStatus.t :=
  if number_is_zero exit_code then JobStatus.SUCCESS
  else if Job.unstable job then JobStatus.IGNORED_FAILURE
  else JobStatus.FAILED.

(** [job = jobs[name]; job.status = ...; job.exit_code = ...;
    job.run_time = ...] *)
Fixpoint complete_job (jobs : list (string * Job.t)) (name : string)
  (exit_code run_time : number) : list (string * Job.t) :=
  match jobs with
  | [] => []
  | (k, j) :: jobs' =>
      if String.eqb k name
      then (k, Job.set_completion exit_code run_time
                 (Job.set_status (completion_status exit_code j) j)) :: jobs'
      else (k, j) :: complete_job jobs' name exit_code run_time
  end.

(** [cmd_job] *)
Definition cmd_job (value : bytes) : prog Xbbs.t unit :=
  cls ← lift (module_getattr messages "JobCompletionMessage");
  message ← lift (unpack cls value);
  project ← lift (str_attr message "project");
  with_state (fun inst =>
  match Xbbs.projects inst !! project with
  | None => mret tt
  | Some proj =>
      match Project.current proj with
      | None => mret tt
      | Some run =>
          job ← lift (str_attr message "job");
          if dict_mem (Build.jobs run) job then
            exit_code ← lift (num_attr message "exit_code");
            run_time ← lift (num_attr message "run_time");
            modify (Xbbs.alter_current (fun b =>
              Build.set_graph_field
                {| Job.objects := Build.objects b;
                   Job.jobs := complete_job (Build.jobs b) job
                                 exit_code run_time |} b) project);;
            emit (WriteFile (path_join (Build.build_directory run)
                               (job +:+ ".info")));;
            store_status_if_running project;;
            wake_solver project
          else raise (KeyError job)
      end
  end).

(** One turn of [intake_loop]: the handler of the frame is run, and an
    exception it raises is logged, as is the one of a command that is not
    ASCII or not among [intake_loop.cmds]. *)
Definition intake_step (cmd : string) (value : bytes) (inst : Xbbs.t)
  : Xbbs.t :=
  let handler :=
    if String.eqb cmd "chunk" then cmd_chunk value
    else if String.eqb cmd "artifact" then cmd_artifact value
    else if String.eqb cmd "job" then cmd_job value
    else if String.eqb cmd "log" then cmd_log value
    else if is_ascii cmd then raise (KeyError cmd)
    else raise UnicodeDecodeError in
  match handler inst with
  | (inst, Ok _) => inst
  | (inst, Raise e) => Xbbs.emit (Logged "intake pipe error, continuing") inst
  end.

End Handlers.

(** ** The solver *)

Section Coordinator.
Context `{Msgpack} `{Blake2b} (env : Env).
(** The module [xbbs.messages] as the coordinator sees it. *)
Variable msgs : list (string * message_class).

Definition option_value (o : option string) : value :=
  match o with Some s => VStr s | None => VNone end.

Definition arch_value (a : arch) : value :=
  match a with
  | ArchVal o => option_value o
  | ArchList l => VList (option_value <$> l)
  end.

Definition _produce_artifact_obj (x : Artifact.t) : value :=
  VDict [("architecture", arch_value (Artifact.architecture x));
         ("version", option_value (Artifact.version x))].

(** The objects of a kind among the referenced ones, in order. *)
Definition of_kind (objs : list Artifact.t) (kind : Kind.t) (refs : list nat)
  : list Artifact.t :=
  filter (fun x => Kind.eqb (Artifact.kind x) kind = true)
    (omap (fun r => objs !! r) refs).

(** [{x.name: _produce_artifact_obj(x) for x in refs if x.kind is kind}] *)
Definition artifact_dict (objs : list Artifact.t) (kind : Kind.t)
  (refs : list nat) : value :=
  VDict (foldl (fun d x => dict_set d (Artifact.name x) (_produce_artifact_obj x))
           [] (of_kind objs kind refs)).

(** The keyword arguments of the [msgs.JobMessage(...)] call of
    [solve_project], in the order of the source. *)
Definition job_request_kwargs (inst : Xbbs.t) (projinfo : Project.t)
  (build : Build.t) (name : string) (job : Job.t) (keys : value)
  : list (string * value) :=
  let objs := Build.objects build in
  [ ("project", VStr (Build.name build));
    ("job", VStr name);
    ("repository", VStr (Build.repository build));
    ("revision", option_value (Build.revision build));
    ("output", VStr (Xbbs.intake_address inst));
    ("build_root", VStr (Xbbs.build_root inst));
    ("needed_tools", artifact_dict objs Kind.TOOL (Job.deps job));
    ("needed_pkgs", artifact_dict objs Kind.PACKAGE (Job.deps job));
    ("prod_pkgs", artifact_dict objs Kind.PACKAGE (Job.products job));
    ("prod_tools", artifact_dict objs Kind.TOOL (Job.products job));
    ("prod_files",
     VList ((fun x => VStr (Artifact.name x))
              <$> of_kind objs Kind.FILE (Job.products job)));
    ("tool_repo", VStr (Project.tools projinfo));
    ("pkg_repo", VStr (Project.packages projinfo));
    ("commits_object", Build.commits_object build);
    ("xbps_keys", keys);
    ("mirror_root", option_value (Project.mirror_root projinfo));
    ("distfile_path", VStr (Project.distfile_path projinfo)) ].

(** A write to the job at a position of the current build. *)
Definition write_job (project : string) (i : nat) (f : Job.t -> Job.t)
  : prog Xbbs.t unit :=
  modify (Xbbs.alter_current (fun b =>
    Build.set_graph_field (Job.alter_job f i (Build.graph b)) b) project).

(** The dispatch of a job whose dependencies are all received and none
    failed: the end of the loop body of [solve_project]. *)
Definition dispatch (project : string) (projinfo : Project.t) (i : nat)
  (name : string) (job : Job.t) : prog Xbbs.t unit :=
  keys ← (if truthy (Project.fingerprint projinfo) then
            let pubkey :=
              path_join (Project.base projinfo)
                (default "" (Project.fingerprint projinfo) +:+ ".plist") in
            if file_ok env pubkey
            then mret (VDict [(default "" (Project.fingerprint projinfo),
                               VBytes (read_file env pubkey))])
            else raise (OSError pubkey)
          else mret (VDict []));
  write_job project i (Job.set_status JobStatus.RUNNING);;
  cls ← lift (module_getattr msgs "JobMessage");
  with_state (fun inst =>
  match Xbbs.current project inst with
  | None => raise (AttributeError "name")
  | Some build =>
      jobreq ← lift (attrs_init (cls_fields cls)
                       (job_request_kwargs inst projinfo build name job keys));
      emit (Build.store_status None build);;
      modify (fun inst =>
        Xbbs.set_outgoing_job_queue
          (Xbbs.outgoing_job_queue inst
             ++ [(Job.capabilities job, pack cls jobreq)]) inst)
  end).

(** The body of [for name, job in build.jobs.items()], for the job at
    position [i]; [some_waiting] is passed through. *)
Definition scan_job (project : string) (projinfo : Project.t) (i : nat)
  (some_waiting : bool) : prog Xbbs.t bool :=
  with_state (fun inst =>
  match Xbbs.current project inst ≫= fun b => Build.jobs b !! i with
  | None => mret some_waiting
  | Some (name, job) =>
      let objs := default [] (Build.objects <$> Xbbs.current project inst) in
      let promote :=
        forallb (is_received objs) (Job.products job)
        && JobStatus.eqb (Job.status job) JobStatus.RUNNING in
      let job :=
        if promote then Job.set_status JobStatus.WAITING_FOR_DONE job
        else job in
      (if promote
       then write_job project i (Job.set_status JobStatus.WAITING_FOR_DONE)
       else mret tt);;
      let some_waiting :=
        some_waiting || negb (JobStatus.terminating (Job.status job)) in
      if negb (JobStatus.eqb (Job.status job) JobStatus.WAITING)
      then mret some_waiting
      else if existsb (is_failed objs) (Job.deps job) then
        modify (Xbbs.alter_current (fun b =>
          Build.set_artifact_received true
            (Build.set_graph_field (Job.fail i (Build.graph b)) b)) project);;
        mret some_waiting
      else if negb (forallb (is_received objs) (Job.deps job))
      then mret some_waiting
      else dispatch project projinfo i name job;; mret some_waiting
  end).

Fixpoint scan_jobs (project : string) (projinfo : Project.t)
  (positions : list nat) (some_waiting : bool) : prog Xbbs.t bool :=
  match positions with
  | [] => mret some_waiting
  | i :: rest =>
      some_waiting ← scan_job project projinfo i some_waiting;
      scan_jobs project projinfo rest some_waiting
  end.

Definition all_received (b : Build.t) (set : gmap string nat) : bool :=
  forallb (is_received (Build.objects b)) (map_to_list set).*2.

(** One turn of the [while True] of [solve_project]: the result of the
    build when no job is left to wait for, [None] when the solver goes on
    to wait for [artifact_received]. *)
Definition solve_scan (project : string) (projinfo : Project.t)
  : prog Xbbs.t (option bool) := fun inst =>
  let inst := Xbbs.alter_current (Build.set_artifact_received false) project inst in
  let n := length (default [] (Build.jobs <$> Xbbs.current project inst)) in
  match scan_jobs project projinfo (seq 0 n) false inst with
  | (inst, Raise e) => (inst, Raise e)
  | (inst, Ok some_waiting) =>
      match Xbbs.current project inst with
      | None => (inst, Raise (AttributeError "tool_set"))
      | Some build =>
          if some_waiting then (inst, Ok None)
          else if all_received build (Build.tool_set build)
                  && all_received build (Build.file_set build)
                  && all_received build (Build.pkg_set build)
                  && forallb (fun kv => JobStatus.terminating (Job.status kv.2))
                       (Build.jobs build)
          then (inst, Ok (Some (forallb (fun kv =>
                                  JobStatus.successful (Job.status kv.2))
                                  (Build.jobs build))))
          else (inst, Raise (AssertionError "solve_project"))
      end
  end.

(** [build.artifact_received.wait()]: the intake handles frames, in the
    order of their arrival, until one of them sets the event.  [None] when
    the frames run out first. *)
Fixpoint wait_artifact_received (project : string)
  (frames : list (string * bytes)) (inst : Xbbs.t)
  : Xbbs.t * option (list (string * bytes)) :=
  if default false (Build.artifact_received <$> Xbbs.current project inst)
  then (inst, Some frames)
  else
    match frames with
    | [] => (inst, None)
    | (cmd, value) :: frames' =>
        wait_artifact_received project frames' (intake_step env cmd value inst)
    end.

Inductive solver_outcome :=
| Finished (success : bool)
| Waiting.

(** [solve_project], for the frames the intake receives while it runs.
    The loop has no bound of its own; [fuel] bounds its turns and
    [Waiting] is the solver waiting for a frame that does not come. *)
Fixpoint solve_project (fuel : nat) (project : string) (projinfo : Project.t)
  (frames : list (string * bytes)) : prog Xbbs.t solver_outcome :=
  match fuel with
  | O => mret Waiting
  | S fuel' =>
      r ← solve_scan project projinfo;
      match r with
      | Some success => mret (Finished success)
      | None =>
          fun inst =>
            match wait_artifact_received project frames inst with
            | (inst, Some frames') =>
                solve_project fuel' project projinfo frames' inst
            | (inst, None) => (inst, Ok Waiting)
            end
      end
  end.

End Coordinator.

(** ** The build driver and the command surface *)

Section Driver.
Context `{Msgpack} `{Blake2b} (env : Env).
Variable msgs : list (string * message_class).

(** [build.update_state(msgs.BuildState.<name>)] on the current build *)
Definition update_state (project : string) (name : string)
  : prog Xbbs.t unit :=
  state ← lift (BuildState.getattr name);
  with_state (fun inst =>
  match Xbbs.current project inst with
  | None => raise (AttributeError "update_state")
  | Some b =>
      let '(b, e) := Build.update_state state b in
      modify (Xbbs.set_current (Some b) project);;
      emit e
  end).

Definition json_mapping (text : string) : result (list (string * value)) :=
  v ← json_loads env text;
  match v with
  | VDict d => Ok d
  | _ => Raise (AttributeError "items")
  end.

(** [commits_object[k][field] = v] for every item of a mapping. *)
Definition merge_commits (field : string) (items : list (string * value))
  (commits : list (string * value)) : list (string * value) :=
  foldl (fun commits kv =>
    let old := match dict_get commits kv.1 with
               | Some (VDict d) => d
               | _ => []
               end in
    dict_set commits kv.1 (VDict (dict_set old field kv.2))) commits items.

(** The seeding of the repositories of an incremental build from the
    rolling ones. *)
Definition seed_repos (project : string) (proj : Project.t)
  (package_repo tool_repo rpkg_repo rtool_repo : string)
  : prog Xbbs.t unit :=
  with_state (fun inst =>
  match Xbbs.current project inst with
  | None => raise (AttributeError "pkg_set")
  | Some build =>
      let received set :=
        filter (fun x => Artifact.received x = true)
          (omap (fun r => Build.objects build !! r) (map_to_list set).*2) in
      mfor (fun x =>
        match Artifact.architecture x with
        | ArchList l =>
            if Nat.eqb (length l) 1 then mret tt
            else raise (AssertionError "multiarch support missing, yet demanded?")
        | ArchVal _ => mret tt
        end;;
        let filearch :=
          match Artifact.architecture x with
          | ArchList _ => "noarch"
          | ArchVal a => default "None" a
          end in
        let fname :=
          Artifact.name x +:+ "-" +:+ default "None" (Artifact.version x)
          +:+ "." +:+ filearch +:+ ".xbps" in
        let target_file := path_join package_repo fname in
        file_op env (Copy (path_join rpkg_repo fname) target_file) target_file;;
        check_call_logged env ["xbps-rindex"; "-fa"; target_file] "";;
        maybe_sign_artifact env target_file proj)
        (received (Build.pkg_set build));;
      mfor (fun x =>
        let fname := Artifact.name x +:+ ".tar.gz" in
        let target_file := path_join tool_repo fname in
        let tool_fname := path_join rtool_repo fname in
        file_op env (Copy tool_fname target_file) target_file;;
        file_op env (WriteFile (path_join rtool_repo "tools.json"))
          (path_join rtool_repo "tools.json"))
        (received (Build.tool_set build))
  end).

(** The body of the [try] of [run_project], inside its three context
    managers, for the frames the intake receives while the solver runs. *)
Definition run_pipeline (fuel : nat) (project : string) (proj : Project.t)
  (increment : bool) (frames : list (string * bytes))
  : prog Xbbs.t solver_outcome :=
  with_state (fun inst =>
  let projdir := path_join (Xbbs.tmp_dir inst) "projdir" in
  let td := path_join (Xbbs.tmp_dir inst) "td" in
  update_state project "FETCH";;
  check_call_logged env ["git"; "init"] projdir;;
  check_call_logged env ["git"; "remote"; "add"; "origin"; Project.git proj]
    projdir;;
  check_call_logged env ["git"; "fetch"; "origin"] projdir;;
  check_call_logged env ["git"; "checkout"; "--detach";
                         "origin/" +:+ Project.default_branch proj] projdir;;
  rev ← check_output_logged env ["git"; "rev-parse"; "HEAD"] projdir;
  update_state project "SETUP";;
  (let distfiles := path_join projdir (Project.distfile_path proj) in
   if path_exists env distfiles then emit (Copy distfiles td) else mret tt);;
  check_call_logged env ["xbstrap"; "init"; projdir] td;;
  (if truthy (Project.mirror_root proj) then
     update_state project "UPDATING_MIRRORS";;
     let mirror_build_dir := path_join (Project.base proj) "mirror_build" in
     emit (Makedirs mirror_build_dir);;
     check_call_logged env ["xbstrap-mirror"; "-S"; projdir; "update";
                            "--keep-going"] mirror_build_dir
   else mret tt);;
  check_call_logged env ["xbstrap"; "rolling-versions"; "fetch"] td;;
  check_call_logged env ["xbstrap"; "variable-commits"; "fetch"; "-c"] td;;
  rolling_text ← check_output_logged env
    ["xbstrap"; "rolling-versions"; "determine"; "--json"] td;
  rolling_ids ← lift (json_mapping rolling_text);
  variable_text ← check_output_logged env
    ["xbstrap"; "variable-commits"; "determine"; "--json"] td;
  variable_commits ← lift (json_mapping variable_text);
  let commits_object :=
    VDict (merge_commits "fixed_commit" variable_commits
             (merge_commits "rolling_id" rolling_ids [])) in
  emit (WriteFile (path_join projdir "bootstrap-commits.yml"));;
  update_state project "CALCULATING";;
  let xbargs := ["xbstrap-pipeline"; "compute-graph"; "--artifacts"; "--json"] in
  xbargs ← (if increment then
              (lift (version_information env (Project.base proj)) ≫= fun _ =>
               mret (xbargs ++ ["--version-file"; "fd:0"]))
            else mret xbargs : prog Xbbs.t (list string));
  graph_text ← check_output_logged env xbargs td;
  graph ← lift (json_loads env graph_text);
  graph ← lift (graph_of_json env graph);
  with_state (fun inst =>
    match Xbbs.current project inst with
    | None => raise (AttributeError "set_graph")
    | Some b =>
        match Build.set_graph rev graph commits_object b with
        | (b, Ok e) => modify (Xbbs.set_current (Some b) project);; emit e
        | (b, Raise e) => modify (Xbbs.set_current (Some b) project);; raise e
        end
    end);;
  with_state (fun inst =>
    let build_directory :=
      default "" (Build.build_directory <$> Xbbs.current project inst) in
    let package_repo := path_join build_directory "package_repo" in
    let tool_repo := path_join build_directory "tool_repo" in
    let roll_base := path_join (Project.base proj) "rolling" in
    let rpkg_repo := path_join roll_base "package_repo" in
    let rtool_repo := path_join roll_base "tool_repo" in
    if path_exists env roll_base && increment then
      update_state project "SETUP_REPOS";;
      emit (Makedirs package_repo);;
      emit (Makedirs tool_repo);;
      seed_repos project proj package_repo tool_repo rpkg_repo rtool_repo
    else emit (Rmtree roll_base));;
  update_state project "RUNNING";;
  solve_project env msgs fuel project proj frames).

(** [run_project], for the frames the intake receives while the solver
    runs.  The handlers of other greenlets are not interleaved with the
    steps before the solver. *)
Definition run_project (fuel : nat) (project : string) (incremental : value)
  (frames : list (string * bytes)) (inst : Xbbs.t) : Xbbs.t :=
  match Xbbs.projects inst !! project with
  | None => inst
  | Some proj =>
      let increment :=
        match incremental with
        | VBool b => b
        | _ => Project.incremental proj
        end in
      let inst :=
        Xbbs.alter_current (Build.set_incremental increment) project inst in
      let current_file := path_join (Project.base proj) "current" in
      let '(inst, r) :=
        (build_directory ←
           with_state (fun inst =>
             match Xbbs.current project inst with
             | Some b => mret (Build.build_directory b)
             | None => raise (AttributeError "build_directory")
             end);
         file_op env (WriteFile (path_join build_directory "coordinator.lock"))
           (path_join build_directory "coordinator.lock");;
         emit (Symlink build_directory current_file);;
         finally (run_pipeline fuel project proj increment frames)
           (emit (Unlink current_file))) inst in
      let success :=
        match r with
        | Ok (Finished success) => success
        | _ => false
        end in
      let inst :=
        match r with
        | Raise _ => Xbbs.emit (Logged "build failed due to an exception") inst
        | Ok _ => inst
        end in
      match Xbbs.current project inst with
      | None => Xbbs.set_current None project inst
      | Some build =>
          Xbbs.emit
            (Build.store_status (Some success)
               (Build.set_state BuildState.DONE build))
            (Xbbs.set_current None project inst)
      end
  end.

(** [cmd_build], at the time whose formatted timestamp is [now] *)
Definition cmd_build (now : string) (arg : bytes)
  : prog Xbbs.t (option (Z * bytes)) :=
  cls ← lift (module_getattr msgs "BuildMessage");
  msg ← lift (unpack cls arg);
  name ← lift (str_attr msg "project");
  delay ← lift (getattr msg "delay");
  incremental ← lift (getattr msg "incremental");
  with_state (fun inst =>
  match Xbbs.projects inst !! name with
  | None => mret (Some (404%Z, dumps (VStr "unknown project")))
  | Some proj =>
      match Project.current proj with
      | Some _ => mret (Some (409%Z, dumps (VStr "project already running")))
      | None =>
          '(build, events) ←
            lift (Build.create (path_exists env) (Xbbs.project_base inst)
                    (Project.name proj) (Project.git proj)
                    (Project.incremental proj) now);
          modify (Xbbs.emits events);;
          modify (Xbbs.set_current (Some build) name);;
          emit (Spawn name delay incremental);;
          modify (fun inst =>
            Xbbs.set_project_greenlets
              (Xbbs.project_greenlets inst
                 ++ [{| Xbbs.g_project := name; Xbbs.g_delay := delay;
                        Xbbs.g_incremental := incremental |}]) inst);;
          mret None
      end
  end).

(** [for x in proj.current.jobs.values(): if x.status is WAITING:
    x.fail(...)] *)
Definition fail_waiting (g : Job.graph) : Job.graph :=
  foldl (fun g i =>
    match Job.job_at g i with
    | Some x =>
        if JobStatus.eqb (Job.status x) JobStatus.WAITING then Job.fail i g
        else g
    | None => g
    end) g (seq 0 (length (Job.jobs g))).

(** [cmd_fail] *)
Definition cmd_fail (name : bytes) : prog Xbbs.t (option (Z * bytes)) :=
  (* [name not in inst.projects]: the keys are [str], so a name of
     another type is not among them; a [list] or a [dict] is not
     hashable and the lookup raises *)
  name ← lift (match loads name with
               | Some (VStr n) => Ok (Some n)
               | Some (VList _) => Raise (TypeError "unhashable type: 'list'")
               | Some (VDict _) => Raise (TypeError "unhashable type: 'dict'")
               | Some _ => Ok None
               | None => Raise UnpackException
               end);
  with_state (fun inst =>
  match name with
  | None => mret (Some (404%Z, dumps (VStr "unknown project")))
  | Some name =>
      match Xbbs.projects inst !! name with
      | None => mret (Some (404%Z, dumps (VStr "unknown project")))
      | Some proj =>
          match Project.current proj with
          | None => mret (Some (409%Z, dumps (VStr "project not running")))
          | Some _ =>
              modify (Xbbs.alter_current (fun b =>
                Build.set_artifact_received true
                  (Build.set_graph_field (fail_waiting (Build.graph b)) b))
                name);;
              mret None
          end
      end
  end).

(** [cmd_status] *)
Definition cmd_status (arg : bytes) : prog Xbbs.t (option (Z * bytes)) :=
  cls ← lift (module_getattr msgs "StatusMessage");
  with_state (fun inst =>
    let projmap :=
      (fun kv : string * Project.t =>
         (Project.name kv.2,
          VDict [("git", VStr (Project.git kv.2));
                 ("description", VStr (Project.description kv.2));
                 ("classes", VList (VStr <$> Project.classes kv.2));
                 ("running", VBool (bool_decide
                                      (is_Some (Project.current kv.2))))]))
        <$> map_to_list (Xbbs.projects inst) in
    o ← lift (attrs_init (cls_fields cls)
                [("projects", VDict projmap); ("hostname", VStr (hostname env));
                 ("load", load env); ("pid", VNum (Int (pid env)))]);
    mret (Some (200%Z, pack cls o))).

(** One turn of [command_loop]: the reply to a request.  The command is
    decoded inside the [try], so a command that is not ASCII is answered
    as an exception of the handler is. *)
Definition command_step (now : string) (command : bytes) (arg : bytes)
  (inst : Xbbs.t) : Xbbs.t * (string * bytes) :=
  match decode_ascii command with
  | Raise e => (inst, ("500", dumps (VStr (exception_text env e))))
  | Ok command =>
      let handler :=
        if String.eqb command "build" then Some (cmd_build now arg)
        else if String.eqb command "fail" then Some (cmd_fail arg)
        else if String.eqb command "status" then Some (cmd_status arg)
        else None in
      match handler with
      | None => (inst, ("400", dumps (VStr "no such command")))
      | Some handler =>
          match handler inst with
          | (inst, Ok None) => (inst, ("204", dumps (VStr "")))
          | (inst, Ok (Some (code, value))) => (inst, (pretty code, value))
          | (inst, Raise (ValidationError what)) =>
              (inst,
               ("400", dumps (VStr (exception_text env (ValidationError what)))))
          | (inst, Raise e) => (inst, ("500", dumps (VStr (exception_text env e))))
          end
      end
  end.

End Driver.

(** ** xbbs/worker/__init__.py: the upload of an artifact *)

(** Calling a class with positional arguments. *)
Fixpoint attrs_positional (fs : fields) (args : list value) : result instance :=
  match fs, args with
  | (name, _) :: fs', v :: args' =>
      o ← attrs_positional fs' args';
      Ok ((name, v) :: o)
  | [], _ :: _ => Raise (TypeError "too many positional arguments")
  | fs, [] => attrs_fill fs []
  end.

(** [os.path.basename] *)
Fixpoint basename_from (seen : string) (p : string) : string :=
  match p with
  | EmptyString => seen
  | String c p' =>
      if Ascii.eqb c (Ascii.ascii_of_nat 47) then basename_from "" p'
      else basename_from (seen +:+ String c "") p'
  end.
Definition basename (p : string) : string := basename_from "" p.

Definition CHUNK_SIZE : nat := 32 * 1024.

Section Worker.
Context `{Msgpack} `{Blake2b}.

(** The [while len(data)] loop of [upload].  [reads] is what the
    successive [toupload.read(CHUNK_SIZE)] return before the file object
    is exhausted, from when on they return [b""].  The result is the
    frames sent and the last value of [last_hash]. *)
Fixpoint send_chunks (last_hash : bytes) (reads : list bytes)
  : list (string * bytes) * bytes :=
  match reads with
  | [] => ([], last_hash)
  | data :: reads' =>
      if Nat.eqb (String.length data) 0 then ([], last_hash)
      else
        match attrs_positional (cls_fields ChunkMessage)
                [VBytes last_hash; VBytes data] with
        | Ok o =>
            let m := pack ChunkMessage o in
            let '(frames, last) := send_chunks (blake2b_digest m) reads' in
            (("chunk", m) :: frames, last)
        | Raise _ => ([], last_hash)
        end
  end.

(** [send_fail]: the frame sent. *)
Definition send_fail (project kind name : string) : list (string * bytes) :=
  match attrs_positional (cls_fields ArtifactMessage)
          [VStr project; VStr kind; VStr name; VBool false] with
  | Ok msg => [("artifact", pack ArtifactMessage msg)]
  | Raise _ => []
  end.

(** [upload]: the frames sent for the file at [fpath], [None] when there
    is no such file. *)
Definition upload (project kind name fpath : string)
  (file : option (list bytes)) : list (string * bytes) :=
  match file with
  | Some reads =>
      let '(frames, last_hash) := send_chunks "initial" reads in
      match attrs_positional (cls_fields ArtifactMessage)
              [VStr project; VStr kind; VStr name; VBool true;
               VStr (basename fpath); VBytes last_hash] with
      | Ok msg => frames ++ [("artifact", pack ArtifactMessage msg)]
      | Raise _ => frames
      end
  | None => send_fail project kind name
  end.

(** What [read(size)] returns on a regular file with the given contents,
    call after call. *)
Fixpoint file_reads (fuel size : nat) (contents : bytes) : list bytes :=
  match fuel with
  | O => []
  | S fuel' =>
      match contents with
      | EmptyString => []
      | _ =>
          substring 0 size contents
          :: file_reads fuel' size
               (substring size (String.length contents - size) contents)
      end
  end.

End Worker.

(** ** xbbs/worker/__init__.py: the progress stream of a job *)

(** [c.isspace()]; a [str] is taken as a sequence of code points below
    256, of which these are the white space. *)
Definition isspace (c : Ascii.ascii) : bool :=
  let n := Ascii.nat_of_ascii c in
  (Nat.leb 9 n && Nat.leb n 13) || (Nat.leb 28 n && Nat.leb n 32)
  || Nat.eqb n 133 || Nat.eqb n 160.

Fixpoint lstrip (s : string) : string :=
  match s with
  | EmptyString => ""
  | String c s' => if isspace c then lstrip s' else s
  end.

Fixpoint rstrip (s : string) : string :=
  match s with
  | EmptyString => ""
  | String c s' =>
      let r := rstrip s' in
      if isspace c && Nat.eqb (String.length r) 0 then "" else String c r
  end.

(** [s.strip()] *)
Definition strip (s : string) : string := rstrip (lstrip s).

Section ProgressStream.
(** [yaml.safe_load] *)
Variable safe_load : string -> result value.

(** The generator [parse_yaml_stream] from a value of [buf] on: the
    documents it yields and, when [yaml.safe_load] raises, the exception
    that ends it. *)
Fixpoint parse_yaml_stream_from (buf : string) (stream : list string)
  : list value * option exn :=
  match stream with
  | [] =>
      if Nat.ltb 0 (String.length buf) then
        match safe_load buf with
        | Ok v => ([v], None)
        | Raise e => ([], Some e)
        end
      else ([], None)
  | line :: stream' =>
      let buf := buf +:+ line in
      if String.eqb (strip line) "..." then
        match safe_load buf with
        | Ok v =>
            let '(vs, e) := parse_yaml_stream_from "" stream' in (v :: vs, e)
        | Raise e => ([], Some e)
        end
      else parse_yaml_stream_from buf stream'
  end.

(** [parse_yaml_stream] *)
Definition parse_yaml_stream (stream : list string) : list value * option exn :=
  parse_yaml_stream_from "" stream.

End ProgressStream.

(** ** xbbs/coordinator/__init__.py: the package registry *)

(** The split of [s] around the last occurrence of the character [sep]. *)
Fixpoint rsplit1 (sep : Ascii.ascii) (s : string) : option (string * string) :=
  match s with
  | EmptyString => None
  | String c s' =>
      match rsplit1 sep s' with
      | Some (h, t) => Some (String c h, t)
      | None => if Ascii.eqb c sep then Some ("", s') else None
      end
  end.

(** [s.rpartition(sep)] for a separator of one character *)
Definition rpartition (sep : Ascii.ascii) (s : string)
  : string * string * string :=
  match rsplit1 sep s with
  | Some (h, t) => (h, String sep "", t)
  | None => ("", "", s)
  end.

(** [s.endswith(suffix)] *)
Definition endswith (s suffix : string) : bool :=
  let n := String.length s in
  let m := String.length suffix in
  Nat.leb m n && String.eqb (substring (n - m) m s) suffix.

Definition dash : Ascii.ascii := Ascii.ascii_of_nat 45.

(** The loop [for pkg in rd: pkgs[pkg] = rd[pkg]["pkgver"].rpartition("-")[2]] *)
Fixpoint registry_versions (rd : list (string * list (string * value)))
  (keys : list string) (pkgs : list (string * string))
  : result (list (string * string)) :=
  match keys with
  | [] => Ok pkgs
  | pkg :: keys' =>
      info ← match dict_get rd pkg with
             | Some info => Ok info
             | None => Raise (KeyError pkg)
             end;
      pkgver ← match dict_get info "pkgver" with
               | Some (VStr s) => Ok s
               | Some _ => Raise (AttributeError "rpartition")
               | None => Raise (KeyError "pkgver")
               end;
      registry_versions rd keys' (dict_set pkgs pkg (rpartition dash pkgver).2)
  end.

(** [load_package_registries].  [listing] is what [pkg_repo_dir.iterdir()]
    gives, [None] when it raises [FileNotFoundError]; [read_xbps_repodata]
    is [xutils.read_xbps_repodata]. *)
Definition load_package_registries (listing : option (list string))
  (read_xbps_repodata : string -> result (list (string * list (string * value))))
  : result (list (string * string)) :=
  let repodata_files :=
    match listing with
    | Some xs => filter (fun x => endswith x "-repodata" = true) xs
    | None => []
    end in
  match repodata_files with
  | _ :: _ :: _ => Raise (RuntimeError "multiarch builds unsupported")
  | [] => Ok []
  | [rdf] =>
      rd ← read_xbps_repodata rdf;
      registry_versions rd rd.*1 []
  end.

(** * Properties *)

(** Runs the monadic steps of a program whose head is known. *)
Ltac prog_run :=
  repeat (progress (unfold lift, raise, modify, with_state, emit, finally,
                      on_exception; unfold mbind, mret, prog_bind, prog_ret,
                      result_bind, result_ret; simpl)).

(** ** Strings as byte sequences *)

Lemma append_cons (c : Ascii.ascii) (s t : string) :
  String c s +:+ t = String c (s +:+ t).
Proof. reflexivity. Qed.

Lemma append_empty_r (s : string) : s +:+ "" = s.
Proof.
  induction s as [|c s IH]; [reflexivity | now rewrite append_cons, IH].
Qed.

Lemma append_assoc (a b c : string) : (a +:+ b) +:+ c = a +:+ (b +:+ c).
Proof.
  induction a as [|x a IH]; [reflexivity | now rewrite !append_cons, IH].
Qed.

(** [b"".join(chunks)] *)
Definition join (chunks : list bytes) : bytes := foldr String.append "" chunks.

Lemma digest_is_not_initial `{Blake2b} (b : bytes) :
  String.eqb (blake2b_digest b) "initial" = false.
Proof.
  destruct (String.eqb_spec (blake2b_digest b) "initial") as [E|]; [|reflexivity].
  pose proof (blake2b_digest_size b) as L. rewrite E in L. discriminate L.
Qed.

(** ** The chunk stream (worker [upload], coordinator [cmd_chunk]) *)

Section ChunkStream.
Context `{Msgpack} `{Blake2b} (env : Env).

(** The intake handling frames in the order of their arrival. *)
Definition intake (frames : list (string * bytes)) (inst : Xbbs.t) : Xbbs.t :=
  foldl (fun inst frame => intake_step env frame.1 frame.2 inst) inst frames.

Definition chunk_message (last_hash data : bytes) : bytes :=
  pack ChunkMessage [("last_hash", VBytes last_hash); ("data", VBytes data)].

Lemma unpack_chunk_message (last_hash data : bytes) :
  _last_hash_validator (VBytes last_hash) = true ->
  unpack ChunkMessage (chunk_message last_hash data)
  = Ok [("last_hash", VBytes last_hash); ("data", VBytes data)].
Proof.
  intros V. unfold unpack, chunk_message, pack. simpl.
  rewrite loads_dumps. simpl.
  unfold validate, property_ok. simpl. simpl in V. rewrite V. reflexivity.
Qed.

(** The first chunk of a stream opens a staging file. *)
Lemma cmd_chunk_initial (data : bytes) (inst : Xbbs.t) :
  let value := chunk_message "initial" data in
  let fd := Xbbs.next_fd inst in
  exists inst',
    cmd_chunk value inst = (inst', Ok tt)
    /\ (exists path,
          Xbbs.table inst' !! blake2b_digest value
          = Some {| Xbbs.fd := fd; Xbbs.path := path;
                    Xbbs.digest_fn := {| fed := data |} |})
    /\ Xbbs.files inst' !! fd = Some data.
Proof.
  intros value fd. unfold cmd_chunk.
  change (module_getattr messages "ChunkMessage") with (Ok ChunkMessage).
  simpl. unfold value at 1. rewrite unpack_chunk_message by reflexivity.
  simpl. eexists. split; [reflexivity|]. simpl. split.
  - eexists. rewrite lookup_insert_eq. reflexivity.
  - rewrite lookup_alter_eq, lookup_insert_eq. reflexivity.
Qed.

(** A later chunk moves the entry of its stream under the digest of the
    chunk message and appends its data. *)
Lemma cmd_chunk_next (last_hash data : bytes) (store : Xbbs.entry)
  (contents : bytes) (inst : Xbbs.t) :
  String.length last_hash = 64 ->
  Xbbs.table inst !! last_hash = Some store ->
  Xbbs.files inst !! Xbbs.fd store = Some contents ->
  let value := chunk_message last_hash data in
  exists inst',
    cmd_chunk value inst = (inst', Ok tt)
    /\ Xbbs.table inst' !! blake2b_digest value
       = Some {| Xbbs.fd := Xbbs.fd store; Xbbs.path := Xbbs.path store;
                 Xbbs.digest_fn := hasher_update (Xbbs.digest_fn store) data |}
    /\ Xbbs.files inst' !! Xbbs.fd store = Some (contents +:+ data).
Proof.
  intros L T F value. unfold cmd_chunk.
  change (module_getattr messages "ChunkMessage") with (Ok ChunkMessage).
  assert (NI : String.eqb last_hash "initial" = false).
  { destruct (String.eqb_spec last_hash "initial") as [E|]; [|reflexivity].
    rewrite E in L. discriminate L. }
  simpl. unfold value at 1. rewrite unpack_chunk_message.
  2:{ simpl. rewrite NI, L. reflexivity. }
  simpl. rewrite NI, T. simpl.
  eexists. split; [reflexivity|]. simpl. split.
  - rewrite lookup_insert_eq. reflexivity.
  - rewrite lookup_alter_eq, F. reflexivity.
Qed.

Lemma intake_chunk (value : bytes) (inst inst' : Xbbs.t) :
  cmd_chunk value inst = (inst', Ok tt) ->
  intake_step env "chunk" value inst = inst'.
Proof. intros E. unfold intake_step. simpl. rewrite E. reflexivity. Qed.

(** The stream from its second chunk on. *)
Lemma chunk_stream_continues (reads : list bytes) :
  Forall (fun c => c <> "") reads ->
  forall (last_hash : bytes) (store : Xbbs.entry) (inst : Xbbs.t),
    String.length last_hash = 64 ->
    Xbbs.table inst !! last_hash = Some store ->
    Xbbs.files inst !! Xbbs.fd store = Some (fed (Xbbs.digest_fn store)) ->
    let '(frames, last) := send_chunks last_hash reads in
    exists store',
      Xbbs.table (intake frames inst) !! last = Some store'
      /\ Xbbs.fd store' = Xbbs.fd store
      /\ Xbbs.path store' = Xbbs.path store
      /\ fed (Xbbs.digest_fn store') = fed (Xbbs.digest_fn store) +:+ join reads
      /\ Xbbs.files (intake frames inst) !! Xbbs.fd store'
         = Some (fed (Xbbs.digest_fn store')).
Proof.
  induction 1 as [|data reads Hne _ IH]; intros last_hash store inst L T F.
  - simpl. exists store. rewrite append_empty_r. auto.
  - simpl. destruct data as [|c data]; [congruence|]. simpl.
    destruct (cmd_chunk_next last_hash (String c data) store _ inst L T F)
      as (inst' & E & T' & F').
    fold (chunk_message last_hash (String c data)).
    set (value := chunk_message last_hash (String c data)) in *.
    specialize (IH (blake2b_digest value) _ inst'
                  (blake2b_digest_size value) T' F').
    destruct (send_chunks (blake2b_digest value) reads) as [frames last].
    destruct IH as (store' & T2 & Efd & Epath & Efed & F2).
    exists store'. simpl. rewrite (intake_chunk _ _ _ E).
    repeat split; auto. rewrite Efed. simpl. now rewrite append_assoc.
Qed.

End ChunkStream.

(** ** Executable instances of the two libraries

    The properties above and below hold for every implementation of
    [Msgpack] and [Blake2b].  To run the model on concrete inputs, here is
    one of each: a codec that writes a value as the binary digits of its
    code as a tree, and a digest that keeps the first 64 bytes of its
    input, padded.  They stand in for the real libraries only where a
    statement is evaluated. *)

Definition tree := gen_tree (Z + string).

Fixpoint to_tree (v : value) : tree :=
  match v with
  | VNone => GenNode 0 []
  | VBool true => GenNode 1 []
  | VBool false => GenNode 2 []
  | VNum (Int z) => GenNode 3 [GenLeaf (inl z)]
  | VNum (Float m e) => GenNode 4 [GenLeaf (inl m); GenLeaf (inl e)]
  | VStr s => GenNode 5 [GenLeaf (inr s)]
  | VBytes s => GenNode 6 [GenLeaf (inr s)]
  | VList l => GenNode 7 (map to_tree l)
  | VDict d =>
      GenNode 8 (map (fun kv => let '(k, v) := kv in
                                GenNode 9 [GenLeaf (inr k); to_tree v]) d)
  end.

Definition values_of_trees (of_tree : tree -> option value)
  : list tree -> option (list value) :=
  fix go ts :=
    match ts with
    | [] => Some []
    | t :: ts' =>
        match of_tree t, go ts' with
        | Some v, Some vs => Some (v :: vs)
        | _, _ => None
        end
    end.

Definition items_of_trees (of_tree : tree -> option value)
  : list tree -> option (list (string * value)) :=
  fix go ts :=
    match ts with
    | [] => Some []
    | GenNode 9 [GenLeaf (inr k); t] :: ts' =>
        match of_tree t, go ts' with
        | Some v, Some vs => Some ((k, v) :: vs)
        | _, _ => None
        end
    | _ => None
    end.

Fixpoint of_tree (t : tree) : option value :=
  match t with
  | GenNode 0 [] => Some VNone
  | GenNode 1 [] => Some (VBool true)
  | GenNode 2 [] => Some (VBool false)
  | GenNode 3 [GenLeaf (inl z)] => Some (VNum (Int z))
  | GenNode 4 [GenLeaf (inl m); GenLeaf (inl e)] => Some (VNum (Float m e))
  | GenNode 5 [GenLeaf (inr s)] => Some (VStr s)
  | GenNode 6 [GenLeaf (inr s)] => Some (VBytes s)
  | GenNode 7 ts => VList <$> values_of_trees of_tree ts
  | GenNode 8 ts => VDict <$> items_of_trees of_tree ts
  | _ => None
  end.

Lemma of_tree_to_tree : forall v, of_tree (to_tree v) = Some v.
Proof.
  fix IH 1. intros v. destruct v as [| b | n | s | s | l | d];
    [reflexivity | destruct b; reflexivity | destruct n; reflexivity
    | reflexivity | reflexivity | | ].
  - simpl. replace (values_of_trees of_tree (map to_tree l)) with (Some l);
      [reflexivity|].
    symmetry. induction l as [|v l IHl]; [reflexivity|].
    simpl. rewrite IH, IHl. reflexivity.
  - simpl.
    replace (items_of_trees of_tree _) with (Some d); [reflexivity|].
    symmetry. induction d as [|[k v] d IHd]; [reflexivity|].
    simpl. rewrite IH, IHd. reflexivity.
Qed.

Fixpoint positive_to_bytes (p : positive) : bytes :=
  match p with
  | xH => ""
  | xO p => String (Ascii.ascii_of_nat 48) (positive_to_bytes p)
  | xI p => String (Ascii.ascii_of_nat 49) (positive_to_bytes p)
  end.

Fixpoint bytes_to_positive (b : bytes) : option positive :=
  match b with
  | EmptyString => Some xH
  | String c b' =>
      match bytes_to_positive b' with
      | Some p =>
          if Ascii.eqb c (Ascii.ascii_of_nat 48) then Some (xO p)
          else if Ascii.eqb c (Ascii.ascii_of_nat 49) then Some (xI p)
          else None
      | None => None
      end
  end.

Lemma bytes_to_positive_to_bytes (p : positive) :
  bytes_to_positive (positive_to_bytes p) = Some p.
Proof. induction p as [p IH|p IH|]; simpl; rewrite ?IH; reflexivity. Qed.

Definition reference_dumps (v : value) : bytes :=
  positive_to_bytes (encode (to_tree v)).

Definition reference_loads (b : bytes) : option value :=
  match bytes_to_positive b with
  | Some p =>
      match decode p with
      | Some t => of_tree t
      | None => None
      end
  | None => None
  end.

Lemma reference_loads_dumps (v : value) :
  reference_loads (reference_dumps v) = Some v.
Proof.
  unfold reference_loads, reference_dumps.
  rewrite bytes_to_positive_to_bytes, decode_encode. apply of_tree_to_tree.
Qed.

Definition reference_msgpack : Msgpack :=
  {| dumps := reference_dumps; loads := reference_loads;
     loads_dumps := reference_loads_dumps |}.

Fixpoint pad (n : nat) (b : bytes) : bytes :=
  match n with
  | O => ""
  | S n' =>
      match b with
      | EmptyString => String (Ascii.ascii_of_nat 0) (pad n' "")
      | String c b' => String c (pad n' b')
      end
  end.

Lemma pad_length (n : nat) (b : bytes) : String.length (pad n b) = n.
Proof.
  revert b. induction n as [|n IH]; intros b; [reflexivity|].
  destruct b; simpl; now rewrite IH.
Qed.

Definition reference_blake2b : Blake2b :=
  {| blake2b_digest := pad 64; blake2b_digest_size := pad_length 64 |}.

Definition reference_env : Env :=
  {| command_ok := fun _ => true;
     command_output := fun _ => "{}";
     file_ok := fun _ => true;
     path_exists := fun _ => false;
     read_file := fun _ => "";
     json_loads := fun _ => Ok (VDict []);
     graph_of_json := fun _ => Ok [];
     plist_signature_by := fun _ => Ok "builder";
     version_information := fun _ => Ok "{}";
     load := VList [];
     pid := 1%Z;
     hostname := "coordinator";
     exception_text := fun _ => "Exception: " |}.

Definition example_inst : Xbbs.t :=
  {| Xbbs.project_base := "/srv/xbbs";
     Xbbs.collection_dir := "/srv/xbbs/_coldir";
     Xbbs.tmp_dir := "/srv/xbbs/_tmp";
     Xbbs.build_root := "/var/lib/xbbs/worker";
     Xbbs.intake_address := "tcp://coordinator:16999";
     Xbbs.projects := ∅;
     Xbbs.project_greenlets := [];
     Xbbs.outgoing_job_queue := [];
     Xbbs.table := ∅;
     Xbbs.files := ∅;
     Xbbs.next_fd := 3;
     Xbbs.trace := [] |}.

Lemma send_chunks_length `{Msgpack} `{Blake2b} (reads : list bytes) :
  Forall (fun c => c <> "") reads ->
  forall last_hash,
    length (send_chunks last_hash reads).1 = length reads.
Proof.
  induction 1 as [|data reads Hne _ IH]; intros last_hash; [reflexivity|].
  simpl. destruct data as [|c data]; [congruence|]. simpl.
  specialize (IH (blake2b_digest
    (pack ChunkMessage [("last_hash", VBytes last_hash);
                        ("data", VBytes (String c data))]))).
  destruct (send_chunks _ reads) as [frames last]. simpl in *. now rewrite IH.
Qed.

(** C2.  A byte sequence [S] read in non-empty chunks [c1 ... cn] by
    [upload] (one [ChunkMessage] per chunk, [last_hash] being ["initial"]
    first and the BLAKE2b digest of the previous packed chunk message
    after) and handled chunk by chunk by [cmd_chunk]: one frame is sent per
    chunk, and afterwards the table has, under the last [last_hash] of the
    sender, an entry whose staging file holds [S] and whose hasher has the
    digest [BLAKE2b(S)]. *)
Theorem chunk_stream_round_trip `{Msgpack} `{Blake2b} (env : Env)
  (reads : list bytes) (inst : Xbbs.t) :
  reads <> [] ->
  Forall (fun c => c <> "") reads ->
  let sent := send_chunks "initial" reads in
  let inst' := intake env sent.1 inst in
  length sent.1 = length reads
  /\ exists store,
       Xbbs.table inst' !! sent.2 = Some store
       /\ Xbbs.files inst' !! Xbbs.fd store = Some (join reads)
       /\ hasher_digest (Xbbs.digest_fn store) = blake2b_digest (join reads).
Proof.
  intros Hne Hall sent inst'. split; [now apply send_chunks_length|].
  subst sent inst'. destruct Hall as [|data reads Hd Hall]; [congruence|].
  simpl. destruct data as [|c data]; [congruence|]. simpl.
  fold (chunk_message "initial" (String c data)).
  set (value := chunk_message "initial" (String c data)).
  destruct (cmd_chunk_initial (String c data) inst)
    as (inst1 & E & (path & T) & F).
  fold value in E, T.
  pose proof (chunk_stream_continues env reads Hall (blake2b_digest value)
                _ inst1 (blake2b_digest_size value) T F) as K.
  destruct (send_chunks (blake2b_digest value) reads) as [frames last].
  destruct K as (store' & T' & Efd & _ & Efed & F').
  exists store'. simpl. rewrite (intake_chunk env _ _ _ E).
  unfold hasher_digest. rewrite F', Efed. simpl. auto.
Qed.

Lemma chunk_stream_round_trip_witness :
  let reads := ["ab"; "cd"; "ef"] in
  let sent := @send_chunks reference_msgpack reference_blake2b "initial" reads in
  let inst' := @intake reference_msgpack reference_blake2b reference_env
                 sent.1 example_inst in
  length sent.1 = 3
  /\ exists store,
       Xbbs.table inst' !! sent.2 = Some store
       /\ Xbbs.files inst' !! Xbbs.fd store = Some "abcdef"
       /\ @hasher_digest reference_blake2b (Xbbs.digest_fn store)
          = @blake2b_digest reference_blake2b "abcdef".
Proof.
  apply (@chunk_stream_round_trip reference_msgpack reference_blake2b
           reference_env ["ab"; "cd"; "ef"] example_inst).
  - discriminate.
  - repeat constructor; discriminate.
Defined.

(** ** Artifact messages of empty files *)

(** What the validator of [ArtifactMessage] accepts as [last_hash]. *)
Lemma last_hash_accepted (v : value) :
  vtype_ok (TNullable (TCond _is_blake2b_digest)) v = true
  <-> v = VNone \/ exists b, v = VBytes b /\ String.length b = 64.
Proof.
  split.
  - destruct v; simpl; try discriminate; auto.
    intros E. right. eexists. split; [reflexivity|]. now apply Nat.eqb_eq.
  - intros [-> | (b & -> & L)]; [reflexivity|]. simpl. now apply Nat.eqb_eq.
Qed.

(** The artifact message [upload] sends for an empty file. *)
Definition empty_file_message (project kind name fpath : string) : instance :=
  [("project", VStr project); ("artifact_type", VStr kind);
   ("artifact", VStr name); ("success", VBool true);
   ("filename", VStr (basename fpath)); ("last_hash", VBytes "initial")].

Lemma cmd_artifact_rejects_initial `{Msgpack} (env : Env)
  (project kind name fpath : string) (inst : Xbbs.t) :
  exists what,
    cmd_artifact env
      (pack ArtifactMessage (empty_file_message project kind name fpath)) inst
    = (inst, Raise (ValidationError what)).
Proof.
  unfold cmd_artifact, empty_file_message.
  change (module_getattr messages "ArtifactMessage") with (Ok ArtifactMessage).
  unfold unpack, pack. prog_run. rewrite loads_dumps. prog_run.
  unfold validate, property_ok. simpl.
  destruct (String.eqb kind "tool" || (String.eqb kind "package"
              || (String.eqb kind "file" || false))); prog_run;
    eexists; reflexivity.
Qed.

(** C10.  [upload] of a file of length zero sends no chunk and one
    [ArtifactMessage] whose [last_hash] is [b"initial"]; the validator of
    [ArtifactMessage] takes a [last_hash] only when it is [None] or 64
    bytes long (or when the key is absent); so [cmd_artifact] raises a
    validation error on that message and leaves the coordinator as it was:
    nothing is deposited. *)
Theorem empty_file_artifact_is_rejected `{Msgpack} `{Blake2b} (env : Env)
  (project kind name fpath : string) (inst : Xbbs.t) :
  let msg := empty_file_message project kind name fpath in
  upload project kind name fpath (Some [])
  = [("artifact", pack ArtifactMessage msg)]
  /\ dict_get msg "last_hash" = Some (VBytes "initial")
  /\ (forall v, vtype_ok (TNullable (TCond _is_blake2b_digest)) v = true
                <-> v = VNone \/ exists b, v = VBytes b /\ String.length b = 64)
  /\ In (optional "last_hash" (TNullable (TCond _is_blake2b_digest)))
       (cls_validator ArtifactMessage)
  /\ exists what,
       cmd_artifact env (pack ArtifactMessage msg) inst
       = (inst, Raise (ValidationError what)).
Proof.
  intros msg. split; [reflexivity|]. split; [reflexivity|].
  split; [apply last_hash_accepted|]. split; [simpl; tauto|].
  apply cmd_artifact_rejects_initial.
Qed.

(** The intake loop logs the error and goes on. *)
Lemma empty_file_artifact_is_logged `{Msgpack} `{Blake2b} (env : Env)
  (project kind name fpath : string) (inst : Xbbs.t) :
  intake env (upload project kind name fpath (Some [])) inst
  = Xbbs.emit (Logged "intake pipe error, continuing") inst.
Proof.
  destruct (cmd_artifact_rejects_initial env project kind name fpath inst)
    as (what & E).
  unfold intake, intake_step. simpl. unfold empty_file_message in E.
  unfold pack in *. simpl in *. rewrite E. reflexivity.
Qed.

(** ** Reads and writes through [inst.projects[name].current] *)

Lemma current_alter_current (f : Build.t -> Build.t) (name : string)
  (inst : Xbbs.t) :
  Xbbs.current name (Xbbs.alter_current f name inst)
  = f <$> Xbbs.current name inst.
Proof.
  unfold Xbbs.current, Xbbs.alter_current. simpl. rewrite lookup_alter_eq.
  destruct (Xbbs.projects inst !! name) as [p|]; [|reflexivity].
  simpl. destruct (Project.current p); reflexivity.
Qed.

Lemma current_set_current (c : option Build.t) (name : string)
  (inst : Xbbs.t) :
  is_Some (Xbbs.projects inst !! name) ->
  Xbbs.current name (Xbbs.set_current c name inst) = c.
Proof.
  intros [p E]. unfold Xbbs.current, Xbbs.set_current. simpl.
  rewrite lookup_alter_eq, E. reflexivity.
Qed.

Lemma current_emit (e : event) (name : string) (inst : Xbbs.t) :
  Xbbs.current name (Xbbs.emit e inst) = Xbbs.current name inst.
Proof. reflexivity. Qed.

Lemma current_project (name : string) (inst : Xbbs.t) (proj : Project.t)
  (run : Build.t) :
  Xbbs.projects inst !! name = Some proj ->
  Project.current proj = Some run ->
  Xbbs.current name inst = Some run.
Proof. intros E C. unfold Xbbs.current. rewrite E. exact C. Qed.

(** ** Job completion ([cmd_job]) *)

Lemma dict_get_complete_job (jobs : list (string * Job.t)) (name : string)
  (code time : number) (j : Job.t) :
  dict_get jobs name = Some j ->
  dict_get (complete_job jobs name code time) name
  = Some (Job.set_completion code time
            (Job.set_status (completion_status code j) j)).
Proof.
  induction jobs as [|[k j'] jobs IH]; simpl; [discriminate|].
  destruct (String.eqb k name) eqn:E; simpl; rewrite E; [congruence | exact IH].
Qed.

Lemma number_is_zero_int (z : Z) : number_is_zero (Int z) = true <-> z = 0%Z.
Proof. simpl. apply Z.eqb_eq. Qed.

(** C8.  A [JobCompletionMessage] for a job of the current build of its
    project: the job becomes [SUCCESS] exactly when [exit_code == 0];
    otherwise it becomes [IGNORED_FAILURE] exactly when it is unstable, and
    [FAILED] if it is not; [exit_code] and [run_time] are those of the
    message. *)
Theorem cmd_job_sets_status `{Msgpack} `{Blake2b} (env : Env)
  (project job : string) (exit_code run_time : number) (inst : Xbbs.t)
  (proj : Project.t) (run : Build.t) (j : Job.t) :
  Xbbs.projects inst !! project = Some proj ->
  Project.current proj = Some run ->
  dict_get (Build.jobs run) job = Some j ->
  let value :=
    pack JobCompletionMessage
      [("project", VStr project); ("job", VStr job);
       ("exit_code", VNum exit_code); ("run_time", VNum run_time)] in
  exists inst' run' j',
    cmd_job value inst = (inst', Ok tt)
    /\ Xbbs.current project inst' = Some run'
    /\ dict_get (Build.jobs run') job = Some j'
    /\ (Job.status j' = JobStatus.SUCCESS <-> number_is_zero exit_code = true)
    /\ (number_is_zero exit_code = false ->
        (Job.status j' = JobStatus.IGNORED_FAILURE <-> Job.unstable j = true)
        /\ (Job.unstable j = false -> Job.status j' = JobStatus.FAILED))
    /\ Job.exit_code j' = Some exit_code
    /\ Job.run_time j' = Some run_time.
Proof.
  intros P C J value. subst value. unfold cmd_job.
  change (module_getattr messages "JobCompletionMessage")
    with (Ok JobCompletionMessage).
  unfold unpack, pack. prog_run. rewrite loads_dumps. prog_run.
  rewrite P, C. unfold dict_mem. rewrite J. prog_run.
  unfold store_status_if_running, wake_solver. prog_run.
  rewrite current_emit, current_alter_current, (current_project _ _ _ _ P C).
  simpl.
  destruct (BuildState.terminating (Build.state run)); prog_run;
    (do 3 eexists; split; [reflexivity|]);
    rewrite current_alter_current, ?current_emit, current_alter_current,
      (current_project _ _ _ _ P C);
    (split; [reflexivity|]).
  all: simpl; unfold Build.jobs; simpl;
    rewrite (dict_get_complete_job _ _ _ _ _ J); (split; [reflexivity|]);
    simpl; unfold completion_status;
    destruct (number_is_zero exit_code), (Job.unstable j);
    repeat split; intros; try congruence; try discriminate.
Qed.

(** ** Artifact messages without a staging file ([cmd_artifact]) *)

Lemma aset_of_kinds (kind : string) (run : Build.t) (aset : gmap string nat) :
  aset_of kind run = Ok aset ->
  vtype_ok (TEnum ["tool"; "package"; "file"]) (VStr kind) = true.
Proof.
  unfold aset_of. simpl.
  destruct (String.eqb kind "tool"), (String.eqb kind "file"),
    (String.eqb kind "package"); simpl; congruence.
Qed.

Lemma is_received_alter (f : Artifact.t -> Artifact.t) (r r' : nat)
  (b : Build.t) :
  is_received (Build.objects (Build.alter_object f r b)) r'
  = if decide (r = r')
    then match Build.objects b !! r with
         | Some a => Artifact.received (f a)
         | None => false
         end
    else is_received (Build.objects b) r'.
Proof.
  unfold is_received, Build.objects, Build.alter_object. simpl.
  rewrite list_lookup_alter. destruct (decide (r = r')); [|reflexivity].
  destruct (Job.objects (Build.graph b) !! r); reflexivity.
Qed.

Lemma is_failed_alter (f : Artifact.t -> Artifact.t) (r r' : nat)
  (b : Build.t) :
  is_failed (Build.objects (Build.alter_object f r b)) r'
  = if decide (r = r')
    then match Build.objects b !! r with
         | Some a => Artifact.failed (f a)
         | None => false
         end
    else is_failed (Build.objects b) r'.
Proof.
  unfold is_failed, Build.objects, Build.alter_object. simpl.
  rewrite list_lookup_alter. destruct (decide (r = r')); [|reflexivity].
  destruct (Job.objects (Build.graph b) !! r); reflexivity.
Qed.

Lemma objects_set_artifact_received (v : bool) (b : Build.t) :
  Build.objects (Build.set_artifact_received v b) = Build.objects b.
Proof. reflexivity. Qed.

Lemma lookup_alter_object (f : Artifact.t -> Artifact.t) (r : nat)
  (b : Build.t) :
  Build.objects (Build.alter_object f r b) !! r = f <$> Build.objects b !! r.
Proof. apply list_lookup_alter_eq. Qed.

(** C4, as the code has it.  An [ArtifactMessage] with [success=true]
    that names an artifact of the current build of its project, and whose
    [last_hash] is the key of no entry of the chunk table: [cmd_artifact]
    marks the artifact received and failed, sets [artifact_received], and
    raises the [KeyError] of the lookup (which the intake loop logs); the
    chunk table is as before. *)
Theorem artifact_without_entry_is_failed `{Msgpack} `{Blake2b} (env : Env)
  (project kind name filename last_hash : string) (inst : Xbbs.t)
  (proj : Project.t) (run : Build.t) (aset : gmap string nat) (r : nat)
  (a : Artifact.t) :
  Xbbs.projects inst !! project = Some proj ->
  Project.current proj = Some run ->
  aset_of kind run = Ok aset ->
  aset !! name = Some r ->
  Build.objects run !! r = Some a ->
  String.length last_hash = 64 ->
  Xbbs.table inst !! last_hash = None ->
  let value :=
    pack ArtifactMessage
      [("project", VStr project); ("artifact_type", VStr kind);
       ("artifact", VStr name); ("success", VBool true);
       ("filename", VStr filename); ("last_hash", VBytes last_hash)] in
  exists inst' run',
    cmd_artifact env value inst = (inst', Raise (KeyError last_hash))
    /\ Xbbs.current project inst' = Some run'
    /\ is_received (Build.objects run') r = true
    /\ is_failed (Build.objects run') r = true
    /\ Build.artifact_received run' = true
    /\ Xbbs.table inst' = Xbbs.table inst.
Proof.
  intros P C A N O L T value. subst value. unfold cmd_artifact.
  change (module_getattr messages "ArtifactMessage") with (Ok ArtifactMessage).
  unfold unpack, pack. prog_run. rewrite loads_dumps. prog_run.
  unfold validate, property_ok. simpl.
  pose proof (aset_of_kinds _ _ _ A) as K. simpl in K. rewrite K, L. prog_run.
  rewrite P, C. unfold artifact_body. prog_run. rewrite A. prog_run.
  rewrite N. unfold receive_artifact, write_artifact, wake_solver, claim_entry.
  prog_run. rewrite T. prog_run.
  unfold store_status_if_running. prog_run.
  rewrite !current_alter_current, !current_emit,
    (current_project _ _ _ _ P C). simpl.
  destruct (BuildState.terminating (Build.state run)); prog_run;
    do 2 eexists; (split; [reflexivity|]);
    rewrite ?current_emit, !current_alter_current, !current_emit,
      (current_project _ _ _ _ P C); simpl;
    (split; [reflexivity|]);
    rewrite objects_set_artifact_received, !is_received_alter,
      !is_failed_alter, !lookup_alter_object, O;
    simpl; destruct (decide (r = r)); try congruence; auto.
Qed.

(** ** A coordinator with one project that is building *)

Definition example_artifact : Artifact.t :=
  {| Artifact.kind := Kind.PACKAGE; Artifact.name := "p";
     Artifact.version := Some "1.0";
     Artifact.architecture := ArchVal (Some "x86_64");
     Artifact.received := false; Artifact.failed := false |}.

Definition example_job : Job.t :=
  {| Job.unstable := false; Job.deps := []; Job.products := [0];
     Job.capabilities := ∅; Job.status := JobStatus.RUNNING;
     Job.exit_code := None; Job.run_time := None |}.

Definition example_build : Build.t :=
  {| Build.name := "demo";
     Build.repository := "https://example.org/demo.git";
     Build.build_directory := "/srv/xbbs/demo/20260101_000000";
     Build.incremental := false;
     Build.revision := Some "abc";
     Build.state := BuildState.RUNNING;
     Build.graph := {| Job.objects := [example_artifact];
                       Job.jobs := [("package:p", example_job)] |};
     Build.success := true;
     Build.ts := "20260101_000000";
     Build.tool_set := ∅;
     Build.file_set := ∅;
     Build.pkg_set := {["p" := 0]};
     Build.commits_object := VDict [];
     Build.artifact_received := false |}.

Definition example_project (current : option Build.t) : Project.t :=
  {| Project.name := "demo";
     Project.git := "https://example.org/demo.git";
     Project.description := "";
     Project.classes := [];
     Project.packages := "https://example.org/packages";
     Project.tools := "https://example.org/tools";
     Project.base := "/srv/xbbs/demo";
     Project.distfile_path := "xbbs/";
     Project.incremental := false;
     Project.fingerprint := None;
     Project.current := current;
     Project.mirror_root := None;
     Project.default_branch := "master" |}.

Definition example_coordinator (project : Project.t) : Xbbs.t :=
  Xbbs.set_projects {[Project.name project := project]} example_inst.

Definition example_running : Xbbs.t :=
  example_coordinator (example_project (Some example_build)).

Lemma cmd_job_sets_status_witness :
  let value :=
    @pack reference_msgpack JobCompletionMessage
      [("project", VStr "demo"); ("job", VStr "package:p");
       ("exit_code", VNum (Int 1)); ("run_time", VNum (Float 3 0))] in
  exists inst' run' j',
    @cmd_job reference_msgpack value example_running = (inst', Ok tt)
    /\ Xbbs.current "demo" inst' = Some run'
    /\ dict_get (Build.jobs run') "package:p" = Some j'
    /\ (Job.status j' = JobStatus.SUCCESS
        <-> number_is_zero (Int 1) = true)
    /\ (number_is_zero (Int 1) = false ->
        (Job.status j' = JobStatus.IGNORED_FAILURE
         <-> Job.unstable example_job = true)
        /\ (Job.unstable example_job = false
            -> Job.status j' = JobStatus.FAILED))
    /\ Job.exit_code j' = Some (Int 1)
    /\ Job.run_time j' = Some (Float 3 0).
Proof.
  apply (@cmd_job_sets_status reference_msgpack reference_blake2b
           reference_env "demo" "package:p" (Int 1) (Float 3 0)
           example_running (example_project (Some example_build))
           example_build example_job); reflexivity.
Defined.

(** C4, as the spec has it, fails: the artifact ["p"] of the running
    build is neither received nor failed, the table is empty, and after an
    [ArtifactMessage] with [success=true] for it the artifact is received
    and failed. *)
Lemma artifact_without_entry_counterexample :
  let last_hash := pad 64 "no such stream" in
  let value :=
    @pack reference_msgpack ArtifactMessage
      [("project", VStr "demo"); ("artifact_type", VStr "package");
       ("artifact", VStr "p"); ("success", VBool true);
       ("filename", VStr "p-1.0.x86_64.xbps");
       ("last_hash", VBytes last_hash)] in
  let inst' :=
    @intake reference_msgpack reference_blake2b reference_env
      [("artifact", value)] example_running in
  Xbbs.table example_running !! last_hash = None
  /\ Build.pkg_set example_build !! "p" = Some 0
  /\ Build.objects example_build !! 0 = Some example_artifact
  /\ Artifact.received example_artifact = false
  /\ Artifact.failed example_artifact = false
  /\ (Build.objects <$> Xbbs.current "demo" inst')
     = Some [Artifact.set_failed true
               (Artifact.set_received true example_artifact)].
Proof. vm_compute. repeat split; reflexivity. Qed.

Lemma artifact_without_entry_is_failed_witness :
  let last_hash := pad 64 "no such stream" in
  let value :=
    @pack reference_msgpack ArtifactMessage
      [("project", VStr "demo"); ("artifact_type", VStr "package");
       ("artifact", VStr "p"); ("success", VBool true);
       ("filename", VStr "p-1.0.x86_64.xbps");
       ("last_hash", VBytes last_hash)] in
  exists inst' run',
    @cmd_artifact reference_msgpack reference_env value example_running
    = (inst', Raise (KeyError last_hash))
    /\ Xbbs.current "demo" inst' = Some run'
    /\ is_received (Build.objects run') 0 = true
    /\ is_failed (Build.objects run') 0 = true
    /\ Build.artifact_received run' = true
    /\ Xbbs.table inst' = Xbbs.table example_running.
Proof.
  apply (@artifact_without_entry_is_failed reference_msgpack
           reference_blake2b reference_env "demo" "package" "p"
           "p-1.0.x86_64.xbps" (pad 64 "no such stream") example_running
           (example_project (Some example_build)) example_build
           (Build.pkg_set example_build) 0 example_artifact);
    reflexivity.
Defined.

(** ** Graph construction ([Build.set_graph]) *)

(** The tool and package descriptors of a job, in the order in which
    [set_graph] hands them to [_handle_artifact]. *)
Definition job_descriptors (info : Info.t) : list (Kind.t * Info.descriptor) :=
  (pair Kind.TOOL <$> Info.needed_tools info)
  ++ (pair Kind.PACKAGE <$> Info.needed_pkgs info)
  ++ (pair Kind.TOOL <$> Info.products_tools info)
  ++ (pair Kind.PACKAGE <$> Info.products_pkgs info).

(** The descriptors [set_graph] ingests: those of the jobs in graph
    order, up to the first job without ["capabilities"], on which the loop
    stops with a [KeyError]. *)
Fixpoint ingested (graph : list (string * Info.t))
  : list (Kind.t * Info.descriptor) :=
  match graph with
  | [] => []
  | (_, info) :: graph' =>
      match Info.capabilities info with
      | Some _ => job_descriptors info ++ ingested graph'
      | None => []
      end
  end.

(** The architecture of the tool or package of a kind and name among
    descriptors: that of its first descriptor, which is the one the
    [Artifact] is made from. *)
Fixpoint arch_of (ds : list (Kind.t * Info.descriptor)) (kind : Kind.t)
  (name : string) : option string :=
  match ds with
  | [] => None
  | (k, x) :: ds' =>
      if Kind.eqb k kind && String.eqb (Info.name x) name
      then Some (Info.architecture x)
      else arch_of ds' kind name
  end.

(** A tool or package with a concrete architecture. *)
Definition has_arch (ds : list (Kind.t * Info.descriptor)) (s : string)
  : Prop :=
  s <> "noarch" /\ exists kind name, arch_of ds kind name = Some s.

(** Two tools or packages with distinct concrete architectures. *)
Definition second_arch (ds : list (Kind.t * Info.descriptor)) : Prop :=
  exists s1 s2, has_arch ds s1 /\ has_arch ds s2 /\ s1 <> s2.

Lemma arch_of_app (ds ds' : list (Kind.t * Info.descriptor)) (kind : Kind.t)
  (name : string) :
  arch_of (ds ++ ds') kind name
  = match arch_of ds kind name with
    | Some s => Some s
    | None => arch_of ds' kind name
    end.
Proof.
  induction ds as [|[k x] ds IH]; simpl; [reflexivity|].
  destruct (Kind.eqb k kind && String.eqb (Info.name x) name); auto.
Qed.

Lemma has_arch_app (ds ds' : list (Kind.t * Info.descriptor)) (s : string) :
  has_arch ds s -> has_arch (ds ++ ds') s.
Proof.
  intros (N & k & n & E). split; [exact N|]. exists k, n.
  rewrite arch_of_app, E. reflexivity.
Qed.

Lemma second_arch_app (ds ds' : list (Kind.t * Info.descriptor)) :
  second_arch ds -> second_arch (ds ++ ds').
Proof.
  intros (s1 & s2 & A1 & A2 & N). exists s1, s2.
  auto using has_arch_app.
Qed.

Lemma Kind_eqb_eq (a b : Kind.t) : Kind.eqb a b = true <-> a = b.
Proof. destruct a, b; simpl; split; congruence. Qed.

Lemma arch_of_snoc (ds : list (Kind.t * Info.descriptor)) (k : Kind.t)
  (x : Info.descriptor) (kind : Kind.t) (name : string) :
  arch_of (ds ++ [(k, x)]) kind name
  = match arch_of ds kind name with
    | Some s => Some s
    | None =>
        if Kind.eqb k kind && String.eqb (Info.name x) name
        then Some (Info.architecture x) else None
    end.
Proof. rewrite arch_of_app. reflexivity. Qed.

(** What the loop of [set_graph] maintains, [ds] being the descriptors
    handled so far: the tool and package sets hold one [Artifact] per kind
    and name among [ds], with the architecture of its first descriptor;
    [arch_set] holds the concrete architectures among them; no two of
    these differ. *)
Record ingest_inv (st : Build.ingest) (ds : list (Kind.t * Info.descriptor))
  : Prop := {
  inv_sets : forall kind name, kind <> Kind.FILE ->
    match Build.aset kind (Build.build st) !! name with
    | Some r =>
        exists a s,
          Build.objects (Build.build st) !! r = Some a
          /\ Artifact.architecture a = ArchVal (Some s)
          /\ arch_of ds kind name = Some s
    | None => arch_of ds kind name = None
    end;
  inv_arch_set : forall o,
    o ∈ Build.arch_set st <-> exists s, o = Some s /\ has_arch ds s;
  inv_single : ~ second_arch ds;
  inv_kinds : forall k x, (k, x) ∈ ds -> k <> Kind.FILE
}.

Lemma key_eqb_refl (kind : Kind.t) (name : string) :
  Kind.eqb kind kind && String.eqb name name = true.
Proof. rewrite String.eqb_refl. destruct kind; reflexivity. Qed.

Lemma key_eqb_eq (k kind : Kind.t) (n name : string) :
  Kind.eqb k kind && String.eqb n name = true <-> k = kind /\ n = name.
Proof.
  rewrite andb_true_iff, Kind_eqb_eq, String.eqb_eq. reflexivity.
Qed.

Lemma arch_of_snoc_known (ds : list (Kind.t * Info.descriptor))
  (kind : Kind.t) (x : Info.descriptor) (s0 : string) :
  arch_of ds kind (Info.name x) = Some s0 ->
  forall k n, arch_of (ds ++ [(kind, x)]) k n = arch_of ds k n.
Proof.
  intros E k n. rewrite arch_of_snoc.
  destruct (arch_of ds k n) eqn:E'; [reflexivity|].
  destruct (Kind.eqb kind k && String.eqb (Info.name x) n) eqn:K;
    [|reflexivity].
  apply key_eqb_eq in K as [<- <-]. congruence.
Qed.

Lemma has_arch_snoc_known (ds : list (Kind.t * Info.descriptor))
  (kind : Kind.t) (x : Info.descriptor) (s0 s : string) :
  arch_of ds kind (Info.name x) = Some s0 ->
  has_arch (ds ++ [(kind, x)]) s <-> has_arch ds s.
Proof.
  intros E. unfold has_arch.
  split; intros (N & k & n & A); (split; [exact N|]); exists k, n.
  - now rewrite (arch_of_snoc_known _ _ _ _ E) in A.
  - now rewrite (arch_of_snoc_known _ _ _ _ E).
Qed.

Lemma has_arch_snoc_new (ds : list (Kind.t * Info.descriptor))
  (kind : Kind.t) (x : Info.descriptor) (s : string) :
  arch_of ds kind (Info.name x) = None ->
  has_arch (ds ++ [(kind, x)]) s
  <-> has_arch ds s \/ (s = Info.architecture x /\ s <> "noarch").
Proof.
  intros E. split.
  - intros (N & k & n & A). rewrite arch_of_snoc in A.
    destruct (arch_of ds k n) eqn:E'.
    + left. split; [exact N|]. exists k, n. congruence.
    + destruct (Kind.eqb kind k && String.eqb (Info.name x) n);
        [|discriminate]. right. split; congruence.
  - intros [A | [-> N]]; [now apply has_arch_app|].
    split; [exact N|]. exists kind, (Info.name x).
    rewrite arch_of_snoc, E, key_eqb_refl. reflexivity.
Qed.

Lemma aset_set_aset (kind k : Kind.t) (m : gmap string nat) (b : Build.t) :
  Build.aset k (Build.set_aset kind m b)
  = if Kind.eqb kind k then m else Build.aset k b.
Proof. destruct kind, k; reflexivity. Qed.

Lemma objects_set_aset (kind : Kind.t) (m : gmap string nat) (b : Build.t) :
  Build.objects (Build.set_aset kind m b) = Build.objects b.
Proof. destruct kind; reflexivity. Qed.

Lemma objects_set_graph_field (g : Job.graph) (b : Build.t) :
  Build.objects (Build.set_graph_field g b) = Job.objects g.
Proof. reflexivity. Qed.

Lemma aset_set_graph_field (k : Kind.t) (g : Job.graph) (b : Build.t) :
  Build.aset k (Build.set_graph_field g b) = Build.aset k b.
Proof. destruct k; reflexivity. Qed.

Lemma option_string_eqb_eq (a b : option string) :
  option_string_eqb a b = true <-> a = b.
Proof.
  destruct a, b; simpl; rewrite ?String.eqb_eq;
    split; congruence.
Qed.

(** One call of [_handle_artifact] on a tool or package. *)
Lemma handle_artifact_spec (kind : Kind.t) (to_deps : bool)
  (x : Info.descriptor) (st : Build.ingest)
  (ds : list (Kind.t * Info.descriptor)) :
  kind <> Kind.FILE ->
  ingest_inv st ds ->
  match Build._handle_artifact kind to_deps x st with
  | (st', Ok _) => ingest_inv st' (ds ++ [(kind, x)])
  | (_, Raise e) => e = Build.multiarch /\ second_arch (ds ++ [(kind, x)])
  end.
Proof.
  intros NF [Isets Iarch Isingle Ikinds].
  assert (Kinds' : forall k y, (k, y) ∈ ds ++ [(kind, x)] -> k <> Kind.FILE).
  { intros k y [M | M]%elem_of_app; [eauto|].
    apply list_elem_of_singleton in M. congruence. }
  unfold Build._handle_artifact.
  pose proof (Isets kind (Info.name x) NF) as S.
  destruct (Build.aset kind (Build.build st) !! Info.name x) as [r|] eqn:E.
  - (* the artifact exists already *)
    destruct S as (a & s & O & A & K).
    simpl. rewrite O. simpl. rewrite A.
    assert (Eq := has_arch_snoc_known ds kind x s).
    assert (Single' : ~ second_arch (ds ++ [(kind, x)])).
    { intros (s1 & s2 & A1 & A2 & N). apply Isingle. exists s1, s2.
      rewrite <- !(Eq _ K). auto. }
    assert (Sets' : forall k n, k <> Kind.FILE ->
              match Build.aset k (Build.build st) !! n with
              | Some r =>
                  exists a s,
                    Build.objects (Build.build st) !! r = Some a
                    /\ Artifact.architecture a = ArchVal (Some s)
                    /\ arch_of (ds ++ [(kind, x)]) k n = Some s
              | None => arch_of (ds ++ [(kind, x)]) k n = None
              end).
    { intros k n Hk. rewrite (arch_of_snoc_known _ _ _ _ K).
      apply Isets, Hk. }
    destruct (option_string_eqb (Some s) (Some "noarch")) eqn:NA.
    + constructor; simpl; auto.
      intros o. rewrite Iarch. setoid_rewrite (Eq _ K). reflexivity.
    + assert (In_set : Some s ∈ Build.arch_set st).
      { apply Iarch. exists s. split; [reflexivity|].
        split; [|eauto]. intros ->. vm_compute in NA. discriminate. }
      rewrite (bool_decide_eq_true_2 _ In_set). rewrite andb_false_r.
      constructor; simpl; auto.
      intros o. rewrite elem_of_union, elem_of_singleton, Iarch.
      setoid_rewrite (Eq _ K). split; [|tauto].
      intros [-> | ?]; [|assumption]. apply Iarch. exact In_set.
  - (* a new artifact *)
    unfold Build.new_object. simpl.
    rewrite objects_set_aset, objects_set_graph_field, aset_set_graph_field.
    simpl. rewrite lookup_app_r by reflexivity. rewrite Nat.sub_diag. simpl.
    set (a := {| Artifact.kind := kind; Artifact.name := Info.name x;
                 Artifact.version := Some (Info.version x);
                 Artifact.architecture := ArchVal (Some (Info.architecture x));
                 Artifact.received := false; Artifact.failed := false |}).
    set (b' := Build.set_aset kind _ _).
    assert (New := has_arch_snoc_new ds kind x).
    assert (Sets' : forall k n, k <> Kind.FILE ->
              match Build.aset k b' !! n with
              | Some r =>
                  exists a s,
                    Build.objects b' !! r = Some a
                    /\ Artifact.architecture a = ArchVal (Some s)
                    /\ arch_of (ds ++ [(kind, x)]) k n = Some s
              | None => arch_of (ds ++ [(kind, x)]) k n = None
              end).
    { intros k n Hk. subst b'.
      rewrite aset_set_aset, arch_of_snoc, objects_set_aset,
        objects_set_graph_field, aset_set_graph_field. simpl.
      specialize (Isets k n Hk).
      destruct (Kind.eqb kind k) eqn:Ek.
      - apply Kind_eqb_eq in Ek as <-.
        destruct (decide (Info.name x = n)) as [<-|Hn].
        + rewrite lookup_insert_eq, S. simpl. rewrite String.eqb_refl.
          exists a, (Info.architecture x).
          rewrite lookup_app_r by reflexivity. rewrite Nat.sub_diag.
          auto.
        + rewrite lookup_insert_ne by exact Hn.
          assert (String.eqb (Info.name x) n = false) as ->
            by now apply String.eqb_neq.
          rewrite andb_false_r.
          destruct (Build.aset kind (Build.build st) !! n) as [r'|].
          * destruct Isets as (a' & s' & O' & A' & K').
            exists a', s'. rewrite K'.
            rewrite lookup_app_l by (eapply lookup_lt_Some; exact O'). auto.
          * now rewrite Isets.
      - simpl.
        destruct (Build.aset k (Build.build st) !! n) as [r'|].
        + destruct Isets as (a' & s' & O' & A' & K').
          exists a', s'. rewrite K'.
          rewrite lookup_app_l by (eapply lookup_lt_Some; exact O'). auto.
        + now rewrite Isets. }
    destruct (String.eqb (Info.architecture x) "noarch") eqn:NA.
    + apply String.eqb_eq in NA.
      assert (Eq : forall s, has_arch (ds ++ [(kind, x)]) s <-> has_arch ds s).
      { intros s. rewrite (New s S). split; [|tauto].
        intros [?|[-> N]]; [assumption | congruence]. }
      constructor; simpl; auto.
      * intros o. rewrite Iarch. setoid_rewrite Eq. reflexivity.
      * intros (s1 & s2 & A1 & A2 & N). apply Isingle. exists s1, s2.
        rewrite <- !Eq. auto.
    + assert (NA' : Info.architecture x <> "noarch")
        by now apply String.eqb_neq.
      destruct (negb (bool_decide (Build.arch_set st = ∅))
                && negb (bool_decide (Some (Info.architecture x)
                                        ∈ Build.arch_set st))) eqn:C.
      * (* a second architecture *)
        split; [reflexivity|].
        apply andb_true_iff in C as [C1 C2].
        apply negb_true_iff, bool_decide_eq_false in C1, C2.
        apply set_choose_L in C1 as [o Ho].
        pose proof Ho as Ho'. apply Iarch in Ho' as (s0 & -> & A0).
        exists s0, (Info.architecture x). repeat split.
        -- apply A0.
        -- destruct A0 as (_ & k & n & A0). exists k, n.
           rewrite arch_of_app, A0. reflexivity.
        -- exact NA'.
        -- exists kind, (Info.name x).
           rewrite arch_of_snoc, S, key_eqb_refl. reflexivity.
        -- intros ->. contradiction.
      * apply andb_false_iff in C.
        constructor; simpl; auto.
        -- intros o. rewrite elem_of_union, elem_of_singleton, Iarch.
           setoid_rewrite (New _ S). split.
           ++ intros [-> | (s & -> & A)]; eauto.
           ++ intros (s & -> & [A | [-> _]]); eauto.
        -- intros (s1 & s2 & A1 & A2 & N).
           apply (New _ S) in A1, A2.
           assert (Old : forall s, has_arch ds s -> s = Info.architecture x).
           { intros s A.
             destruct C as [C|C];
               apply negb_false_iff, bool_decide_eq_true in C.
             - assert (Some s ∈ Build.arch_set st) as M by (apply Iarch; eauto).
               rewrite C in M. set_solver.
             - apply Iarch in C as (s' & [= <-] & A').
               destruct (decide (s = Info.architecture x)); [assumption|].
               exfalso. apply Isingle. exists s, (Info.architecture x). auto. }
           destruct A1 as [A1|[-> _]], A2 as [A2|[-> _]];
             try apply Old in A1; try apply Old in A2; congruence.
Qed.

(** A step of the loop that leaves the tool and package sets and the
    architectures of the artifacts alone. *)
Definition same_archs (b b' : Build.t) : Prop :=
  (forall k, k <> Kind.FILE -> Build.aset k b' = Build.aset k b)
  /\ (forall r a, Build.objects b !! r = Some a ->
        exists a', Build.objects b' !! r = Some a'
                   /\ Artifact.architecture a' = Artifact.architecture a).

Lemma same_archs_refl (b : Build.t) : same_archs b b.
Proof. split; eauto. Qed.

Lemma same_archs_trans (b1 b2 b3 : Build.t) :
  same_archs b1 b2 -> same_archs b2 b3 -> same_archs b1 b3.
Proof.
  intros [A1 O1] [A2 O2]. split.
  - intros k Hk. rewrite A2, A1; auto.
  - intros r a E. destruct (O1 r a E) as (a' & E' & Q').
    destruct (O2 r a' E') as (a'' & E'' & Q''). exists a''. split; congruence.
Qed.

Lemma same_archs_alter (f : Artifact.t -> Artifact.t) (r : nat) (b : Build.t) :
  (forall a, Artifact.architecture (f a) = Artifact.architecture a) ->
  same_archs b (Build.alter_object f r b).
Proof.
  intros F. split.
  - intros k _. destruct k; reflexivity.
  - intros r' a E. unfold Build.alter_object.
    rewrite objects_set_graph_field. simpl.
    destruct (decide (r = r')) as [<-|N].
    + rewrite list_lookup_alter_eq. unfold Build.objects in E. rewrite E.
      simpl. eauto.
    + rewrite list_lookup_alter_ne by exact N. eauto.
Qed.

Lemma same_archs_mark_up2date (prods : list nat) (b : Build.t) :
  same_archs b (Build.mark_up2date prods b).
Proof.
  unfold Build.mark_up2date. revert b.
  induction prods as [|r prods IH]; intros b; simpl; [apply same_archs_refl|].
  eapply same_archs_trans; [|apply IH].
  eapply same_archs_trans; apply same_archs_alter; reflexivity.
Qed.

Lemma ingest_inv_same_archs (st st' : Build.ingest)
  (ds : list (Kind.t * Info.descriptor)) :
  ingest_inv st ds ->
  same_archs (Build.build st) (Build.build st') ->
  Build.arch_set st' = Build.arch_set st ->
  ingest_inv st' ds.
Proof.
  intros [Isets Iarch Isingle Ikinds] [A O] E.
  constructor; auto.
  - intros k n Hk. rewrite (A k Hk). specialize (Isets k n Hk).
    destruct (Build.aset k (Build.build st) !! n) as [r|]; [|assumption].
    destruct Isets as (a & s & Oa & Aa & K).
    destruct (O r a Oa) as (a' & Oa' & Aa'). exists a', s.
    repeat split; congruence.
  - intros o. rewrite E. apply Iarch.
Qed.

(** A step of the loop that ingests the descriptors [added]: it keeps
    the invariant, or raises the multiarch error on a second
    architecture. *)
Record ingests (m : prog Build.ingest unit)
  (added : list (Kind.t * Info.descriptor)) : Prop := {
  ingests_run : forall st ds,
    ingest_inv st ds ->
    match m st with
    | (st', Ok _) => ingest_inv st' (ds ++ added)
    | (_, Raise e) => e = Build.multiarch /\ second_arch (ds ++ added)
    end
}.

Lemma ingests_bind (m1 m2 : prog Build.ingest unit)
  (d1 d2 : list (Kind.t * Info.descriptor)) :
  ingests m1 d1 -> ingests m2 d2 -> ingests (m1 ;; m2) (d1 ++ d2).
Proof.
  intros [S1] [S2]. constructor. intros st ds I. specialize (S1 st ds I).
  unfold mbind, prog_bind. destruct (m1 st) as [st1 [[]|e]].
  - specialize (S2 st1 _ S1). rewrite <- app_assoc in S2. exact S2.
  - destruct S1 as [-> V]. split; [reflexivity|].
    rewrite app_assoc. now apply second_arch_app.
Qed.

Lemma ingests_mfor {A} (f : A -> prog Build.ingest unit)
  (g : A -> Kind.t * Info.descriptor) (xs : list A) :
  (forall x, ingests (f x) [g x]) -> ingests (mfor f xs) (g <$> xs).
Proof.
  intros F. induction xs as [|x xs IH]; simpl.
  - constructor. intros st ds I. simpl. rewrite app_nil_r. exact I.
  - apply (ingests_bind _ _ [g x] (g <$> xs)); auto.
Qed.

Lemma ingests_nothing (f : Build.ingest -> Build.ingest) :
  (forall st, same_archs (Build.build st) (Build.build (f st))
              /\ Build.arch_set (f st) = Build.arch_set st) ->
  ingests (modify f) [].
Proof.
  intros F. constructor. intros st ds I. simpl. rewrite app_nil_r.
  destruct (F st) as [S E]. eapply ingest_inv_same_archs; eauto.
Qed.

Lemma ingests_handle_artifact (kind : Kind.t) (to_deps : bool)
  (x : Info.descriptor) :
  kind <> Kind.FILE ->
  ingests (Build._handle_artifact kind to_deps x) [(kind, x)].
Proof. intros NF. constructor. intros st ds I. now apply handle_artifact_spec. Qed.

Lemma ingests_handle_file (fname : string) :
  ingests (Build.handle_file fname) [].
Proof.
  constructor. intros st ds I. unfold Build.handle_file, Build.new_object.
  simpl. rewrite app_nil_r.
  eapply ingest_inv_same_archs; [exact I| |reflexivity].
  simpl. split.
  - intros k Hk. destruct k; [reflexivity..|congruence].
  - intros r a E. exists a. split; [|reflexivity].
    unfold Build.objects. simpl. rewrite lookup_app_l; [exact E|].
    eapply lookup_lt_Some; exact E.
Qed.

(** One job with its ["capabilities"]. *)
Lemma ingests_job (job : string) (info : Info.t) (caps : gset string) :
  Info.capabilities info = Some caps ->
  ingests (Build.ingest_job job info) (job_descriptors info).
Proof.
  intros C. unfold Build.ingest_job. rewrite C.
  unfold job_descriptors.
  change (@mbind (prog Build.ingest) _ _ _ ?k (mret caps)) with (k caps).
  apply (ingests_bind _ _ []).
  { apply ingests_nothing. intros st. simpl.
    split; [apply same_archs_refl|reflexivity]. }
  apply ingests_bind.
  { apply ingests_mfor. intros x. now apply ingests_handle_artifact. }
  apply ingests_bind.
  { apply ingests_mfor. intros x. now apply ingests_handle_artifact. }
  apply ingests_bind.
  { apply ingests_mfor. intros x. now apply ingests_handle_artifact. }
  rewrite <- (app_nil_r (pair Kind.PACKAGE <$> _)).
  apply ingests_bind.
  { apply ingests_mfor. intros x. now apply ingests_handle_artifact. }
  apply (ingests_bind _ _ [] []).
  { induction (Info.products_files info) as [|f fs IH]; simpl.
    - constructor. intros st ds I. simpl. rewrite app_nil_r. exact I.
    - apply (ingests_bind _ _ [] []);
        [apply ingests_handle_file | exact IH]. }
  apply ingests_nothing. intros st. simpl.
  destruct (Info.up2date info); simpl; split; try reflexivity.
  - split.
    + intros k Hk. rewrite aset_set_graph_field.
      apply (same_archs_mark_up2date _ (Build.build st)), Hk.
    + intros r a E. rewrite objects_set_graph_field. simpl.
      apply (same_archs_mark_up2date _ (Build.build st)), E.
  - split.
    + intros k Hk. now rewrite aset_set_graph_field.
    + intros r a E. rewrite objects_set_graph_field. simpl. eauto.
Qed.

Lemma ingest_graph_spec (graph : list (string * Info.t)) :
  forall st ds,
    ingest_inv st ds ->
    match mfor (fun ji => Build.ingest_job ji.1 ji.2) graph st with
    | (st', Ok _) => ingest_inv st' (ds ++ ingested graph)
    | (_, Raise e) =>
        (e = Build.multiarch /\ second_arch (ds ++ ingested graph))
        \/ (e = KeyError "capabilities"
            /\ ~ second_arch (ds ++ ingested graph))
    end.
Proof.
  induction graph as [|[job info] graph IH]; intros st ds I; simpl.
  - rewrite app_nil_r. exact I.
  - unfold mbind at 1, prog_bind at 1.
    destruct (Info.capabilities info) as [caps|] eqn:C.
    + pose proof (ingests_run _ _ (ingests_job job info caps C) st ds I) as S.
      destruct (Build.ingest_job job info st) as [st1 [[]|e]].
      * specialize (IH st1 _ S). rewrite <- app_assoc in IH. exact IH.
      * destruct S as [-> V]. left. split; [reflexivity|].
        rewrite app_assoc. now apply second_arch_app.
    + unfold Build.ingest_job. rewrite C. simpl. right.
      rewrite app_nil_r. split; [reflexivity | apply I].
Qed.

Lemma ingest_inv_fresh (b : Build.t) (j : Job.t) :
  Build.tool_set b = ∅ ->
  Build.pkg_set b = ∅ ->
  ingest_inv {| Build.build := b; Build.arch_set := ∅; Build.job_val := j |} [].
Proof.
  intros T P. constructor; simpl.
  - intros k n Hk. destruct k; simpl; rewrite ?T, ?P, ?lookup_empty;
      congruence.
  - intros o. split; [set_solver|]. intros (s & _ & _ & k & n & E).
    discriminate E.
  - intros (s1 & _ & (_ & k & n & E) & _). discriminate E.
  - intros k x M. inversion M.
Qed.

Lemma expand_noarch_idempotent (archs : gset (option string)) (a : Artifact.t) :
  Build.expand_noarch archs (Build.expand_noarch archs a)
  = Build.expand_noarch archs a.
Proof.
  unfold Build.expand_noarch.
  destruct (arch_eqb (Artifact.architecture a) _) eqn:E; simpl; [reflexivity|].
  now rewrite E.
Qed.

Lemma foldl_alter_object (f : Artifact.t -> Artifact.t) (refs : list nat) :
  (forall a, f (f a) = f a) ->
  forall b,
    let b' := foldl (fun b r => Build.alter_object f r b) b refs in
    (forall k, Build.aset k b' = Build.aset k b)
    /\ (forall r, Build.objects b' !! r
                  = if decide (r ∈ refs) then f <$> Build.objects b !! r
                    else Build.objects b !! r).
Proof.
  intros F. induction refs as [|r0 refs IH]; intros b; simpl.
  - split; [reflexivity|]. intros r.
    destruct (decide (r ∈ [])) as [M|]; [inversion M | reflexivity].
  - destruct (IH (Build.alter_object f r0 b)) as [A O]. split.
    + intros k. rewrite A. destruct k; reflexivity.
    + intros r. rewrite O.
      unfold Build.alter_object. rewrite objects_set_graph_field. simpl.
      rewrite list_lookup_alter.
      unfold Build.objects.
      destruct (decide (r0 = r)) as [E|N].
      * subst r0. rewrite (decide_True (P := r ∈ r :: refs))
          by apply list_elem_of_here.
        destruct (decide (r ∈ refs));
          destruct (Job.objects (Build.graph b) !! r); simpl;
          rewrite ?F; reflexivity.
      * destruct (decide (r ∈ refs)) as [M|M].
        -- rewrite decide_True by (apply elem_of_cons; auto). reflexivity.
        -- rewrite decide_False; [reflexivity|].
           rewrite elem_of_cons. intros [?|?]; [congruence | contradiction].
Qed.

Lemma aset_refs (k : Kind.t) (n : string) (r : nat) (b : Build.t) :
  k <> Kind.FILE ->
  Build.aset k b !! n = Some r ->
  r ∈ (map_to_list (Build.tool_set b)).*2 ++ (map_to_list (Build.pkg_set b)).*2.
Proof.
  intros Hk E. apply elem_of_app.
  destruct k; [left | right | congruence];
    apply list_elem_of_fmap; exists (n, r); split; try reflexivity;
    now apply elem_of_map_to_list.
Qed.

(** What [set_graph] has built when it returns: the state of the loop
    at its end, with the architectures expanded. *)
Lemma set_graph_returns (revision : string) (graph : list (string * Info.t))
  (commits_object : value) (b b' : Build.t) (e : event) :
  Build.tool_set b = ∅ ->
  Build.pkg_set b = ∅ ->
  Build.set_graph revision graph commits_object b = (b', Ok e) ->
  exists st,
    ingest_inv st (ingested graph)
    /\ (forall k, Build.aset k b' = Build.aset k (Build.build st))
    /\ (forall k n r, k <> Kind.FILE ->
          Build.aset k (Build.build st) !! n = Some r ->
          Build.objects b' !! r
          = Build.expand_noarch (Build.arch_set st)
              <$> Build.objects (Build.build st) !! r).
Proof.
  intros T P. unfold Build.set_graph.
  match goal with
  | |- context [mfor ?f graph ?st0] =>
      pose proof (ingest_graph_spec graph st0 []
                    (ingest_inv_fresh
                       (Build.set_revision revision commits_object b) _
                       T P)) as S;
      destruct (mfor f graph st0) as [st [[]|e']]
  end; [|discriminate].
  intros [= <- _]. exists st. split; [exact S|].
  destruct (foldl_alter_object (Build.expand_noarch (Build.arch_set st))
              ((map_to_list (Build.tool_set (Build.build st))).*2
               ++ (map_to_list (Build.pkg_set (Build.build st))).*2)
              (expand_noarch_idempotent _) (Build.build st)) as [A O].
  split; [exact A|].
  intros k n r Hk E. unfold Build.expand_all. rewrite O.
  destruct (decide (r ∈ _)) as [|N]; [reflexivity|].
  exfalso. apply N. eapply aset_refs; eauto.
Qed.

Lemma set_graph_outcome (revision : string) (graph : list (string * Info.t))
  (commits_object : value) (b b' : Build.t) (r : result event) :
  Build.tool_set b = ∅ ->
  Build.pkg_set b = ∅ ->
  Build.set_graph revision graph commits_object b = (b', r) ->
  match r with
  | Ok _ => ~ second_arch (ingested graph)
  | Raise e =>
      (e = Build.multiarch /\ second_arch (ingested graph))
      \/ (e = KeyError "capabilities" /\ ~ second_arch (ingested graph))
  end.
Proof.
  intros T P. unfold Build.set_graph.
  match goal with
  | |- context [mfor ?f graph ?st0] =>
      pose proof (ingest_graph_spec graph st0 []
                    (ingest_inv_fresh
                       (Build.set_revision revision commits_object b) _
                       T P)) as S;
      destruct (mfor f graph st0) as [st [[]|e']]
  end; intros [= _ <-]; [apply S | exact S].
Qed.

Lemma arch_of_elem (ds : list (Kind.t * Info.descriptor)) (k : Kind.t)
  (n s : string) :
  arch_of ds k n = Some s -> exists x, (k, x) ∈ ds.
Proof.
  induction ds as [|[k' x] ds IH]; simpl; [discriminate|].
  destruct (Kind.eqb k' k && String.eqb (Info.name x) n) eqn:E.
  - apply key_eqb_eq in E as [-> _]. intros _. exists x. apply list_elem_of_here.
  - intros A. destruct (IH A) as [y M]. exists y. now apply list_elem_of_further.
Qed.

(** The concrete architectures among the tools and packages of a build. *)
Definition build_arch (b : Build.t) (s : string) : Prop :=
  s <> "noarch"
  /\ exists k n r a,
       k <> Kind.FILE
       /\ Build.aset k b !! n = Some r
       /\ Build.objects b !! r = Some a
       /\ Artifact.architecture a = ArchVal (Some s).

(** C6.  [set_graph] on a new build (its tool and package sets are
    empty).  When it returns, the tool and package artifacts with a
    concrete architecture all have the same one.  It raises
    [RuntimeError("multiarch builds unsupported")] exactly when two of the
    tools and packages it ingests have distinct architectures other than
    ["noarch"]. *)
Theorem set_graph_single_architecture (revision : string)
  (graph : list (string * Info.t)) (commits_object : value)
  (b b' : Build.t) (r : result event) :
  Build.tool_set b = ∅ ->
  Build.pkg_set b = ∅ ->
  Build.set_graph revision graph commits_object b = (b', r) ->
  (forall e, r = Ok e ->
     forall s1 s2, build_arch b' s1 -> build_arch b' s2 -> s1 = s2)
  /\ (r = Raise (RuntimeError "multiarch builds unsupported")
      <-> second_arch (ingested graph)).
Proof.
  intros T P E. pose proof (set_graph_outcome _ _ _ _ _ _ T P E) as O. split.
  - intros e ->.
    destruct (set_graph_returns _ _ _ _ _ _ T P E) as (st & I & A & X).
    assert (K : forall s, build_arch b' s -> has_arch (ingested graph) s).
    { intros s (N & k & n & r & a & Hk & S & Oa & Aa). split; [exact N|].
      exists k, n. rewrite A in S.
      pose proof (inv_sets _ _ I k n Hk) as Q. rewrite S in Q.
      destruct Q as (a0 & s0 & O0 & A0 & K0).
      rewrite (X k n r Hk S), O0 in Oa. simpl in Oa. injection Oa as <-.
      unfold Build.expand_noarch in Aa. rewrite A0 in Aa. simpl in Aa.
      destruct (String.eqb s0 "noarch"); simpl in Aa; congruence. }
    intros s1 s2 B1 B2. destruct (decide (s1 = s2)); [assumption|].
    exfalso. apply O. exists s1, s2. auto.
  - split.
    + intros ->. destruct O as [[_ V]|[Q _]]; [exact V | discriminate Q].
    + intros V. destruct r as [e|e].
      * contradiction.
      * destruct O as [[-> _]|[_ N]]; [reflexivity | contradiction].
Qed.

(** C7.  [set_graph] on a new build, when it returns and some tool or
    package it ingested has a concrete architecture [s]: every tool and
    package that was ingested with the architecture ["noarch"] is in its
    set with the architecture [[s]], the list of the one concrete
    architecture of the build.  (A tool or package is known by kind and
    name and has the architecture of its first descriptor in the graph,
    which is the one its [Artifact] is made from.) *)
Theorem set_graph_expands_noarch (revision : string)
  (graph : list (string * Info.t)) (commits_object : value)
  (b b' : Build.t) (e : event) (s : string) :
  Build.tool_set b = ∅ ->
  Build.pkg_set b = ∅ ->
  Build.set_graph revision graph commits_object b = (b', Ok e) ->
  has_arch (ingested graph) s ->
  forall k n,
    arch_of (ingested graph) k n = Some "noarch" ->
    exists r a,
      Build.aset k b' !! n = Some r
      /\ Build.objects b' !! r = Some a
      /\ Artifact.architecture a = ArchList [Some s].
Proof.
  intros T P E H k n N.
  destruct (set_graph_returns _ _ _ _ _ _ T P E) as (st & I & A & X).
  assert (Hk : k <> Kind.FILE).
  { destruct (arch_of_elem _ _ _ _ N) as [x M]. eapply inv_kinds; eauto. }
  pose proof (inv_sets _ _ I k n Hk) as Q.
  destruct (Build.aset k (Build.build st) !! n) as [r|] eqn:S; [|congruence].
  destruct Q as (a0 & s0 & O0 & A0 & K0).
  assert (s0 = "noarch") as -> by congruence.
  exists r, (Build.expand_noarch (Build.arch_set st) a0).
  rewrite A, S, (X k n r Hk S), O0. repeat split.
  unfold Build.expand_noarch. rewrite A0. simpl.
  assert (Build.arch_set st = {[Some s]}) as ->.
  { apply set_eq. intros o. rewrite (inv_arch_set _ _ I), elem_of_singleton.
    split.
    - intros (s' & -> & H'). f_equal.
      destruct (decide (s' = s)); [assumption|].
      exfalso. apply (inv_single _ _ I). exists s', s. auto.
    - intros ->. eauto. }
  now rewrite elements_singleton.
Qed.

(** A graph of two jobs: ["package:p"] makes the package [p] for
    [x86_64]; ["tool:t"] needs it and makes the tool [t], which is
    ["noarch"], and a file. *)
Definition descriptor (name version architecture : string) : Info.descriptor :=
  {| Info.name := name; Info.version := version;
     Info.architecture := architecture |}.

Definition example_info (needed_pkgs products_tools products_pkgs
                           : list Info.descriptor)
  (products_files : list string) : Info.t :=
  {| Info.up2date := false; Info.unstable := false;
     Info.capabilities := Some ∅;
     Info.products_tools := products_tools;
     Info.products_pkgs := products_pkgs;
     Info.products_files := products_files;
     Info.needed_tools := []; Info.needed_pkgs := needed_pkgs |}.

Definition example_graph : list (string * Info.t) :=
  [ ("package:p", example_info [] [] [descriptor "p" "1.0" "x86_64"] []);
    ("tool:t", example_info [descriptor "p" "1.0" "x86_64"]
                 [descriptor "t" "2.0" "noarch"] [] ["t.log"]) ].

Definition new_build : Build.t :=
  Build.fresh "/srv/xbbs" "demo" "https://example.org/demo.git" false
    "20260101_000000".

Lemma set_graph_single_architecture_witness :
  let out := Build.set_graph "abc" example_graph (VDict []) new_build in
  (forall e, out.2 = Ok e ->
     forall s1 s2, build_arch out.1 s1 -> build_arch out.1 s2 -> s1 = s2)
  /\ (out.2 = Raise (RuntimeError "multiarch builds unsupported")
      <-> second_arch (ingested example_graph)).
Proof.
  apply (set_graph_single_architecture "abc" example_graph (VDict [])
           new_build); [reflexivity | reflexivity | apply surjective_pairing].
Defined.

Lemma set_graph_expands_noarch_witness :
  exists r a,
    Build.aset Kind.TOOL
      (Build.set_graph "abc" example_graph (VDict []) new_build).1 !! "t"
    = Some r
    /\ Build.objects
         (Build.set_graph "abc" example_graph (VDict []) new_build).1 !! r
       = Some a
    /\ Artifact.architecture a = ArchList [Some "x86_64"].
Proof.
  refine (set_graph_expands_noarch "abc" example_graph (VDict []) new_build
            (Build.set_graph "abc" example_graph (VDict []) new_build).1
            (Build.store_status None
               (Build.set_graph "abc" example_graph (VDict []) new_build).1)
            "x86_64" _ _ _ _ Kind.TOOL "t" _);
    [reflexivity | reflexivity | vm_compute; reflexivity | | reflexivity].
  split; [discriminate|]. exists Kind.PACKAGE, "p". reflexivity.
Defined.

(** Two architectures: the second one stops the ingestion. *)
Example set_graph_two_architectures :
  (Build.set_graph "abc"
     [("package:p", example_info [] [] [descriptor "p" "1.0" "x86_64"] []);
      ("package:q", example_info [] [] [descriptor "q" "1.0" "aarch64"] [])]
     (VDict []) new_build).2
  = Raise (RuntimeError "multiarch builds unsupported").
Proof. reflexivity. Qed.

(** A name that comes again with another architecture is the artifact of
    its first descriptor: here [t] stays ["noarch"], no architecture is
    collected, and [t] gets the empty list. *)
Example set_graph_same_name_again :
  let b' :=
    (Build.set_graph "abc"
       [("tool:t", example_info [] [descriptor "t" "2.0" "noarch"] [] []);
        ("tool:u", example_info [] [descriptor "t" "2.0" "x86_64"] [] [])]
       (VDict []) new_build).1 in
  Artifact.architecture <$> Build.objects b' = [ArchList []].
Proof. reflexivity. Qed.

(** ** The failure cascade ([Job.fail]) *)

(** The artifacts that have not failed yet: what bounds the recursion. *)
Fixpoint unfailed (objs : list Artifact.t) : nat :=
  match objs with
  | [] => 0
  | a :: objs' => (if Artifact.failed a then 0 else 1) + unfailed objs'
  end.

(** What [fail] may do to an artifact: set status bits. *)
Definition artifact_le (a a' : Artifact.t) : Prop :=
  Artifact.kind a' = Artifact.kind a
  /\ Artifact.name a' = Artifact.name a
  /\ Artifact.version a' = Artifact.version a
  /\ Artifact.architecture a' = Artifact.architecture a
  /\ (Artifact.failed a = true -> Artifact.failed a' = true)
  /\ (Artifact.received a = true -> Artifact.received a' = true).

(** The status of a failed job that was not running. *)
Definition final_status (unstable : bool) : JobStatus.t :=
  if unstable then JobStatus.IGNORED_FAILURE else JobStatus.FAILED.

(** The status of a job after [fail] was called on it at least once. *)
Definition touched (j j' : Job.t) : Prop :=
  Job.status j' = final_status (Job.unstable j)
  \/ (Job.status j = JobStatus.RUNNING
      /\ Job.status j' = JobStatus.WAITING_FOR_DONE).

(** What [fail] may do to a job: nothing, or touch it. *)
Definition job_le (kv kv' : string * Job.t) : Prop :=
  kv'.1 = kv.1
  /\ Job.unstable kv'.2 = Job.unstable kv.2
  /\ Job.deps kv'.2 = Job.deps kv.2
  /\ Job.products kv'.2 = Job.products kv.2
  /\ Job.capabilities kv'.2 = Job.capabilities kv.2
  /\ (Job.status kv'.2 = Job.status kv.2 \/ touched kv.2 kv'.2).

Record evolves (g g' : Job.graph) : Prop := {
  ev_objects : Forall2 artifact_le (Job.objects g) (Job.objects g');
  ev_jobs : Forall2 job_le (Job.jobs g) (Job.jobs g')
}.

Lemma artifact_le_refl (a : Artifact.t) : artifact_le a a.
Proof. repeat split; auto. Qed.

Lemma artifact_le_trans (a b c : Artifact.t) :
  artifact_le a b -> artifact_le b c -> artifact_le a c.
Proof.
  intros (K1 & N1 & V1 & A1 & F1 & R1) (K2 & N2 & V2 & A2 & F2 & R2).
  repeat split; try congruence; auto.
Qed.

Lemma final_status_not_running (u : bool) :
  final_status u <> JobStatus.RUNNING.
Proof. destruct u; discriminate. Qed.

Lemma touched_then (a b c : string * Job.t) :
  job_le a b -> touched a.2 b.2 -> job_le b c -> touched a.2 c.2.
Proof.
  intros (_ & U & _) T (_ & U' & _ & _ & _ & [S | [F | [R W]]]).
  - destruct T as [T | [R W]]; [left | right]; [congruence|].
    split; congruence.
  - left. congruence.
  - exfalso. destruct T as [T | [_ T]]; rewrite R in T;
      [|discriminate]. symmetry in T. now apply final_status_not_running in T.
Qed.

Lemma then_touched (a b c : string * Job.t) :
  job_le a b -> touched b.2 c.2 -> touched a.2 c.2.
Proof.
  intros (_ & U & _ & _ & _ & L) [F | [R W]].
  - left. congruence.
  - destruct L as [S | [F | [_ W']]].
    + right. split; congruence.
    + exfalso. rewrite R in F. symmetry in F.
      now apply final_status_not_running in F.
    + rewrite R in W'. discriminate.
Qed.

Lemma job_le_refl (kv : string * Job.t) : job_le kv kv.
Proof. repeat split; auto. Qed.

Lemma job_le_trans (a b c : string * Job.t) :
  job_le a b -> job_le b c -> job_le a c.
Proof.
  intros L1 L2.
  pose proof L1 as (N1 & U1 & D1 & P1 & C1 & S1).
  pose proof L2 as (N2 & U2 & D2 & P2 & C2 & S2).
  repeat split; try congruence.
  destruct S1 as [S1 | T1].
  - destruct S2 as [S2 | T2]; [left; congruence|].
    right. eapply then_touched; eauto.
  - right. eapply touched_then; eauto.
Qed.

Lemma evolves_refl (g : Job.graph) : evolves g g.
Proof.
  split; apply Forall_Forall2_diag, Forall_forall; intros;
    [apply artifact_le_refl | apply job_le_refl].
Qed.

Lemma evolves_trans (g1 g2 g3 : Job.graph) :
  evolves g1 g2 -> evolves g2 g3 -> evolves g1 g3.
Proof.
  intros [O1 J1] [O2 J2]. split.
  - eapply Forall2_trans; eauto using artifact_le_trans.
  - eapply Forall2_trans; eauto using job_le_trans.
Qed.

Lemma unfailed_le (objs objs' : list Artifact.t) :
  Forall2 artifact_le objs objs' -> unfailed objs' <= unfailed objs.
Proof.
  induction 1 as [|a a' objs objs' (_ & _ & _ & _ & F & _) _ IH]; simpl;
    [lia|].
  destruct (Artifact.failed a); [rewrite F by reflexivity; lia|].
  destruct (Artifact.failed a'); lia.
Qed.

Lemma evolves_object (g g' : Job.graph) (r : nat) (a : Artifact.t) :
  evolves g g' ->
  Job.objects g !! r = Some a ->
  exists a', Job.objects g' !! r = Some a' /\ artifact_le a a'.
Proof. intros [O _] E. eapply Forall2_lookup_l; eauto. Qed.

Lemma evolves_object_r (g g' : Job.graph) (r : nat) (a' : Artifact.t) :
  evolves g g' ->
  Job.objects g' !! r = Some a' ->
  exists a, Job.objects g !! r = Some a /\ artifact_le a a'.
Proof. intros [O _] E. eapply Forall2_lookup_r; eauto. Qed.

Lemma evolves_job (g g' : Job.graph) (k : nat) (j : Job.t) :
  evolves g g' ->
  Job.job_at g k = Some j ->
  exists j' n, Job.job_at g' k = Some j' /\ job_le (n, j) (n, j').
Proof.
  intros [_ J] E. unfold Job.job_at in *.
  destruct (Job.jobs g !! k) as [[n j0]|] eqn:L; [|discriminate].
  injection E as ->.
  destruct (Forall2_lookup_l _ _ _ _ _ J L) as ([n' j'] & L' & Le).
  exists j', n. rewrite L'. split; [reflexivity|].
  destruct Le as (N & Rest). simpl in N. subst n'. split; [reflexivity|].
  exact Rest.
Qed.

Lemma evolves_job_r (g g' : Job.graph) (k : nat) (j' : Job.t) :
  evolves g g' ->
  Job.job_at g' k = Some j' ->
  exists j n, Job.job_at g k = Some j /\ job_le (n, j) (n, j').
Proof.
  intros [_ J] E. unfold Job.job_at in *.
  destruct (Job.jobs g' !! k) as [[n' j0]|] eqn:L; [|discriminate].
  injection E as ->.
  destruct (Forall2_lookup_r _ _ _ _ _ J L) as ([n j] & L' & Le).
  exists j, n. rewrite L'. split; [reflexivity|].
  destruct Le as (N & Rest). simpl in N. subst n'. split; [reflexivity|].
  exact Rest.
Qed.

(** Membership in [deps] does not depend on the status bits. *)
Lemma artifact_in_evolves (g g' : Job.graph) (p : nat) (deps : list nat) :
  evolves g g' ->
  artifact_in (Job.objects g') p deps = artifact_in (Job.objects g) p deps.
Proof.
  intros [O _]. unfold artifact_in.
  assert (K : forall d,
    match Job.objects g' !! d, Job.objects g' !! p with
    | Some x, Some y => Artifact.eqb x y
    | _, _ => false
    end
    = match Job.objects g !! d, Job.objects g !! p with
      | Some x, Some y => Artifact.eqb x y
      | _, _ => false
      end).
  { intros d.
    assert (L : forall r,
      match Job.objects g !! r with
      | Some a => exists a', Job.objects g' !! r = Some a' /\ artifact_le a a'
      | None => Job.objects g' !! r = None
      end).
    { intros r. destruct (Job.objects g !! r) as [a|] eqn:E.
      - eapply Forall2_lookup_l; eauto.
      - apply lookup_ge_None. apply lookup_ge_None in E.
        rewrite <- (Forall2_length _ _ _ O). exact E. }
    pose proof (L d) as Ld. pose proof (L p) as Lp.
    destruct (Job.objects g !! d) as [x|], (Job.objects g !! p) as [y|].
    - destruct Ld as (x' & -> & (K1 & N1 & V1 & A1 & _)).
      destruct Lp as (y' & -> & (K2 & N2 & V2 & A2 & _)).
      unfold Artifact.eqb. now rewrite K1, N1, V1, A1, K2, N2, V2, A2.
    - destruct Ld as (x' & -> & _). now rewrite Lp.
    - now rewrite Ld.
    - now rewrite Ld. }
  induction deps as [|d deps IH]; simpl; [reflexivity|].
  now rewrite K, IH.
Qed.

Definition all_failed (objs : list Artifact.t) (ps : list nat) : Prop :=
  forall p a, p ∈ ps -> objs !! p = Some a -> Artifact.failed a = true.

(** The job at position [k], if it depends on [p], was failed between
    [g] and [g'], with all its products. *)
Definition consumer_failed (g g' : Job.graph) (p k : nat) : Prop :=
  forall j j',
    Job.job_at g k = Some j ->
    Job.job_at g' k = Some j' ->
    artifact_in (Job.objects g) p (Job.deps j) = true ->
    touched j j' /\ all_failed (Job.objects g') (Job.products j).

(** Every artifact that failed between [g] and [g'] is received, and the
    jobs that depend on it were failed. *)
Definition closed (g g' : Job.graph) : Prop :=
  forall p a a',
    Job.objects g !! p = Some a ->
    Artifact.failed a = false ->
    Job.objects g' !! p = Some a' ->
    Artifact.failed a' = true ->
    Artifact.received a' = true /\ forall k, consumer_failed g g' p k.

Lemma all_failed_evolves (g g' : Job.graph) (ps : list nat) :
  evolves g g' ->
  all_failed (Job.objects g) ps -> all_failed (Job.objects g') ps.
Proof.
  intros E A p a' M L.
  destruct (evolves_object_r _ _ _ _ E L) as (a & La & Le).
  apply Le. eapply A; eauto.
Qed.

Lemma consumer_failed_then (g g1 g2 : Job.graph) (p k : nat) :
  evolves g g1 -> consumer_failed g g1 p k -> evolves g1 g2 ->
  consumer_failed g g2 p k.
Proof.
  intros E1 C E2 j j2 J J2 In.
  destruct (evolves_job _ _ _ _ E1 J) as (j1 & n & J1 & L1).
  destruct (evolves_job _ _ _ _ E2 J1) as (j2' & n' & J2' & L2).
  assert (j2' = j2) as -> by congruence.
  destruct (C j j1 J J1 In) as [T A]. split.
  - apply (touched_then (n, j) (n, j1) (n, j2)); auto.
    destruct L2 as (_ & Rest). split; [reflexivity | exact Rest].
  - eapply all_failed_evolves; eauto.
Qed.

Lemma then_consumer_failed (g g1 g2 : Job.graph) (p k : nat) :
  evolves g g1 -> consumer_failed g1 g2 p k -> consumer_failed g g2 p k.
Proof.
  intros E1 C j j2 J J2 In.
  destruct (evolves_job _ _ _ _ E1 J) as (j1 & n & J1 & L1).
  pose proof L1 as (_ & _ & D & P & _). simpl in D, P.
  destruct (C j1 j2 J1 J2) as [T A].
  { rewrite (artifact_in_evolves _ _ _ _ E1), D. exact In. }
  split.
  - apply (then_touched (n, j) (n, j1) (n, j2)); auto.
  - now rewrite <- P.
Qed.

Lemma closed_refl (g : Job.graph) : closed g g.
Proof. intros p a a' L F L' F'. congruence. Qed.

Lemma closed_trans (g g1 g2 : Job.graph) :
  evolves g g1 -> closed g g1 -> evolves g1 g2 -> closed g1 g2 ->
  closed g g2.
Proof.
  intros E1 C1 E2 C2 p a a2 L F L2 F2.
  destruct (evolves_object _ _ _ _ E1 L) as (a1 & L1 & Le1).
  destruct (evolves_object _ _ _ _ E2 L1) as (a2' & L2' & Le2).
  assert (a2' = a2) as -> by congruence.
  destruct (Artifact.failed a1) eqn:F1.
  - destruct (C1 p a a1 L F L1 F1) as [R K]. split.
    + now apply Le2.
    + intros k. eapply consumer_failed_then; eauto.
  - destruct (C2 p a1 a2 L1 F1 L2 F2) as [R K]. split; [exact R|].
    intros k. eapply then_consumer_failed; eauto.
Qed.

Lemma unfailed_alter_same (f : Artifact.t -> Artifact.t) (p : nat)
  (objs : list Artifact.t) :
  (forall a, Artifact.failed (f a) = Artifact.failed a) ->
  unfailed (alter f p objs) = unfailed objs.
Proof.
  intros F. revert p. induction objs as [|a objs IH]; intros [|p]; simpl;
    rewrite ?F; try reflexivity.
  f_equal. apply IH.
Qed.

Lemma unfailed_alter_failed (f : Artifact.t -> Artifact.t) (p : nat)
  (objs : list Artifact.t) (a : Artifact.t) :
  (forall a, Artifact.failed (f a) = true) ->
  objs !! p = Some a ->
  Artifact.failed a = false ->
  S (unfailed (alter f p objs)) = unfailed objs.
Proof.
  intros F. revert p. induction objs as [|x objs IH]; intros [|p] L U;
    simpl in *; try discriminate.
  - injection L as ->. now rewrite F, U.
  - pose proof (IH p L U) as Q.
    change (list_alter f p objs) with (alter f p objs). lia.
Qed.

Lemma mark_failed_unfailed (p : nat) (g : Job.graph) (a : Artifact.t) :
  Job.objects g !! p = Some a ->
  Artifact.failed a = false ->
  S (unfailed (Job.objects (Job.mark_failed p g))) = unfailed (Job.objects g).
Proof.
  intros L U. unfold Job.mark_failed, Job.alter_object. simpl.
  rewrite unfailed_alter_same by reflexivity.
  now apply (unfailed_alter_failed _ _ _ a).
Qed.

Lemma mark_failed_evolves (p : nat) (g : Job.graph) :
  evolves g (Job.mark_failed p g).
Proof.
  split; simpl.
  - apply Forall2_alter_r; [apply Forall2_alter_r|].
    + apply Forall_Forall2_diag, Forall_forall. intros. apply artifact_le_refl.
    + intros x y _ _ (K & N & V & A & F & R). repeat split; auto.
    + intros x y _ _ (K & N & V & A & F & R). repeat split; auto.
  - apply Forall_Forall2_diag, Forall_forall. intros. apply job_le_refl.
Qed.

Lemma mark_failed_lookup (p q : nat) (g : Job.graph) :
  Job.objects (Job.mark_failed p g) !! q
  = if decide (p = q)
    then (fun a => Artifact.set_received true (Artifact.set_failed true a))
           <$> Job.objects g !! q
    else Job.objects g !! q.
Proof.
  unfold Job.mark_failed, Job.alter_object. simpl.
  rewrite !list_lookup_alter. destruct (decide (p = q)) as [->|]; [|reflexivity].
  rewrite decide_True by reflexivity.
  destruct (Job.objects g !! q); reflexivity.
Qed.

Lemma alter_job_evolves (self : nat) (j : Job.t) (g : Job.graph) :
  Job.job_at g self = Some j ->
  evolves g (Job.alter_job (Job.set_status (Job.failed_status j)) self g).
Proof.
  intros J. split; simpl.
  - apply Forall_Forall2_diag, Forall_forall. intros. apply artifact_le_refl.
  - apply Forall2_alter_r.
    + apply Forall_Forall2_diag, Forall_forall. intros. apply job_le_refl.
    + intros [n x] [n' y] L _ Le. unfold Job.job_at in J. rewrite L in J.
      injection J as ->. destruct Le as (N & U & D & P & C & _).
      repeat split; auto. right. simpl. unfold touched, Job.failed_status.
      destruct (Job.status j); simpl; auto.
Qed.

Lemma alter_job_touched (self : nat) (j : Job.t) (g : Job.graph) :
  Job.job_at g self = Some j ->
  exists j',
    Job.job_at (Job.alter_job (Job.set_status (Job.failed_status j)) self g)
      self = Some j'
    /\ touched j j'.
Proof.
  intros J. unfold Job.job_at, Job.alter_job in *. simpl.
  rewrite list_lookup_alter_eq.
  destruct (Job.jobs g !! self) as [[n x]|]; [|discriminate].
  injection J as ->. eexists. split; [reflexivity|].
  unfold touched, Job.failed_status. simpl.
  destruct (Job.status j); simpl; auto.
Qed.

(** What a call of [fail] on the job at [self] establishes. *)
Definition fail_post (g : Job.graph) (self : nat) (g' : Job.graph) : Prop :=
  evolves g g'
  /\ closed g g'
  /\ forall j,
       Job.job_at g self = Some j ->
       exists j',
         Job.job_at g' self = Some j'
         /\ touched j j'
         /\ all_failed (Job.objects g') (Job.products j).

Section CascadeLoops.
Variable rec : nat -> Job.graph -> option Job.graph.
Variable bound : nat.
Hypothesis rec_ok : forall g k,
  unfailed (Job.objects g) < bound ->
  exists g', rec k g = Some g' /\ fail_post g k g'.

Lemma consumers_loop (p : nat) (ks : list nat) :
  forall g,
    unfailed (Job.objects g) < bound ->
    exists g',
      for_each (Job.fail_consumer rec p) ks g = Some g'
      /\ evolves g g'
      /\ closed g g'
      /\ forall k, k ∈ ks -> consumer_failed g g' p k.
Proof.
  induction ks as [|k ks IH]; intros g B; simpl.
  - exists g. split; [reflexivity|]. split; [apply evolves_refl|].
    split; [apply closed_refl|]. intros k M. inversion M.
  - unfold Job.fail_consumer at 1.
    destruct (Job.job_at g k) as [job|] eqn:J.
    2:{ destruct (IH g B) as (g' & E & Ev & C & K). exists g'.
        split; [exact E|]. split; [exact Ev|]. split; [exact C|].
        intros k' [->|M]%elem_of_cons; [|auto].
        intros j j' J'. congruence. }
    destruct (artifact_in (Job.objects g) p (Job.deps job)) eqn:In.
    2:{ destruct (IH g B) as (g' & E & Ev & C & K). exists g'.
        split; [exact E|]. split; [exact Ev|]. split; [exact C|].
        intros k' [->|M]%elem_of_cons; [|auto].
        intros j j' J'. congruence. }
    destruct (rec_ok g k B) as (g1 & R & Ev1 & C1 & P1). rewrite R.
    assert (B1 : unfailed (Job.objects g1) < bound).
    { pose proof (unfailed_le _ _ (ev_objects _ _ Ev1)). lia. }
    destruct (IH g1 B1) as (g' & E & Ev & C & K). exists g'.
    split; [exact E|]. split; [eauto using evolves_trans|].
    split; [eauto using closed_trans|].
    intros k' [->|M]%elem_of_cons.
    + apply (consumer_failed_then g g1 g'); auto.
      intros j j1 Jj Jj1 _. destruct (P1 j Jj) as (j1' & Jj1' & T & A).
      assert (j1' = j1) as -> by congruence. auto.
    + eapply then_consumer_failed; eauto.
Qed.

Lemma products_loop (ps : list nat) :
  forall g,
    unfailed (Job.objects g) <= bound ->
    exists g',
      Job.fail_products rec ps g = Some g'
      /\ evolves g g'
      /\ closed g g'
      /\ all_failed (Job.objects g') ps.
Proof.
  unfold Job.fail_products.
  induction ps as [|p ps IH]; intros g B; simpl.
  - exists g. split; [reflexivity|]. split; [apply evolves_refl|].
    split; [apply closed_refl|]. intros p a M. inversion M.
  - unfold Job.fail_product at 1.
    destruct (Job.objects g !! p) as [a|] eqn:L.
    2:{ destruct (IH g B) as (g' & E & Ev & C & A). exists g'.
        split; [exact E|]. split; [exact Ev|]. split; [exact C|].
        intros q a' [->|M]%elem_of_cons L'; [|eauto].
        destruct (evolves_object_r _ _ _ _ Ev L') as (a0 & L0 & _).
        congruence. }
    destruct (Artifact.failed a) eqn:F.
    { destruct (IH g B) as (g' & E & Ev & C & A). exists g'.
      split; [exact E|]. split; [exact Ev|]. split; [exact C|].
      intros q a' [->|M]%elem_of_cons L'; [|eauto].
      destruct (evolves_object_r _ _ _ _ Ev L') as (a0 & L0 & Le).
      apply Le. congruence. }
    pose proof (mark_failed_unfailed p g a L F) as U.
    pose proof (mark_failed_evolves p g) as Ev2.
    set (g2 := Job.mark_failed p g) in *.
    assert (B2 : unfailed (Job.objects g2) < bound) by lia.
    unfold Job.fail_consumers.
    destruct (consumers_loop p (seq 0 (length (Job.jobs g2))) g2 B2)
      as (g3 & E3 & Ev3 & C3 & K3). rewrite E3.
    assert (K3' : forall k, consumer_failed g2 g3 p k).
    { intros k j j' J. apply K3; [|exact J].
      apply elem_of_seq. split; [lia|]. simpl.
      unfold Job.job_at in J.
      destruct (Job.jobs g2 !! k) eqn:Lk; [|discriminate].
      eapply lookup_lt_Some; eauto. }
    assert (L2 : exists a2, Job.objects g2 !! p = Some a2
                            /\ Artifact.failed a2 = true
                            /\ Artifact.received a2 = true).
    { subst g2. rewrite mark_failed_lookup, decide_True, L by reflexivity.
      simpl. eauto. }
    assert (C : closed g g3).
    { intros q a0 a3 L0 F0 L3 F3. destruct (decide (p = q)) as [<-|N].
      - split.
        + destruct L2 as (a2 & La2 & _ & R2).
          destruct (evolves_object _ _ _ _ Ev3 La2) as (a3' & L3' & Le).
          assert (a3' = a3) as -> by congruence. now apply Le.
        + intros k. eapply then_consumer_failed; eauto.
      - assert (L0' : Job.objects g2 !! q = Some a0).
        { subst g2. rewrite mark_failed_lookup, decide_False by exact N.
          exact L0. }
        destruct (C3 q a0 a3 L0' F0 L3 F3) as [R K]. split; [exact R|].
        intros k. eapply then_consumer_failed; eauto. }
    assert (Ev : evolves g g3) by eauto using evolves_trans.
    assert (B3 : unfailed (Job.objects g3) <= bound).
    { pose proof (unfailed_le _ _ (ev_objects _ _ Ev3)). lia. }
    destruct (IH g3 B3) as (g' & E' & Ev' & C' & A'). exists g'.
    split; [exact E'|]. split; [eauto using evolves_trans|].
    split; [eauto using closed_trans|].
    intros q a' [->|M]%elem_of_cons L'; [|eauto].
    destruct L2 as (a2 & La2 & F2 & _).
    destruct (evolves_object _ _ _ _ (evolves_trans _ _ _ Ev3 Ev') La2)
      as (a'' & L'' & Le).
    assert (a'' = a') as -> by congruence. now apply Le.
Qed.

End CascadeLoops.

Lemma fail_fuel_post (fuel : nat) :
  forall g self,
    unfailed (Job.objects g) < fuel ->
    exists g', Job.fail_fuel fuel self g = Some g' /\ fail_post g self g'.
Proof.
  induction fuel as [|fuel IH]; intros g self B; [lia|]. simpl.
  destruct (Job.job_at g self) as [j|] eqn:J.
  2:{ exists g. split; [reflexivity|]. split; [apply evolves_refl|].
      split; [apply closed_refl|]. intros j J'. congruence. }
  pose proof (alter_job_evolves self j g J) as Ev1.
  destruct (alter_job_touched self j g J) as (j1 & J1 & T1).
  set (g1 := Job.alter_job _ self g) in *.
  assert (B1 : unfailed (Job.objects g1) <= fuel) by (simpl; lia).
  destruct (products_loop (Job.fail_fuel fuel) fuel IH (Job.products j) g1 B1)
    as (g' & E & Ev & C & A).
  exists g'. split; [exact E|]. split; [eauto using evolves_trans|]. split.
  - apply (closed_trans g g1 g'); auto.
    intros p a a' L F L' F'. simpl in L'. congruence.
  - intros j0 J0. assert (j0 = j) as -> by congruence.
    destruct (evolves_job _ _ _ _ Ev J1) as (j' & n & J' & Le).
    exists j'. split; [exact J'|]. split; [|exact A].
    destruct (evolves_job _ _ _ _ Ev1 J) as (j1' & n1 & J1' & Le1).
    assert (j1' = j1) as -> by congruence.
    apply (touched_then (n, j) (n, j1) (n, j')); auto.
    destruct Le1 as (_ & Rest). split; [reflexivity | exact Rest].
Qed.

Lemma unfailed_length (objs : list Artifact.t) : unfailed objs <= length objs.
Proof.
  induction objs as [|a objs IH]; simpl; [lia|].
  destruct (Artifact.failed a); lia.
Qed.

(** [Job.fail] terminates: on every graph, the recursion is no deeper
    than the number of artifacts plus one. *)
Lemma fail_terminates (g : Job.graph) (self : nat) :
  exists g',
    Job.fail_fuel (S (length (Job.objects g))) self g = Some g'
    /\ Job.fail self g = g'
    /\ fail_post g self g'.
Proof.
  destruct (fail_fuel_post (S (length (Job.objects g))) g self)
    as (g' & E & P).
  { pose proof (unfailed_length (Job.objects g)). lia. }
  exists g'. unfold Job.fail. rewrite E. auto.
Qed.

(** The jobs the cascade of [fail] on [self] reaches in [g]: [self], and
    every job that depends on a product, not failed yet, of a job it
    reaches. *)
Inductive cascades (g : Job.graph) (self : nat) : nat -> Prop :=
| cascades_self : cascades g self self
| cascades_consumer (k k' p : nat) (j j' : Job.t) (a : Artifact.t) :
    cascades g self k ->
    Job.job_at g k = Some j ->
    p ∈ Job.products j ->
    Job.objects g !! p = Some a ->
    Artifact.failed a = false ->
    Job.job_at g k' = Some j' ->
    artifact_in (Job.objects g) p (Job.deps j') = true ->
    cascades g self k'.

Lemma cascades_failed (g g' : Job.graph) (self k : nat) :
  fail_post g self g' ->
  cascades g self k ->
  forall jk,
    Job.job_at g k = Some jk ->
    exists jk',
      Job.job_at g' k = Some jk'
      /\ touched jk jk'
      /\ all_failed (Job.objects g') (Job.products jk).
Proof.
  intros (Ev & C & P). induction 1 as [|k k' p j j' a _ IH J M L F J' In].
  - exact P.
  - intros jk Jk. assert (jk = j') as -> by congruence.
    destruct (IH j J) as (j1 & J1 & _ & A).
    destruct (evolves_object _ _ _ _ Ev L) as (a' & L' & _).
    destruct (C p a a' L F L' (A p a' M L')) as [_ K].
    destruct (evolves_job _ _ _ _ Ev J') as (j2 & n & J2 & _).
    exists j2. split; [exact J2|]. now apply (K k' j' j2).
Qed.

(** C3, as the code has it.  [Job.fail] on a job of a graph terminates.
    Afterwards every product of the job is failed, and received unless it
    was failed and not received before.  Every job the cascade reaches
    (through the products that were not failed before, of the jobs it
    reaches) that was not [RUNNING] is [FAILED], or [IGNORED_FAILURE] if
    it is unstable, which are terminal; one that was [RUNNING] is
    [WAITING_FOR_DONE], or failed in the same way if the cascade came to
    it again. *)
Theorem fail_cascade_closed (g : Job.graph) (self : nat) (j : Job.t) :
  Job.job_at g self = Some j ->
  Job.fail_fuel (S (length (Job.objects g))) self g = Some (Job.fail self g)
  /\ (forall p a a',
        p ∈ Job.products j ->
        Job.objects g !! p = Some a ->
        Job.objects (Job.fail self g) !! p = Some a' ->
        Artifact.failed a' = true
        /\ (Artifact.failed a = false \/ Artifact.received a = true ->
            Artifact.received a' = true))
  /\ (forall k jk,
        cascades g self k ->
        Job.job_at g k = Some jk ->
        exists jk',
          Job.job_at (Job.fail self g) k = Some jk'
          /\ (Job.status jk <> JobStatus.RUNNING ->
              Job.status jk' = final_status (Job.unstable jk)
              /\ JobStatus.terminating (Job.status jk') = true)
          /\ (Job.status jk = JobStatus.RUNNING ->
              Job.status jk' = JobStatus.WAITING_FOR_DONE
              \/ Job.status jk' = final_status (Job.unstable jk))).
Proof.
  intros J. destruct (fail_terminates g self) as (g' & E & -> & P).
  split; [exact E|]. split.
  - intros p a a' M L L'.
    destruct P as (Ev & C & P). destruct (P j J) as (j' & _ & _ & A).
    pose proof (A p a' M L') as F'. split; [exact F'|].
    destruct (evolves_object _ _ _ _ Ev L) as (a'' & L'' & Le).
    assert (a'' = a') as -> by congruence.
    destruct (Artifact.failed a) eqn:F.
    + intros [?|R]; [discriminate | now apply Le].
    + intros _. now apply (C p a a' L F L' F').
  - intros k jk K Jk.
    destruct (cascades_failed g g' self k P K jk Jk) as (jk' & Jk' & T & _).
    exists jk'. split; [exact Jk'|]. split.
    + intros N. destruct T as [T | [R _]]; [|contradiction].
      split; [exact T|]. rewrite T. destruct (Job.unstable jk); reflexivity.
    + intros _. destruct T as [T | [_ W]]; auto.
Qed.

(** A graph in which the job ["tool:t"] waits for the package [p], whose
    upload failed, and makes the tool [t], which an up-to-date build
    already has; ["tool:u"] needs [t] and is running. *)
Definition cascade_graph : Job.graph :=
  {| Job.objects :=
       [ {| Artifact.kind := Kind.PACKAGE; Artifact.name := "p";
            Artifact.version := Some "1.0";
            Artifact.architecture := ArchVal (Some "x86_64");
            Artifact.received := true; Artifact.failed := true |};
         {| Artifact.kind := Kind.TOOL; Artifact.name := "t";
            Artifact.version := Some "2.0";
            Artifact.architecture := ArchVal (Some "x86_64");
            Artifact.received := true; Artifact.failed := false |} ];
     Job.jobs :=
       [ ("tool:t", {| Job.unstable := false; Job.deps := [0];
                       Job.products := [1]; Job.capabilities := ∅;
                       Job.status := JobStatus.WAITING;
                       Job.exit_code := None; Job.run_time := None |});
         ("tool:u", {| Job.unstable := false; Job.deps := [1];
                       Job.products := []; Job.capabilities := ∅;
                       Job.status := JobStatus.RUNNING;
                       Job.exit_code := None; Job.run_time := None |}) ] |}.

(** C3, as the spec has it, fails: ["tool:t"] has a failed dependency,
    ["tool:u"] depends on its product, and after [fail] on ["tool:t"] the
    job ["tool:u"] is [WAITING_FOR_DONE], which is not terminal. *)
Lemma fail_cascade_counterexample :
  (exists j, Job.job_at cascade_graph 0 = Some j
             /\ existsb (is_failed (Job.objects cascade_graph)) (Job.deps j)
                = true)
  /\ cascades cascade_graph 0 1
  /\ (Job.status <$> Job.job_at (Job.fail 0 cascade_graph) 1)
     = Some JobStatus.WAITING_FOR_DONE
  /\ JobStatus.terminating JobStatus.WAITING_FOR_DONE = false.
Proof.
  split; [eexists; split; reflexivity|]. split; [|split; reflexivity].
  eapply (cascades_consumer cascade_graph 0 0 1 1);
    [apply cascades_self | reflexivity | | reflexivity | reflexivity
    | reflexivity | reflexivity].
  apply list_elem_of_here.
Qed.

Lemma fail_cascade_closed_witness :
  Job.fail_fuel 3 0 cascade_graph = Some (Job.fail 0 cascade_graph)
  /\ (forall p a a',
        p ∈ [1] ->
        Job.objects cascade_graph !! p = Some a ->
        Job.objects (Job.fail 0 cascade_graph) !! p = Some a' ->
        Artifact.failed a' = true
        /\ (Artifact.failed a = false \/ Artifact.received a = true ->
            Artifact.received a' = true))
  /\ (forall k jk,
        cascades cascade_graph 0 k ->
        Job.job_at cascade_graph k = Some jk ->
        exists jk',
          Job.job_at (Job.fail 0 cascade_graph) k = Some jk'
          /\ (Job.status jk <> JobStatus.RUNNING ->
              Job.status jk' = final_status (Job.unstable jk)
              /\ JobStatus.terminating (Job.status jk') = true)
          /\ (Job.status jk = JobStatus.RUNNING ->
              Job.status jk' = JobStatus.WAITING_FOR_DONE
              \/ Job.status jk' = final_status (Job.unstable jk))).
Proof.
  exact (fail_cascade_closed cascade_graph 0 _ eq_refl).
Defined.

(** ** The message module and the coordinator

    [coordinator/__init__.py] and [worker/__init__.py] ask more of
    [JobMessage] and [BuildState] than [messages.py] declares: the
    attributes [commits_object], [mirror_root] and [distfile_path] of the
    first, the member [UPDATING_MIRRORS] of the second. *)

(** The call [msgs.JobMessage(...)] of the solver never returns. *)
Lemma job_request_is_a_type_error (inst : Xbbs.t) (projinfo : Project.t)
  (build : Build.t) (name : string) (job : Job.t) (keys : value) :
  attrs_init (cls_fields JobMessage)
    (job_request_kwargs inst projinfo build name job keys)
  = Raise (TypeError "unexpected keyword argument: commits_object").
Proof. reflexivity. Qed.

(** The attributes [JobMessage] has and those the call gives it. *)
Lemma job_message_attributes :
  (cls_fields JobMessage).*1
  = ["project"; "job"; "repository"; "revision"; "output"; "build_root";
     "needed_pkgs"; "needed_tools"; "prod_pkgs"; "prod_tools"; "prod_files";
     "tool_repo"; "pkg_repo"; "rolling_ids"; "xbps_keys"]
  /\ forall inst projinfo build name job keys,
       (job_request_kwargs inst projinfo build name job keys).*1
       = ["project"; "job"; "repository"; "revision"; "output"; "build_root";
          "needed_tools"; "needed_pkgs"; "prod_pkgs"; "prod_tools";
          "prod_files"; "tool_repo"; "pkg_repo"; "commits_object";
          "xbps_keys"; "mirror_root"; "distfile_path"].
Proof. split; reflexivity. Qed.

(** The dispatch of a job makes it [RUNNING] and then raises: nothing is
    put on the queue. *)
Lemma dispatch_raises `{Msgpack} (env : Env) (project : string)
  (projinfo : Project.t) (i : nat) (name : string) (job : Job.t)
  (inst : Xbbs.t) (build : Build.t) :
  Xbbs.current project inst = Some build ->
  truthy (Project.fingerprint projinfo) = false ->
  dispatch env messages project projinfo i name job inst
  = (Xbbs.alter_current (fun b =>
       Build.set_graph_field
         (Job.alter_job (Job.set_status JobStatus.RUNNING) i (Build.graph b)) b)
       project inst,
     Raise (TypeError "unexpected keyword argument: commits_object")).
Proof.
  intros C F. unfold dispatch. rewrite F. unfold write_job. prog_run.
  rewrite current_alter_current, C. reflexivity.
Qed.

(** A coordinator whose project has a build with one job, which waits
    and needs nothing. *)
Definition ready_build : Build.t :=
  Build.set_graph_field
    {| Job.objects := [example_artifact];
       Job.jobs := [("package:p", Job.set_status JobStatus.WAITING example_job)] |}
    example_build.

Definition ready_coordinator : Xbbs.t :=
  example_coordinator (example_project (Some ready_build)).

(** C1, on the code.  The solver finds the job ["package:p"] ready: all
    its dependencies (it has none) are received and none failed.  It
    makes the job [RUNNING]; the call [msgs.JobMessage(...)] raises a
    [TypeError], as the class has no [commits_object]; no message is put
    on the queue. *)
Theorem solver_dispatch_raises :
  let out :=
    @solve_scan reference_msgpack reference_env messages "demo"
      (example_project (Some ready_build)) ready_coordinator in
  out.2 = Raise (TypeError "unexpected keyword argument: commits_object")
  /\ Xbbs.outgoing_job_queue out.1 = []
  /\ ((fun b => (fun kv => (kv.1, Job.status kv.2)) <$> Build.jobs b)
        <$> Xbbs.current "demo" out.1)
     = Some [("package:p", JobStatus.RUNNING)].
Proof. vm_compute. repeat split; reflexivity. Qed.

(** [build.update_state(msgs.BuildState.UPDATING_MIRRORS)] raises. *)
Lemma updating_mirrors_is_no_state (project : string) (inst : Xbbs.t) :
  BuildState.getattr "UPDATING_MIRRORS" = Raise (AttributeError "UPDATING_MIRRORS")
  /\ update_state project "UPDATING_MIRRORS" inst
     = (inst, Raise (AttributeError "UPDATING_MIRRORS"))
  /\ BuildState.members.*1
     = ["SCHEDULED"; "FETCH"; "SETUP"; "CALCULATING"; "SETUP_REPOS";
        "RUNNING"; "DONE"].
Proof. repeat split; reflexivity. Qed.

(** The states written to the status file, in order. *)
Definition states_stored (trace : list event) : list string :=
  omap (fun e => match e with
                 | StoreStatus _ s => Some (snap_state s)
                 | _ => None
                 end) trace.

(** The programs run, in order. *)
Definition programs_run (trace : list event) : list string :=
  omap (fun e => match e with
                 | Command (program :: _) _ => Some program
                 | _ => None
                 end) trace.

Definition mirrored_project : Project.t :=
  {| Project.name := "demo";
     Project.git := "https://example.org/demo.git";
     Project.description := "";
     Project.classes := [];
     Project.packages := "https://example.org/packages";
     Project.tools := "https://example.org/tools";
     Project.base := "/srv/xbbs/demo";
     Project.distfile_path := "xbbs/";
     Project.incremental := false;
     Project.fingerprint := None;
     Project.current := Some new_build;
     Project.mirror_root := Some "https://mirror.example.org";
     Project.default_branch := "master" |}.

(** C5, on the code.  A project with [mirror_root] set, in a world where
    every command succeeds: the build goes through [FETCH] and [SETUP],
    then [msgs.BuildState.UPDATING_MIRRORS] raises an [AttributeError],
    the build is closed as [DONE] without success, and [xbstrap-mirror]
    was never run. *)
Theorem run_project_with_mirror_root :
  let inst' :=
    @run_project reference_msgpack reference_blake2b reference_env messages
      8 "demo" VNone [] (example_coordinator mirrored_project) in
  states_stored (Xbbs.trace inst') = ["FETCH"; "SETUP"; "DONE"]
  /\ programs_run (Xbbs.trace inst')
     = ["git"; "git"; "git"; "git"; "git"; "xbstrap"]
  /\ last (Xbbs.trace inst')
     = Some (StoreStatus "/srv/xbbs/demo/20260101_000000/coordinator"
               {| snap_state := "DONE"; snap_jobs := [];
                  snap_incremental := false; snap_revision := None;
                  snap_success := Some false |})
  /\ Xbbs.current "demo" inst' = None.
Proof. vm_compute. repeat split; reflexivity. Qed.

(** ** The build command ([cmd_build]) *)

(** [cmd_build] unpacks its argument with [msgs.BuildMessage].  The
    module [xbbs/messages.py] has a [ScheduleMessage], with [project] and
    [delay], and no class of that name. *)
Lemma BuildMessage_not_in_messages_py :
  module_getattr messages "BuildMessage" = Raise (AttributeError "BuildMessage").
Proof. reflexivity. Qed.

(** C9.  With the message module as it is, a build command is never
    refused with 409 and never makes a [Build]: whatever its argument and
    whatever the project it names, [cmd_build] raises [AttributeError] on
    [msgs.BuildMessage] before it looks at the projects, the command loop
    answers 500, and the coordinator is as before. *)
Theorem build_command_raises `{Msgpack} (env : Env) (now : string)
  (arg : bytes) (inst : Xbbs.t) :
  cmd_build env messages now arg inst
  = (inst, Raise (AttributeError "BuildMessage"))
  /\ (command_step env messages now "build" arg inst).1 = inst
  /\ (command_step env messages now "build" arg inst).2.1 = "500".
Proof. repeat split. Qed.

(** ** The reads of [upload] on a regular file *)

Lemma substring_whole (s : string) : substring 0 (String.length s) s = s.
Proof. induction s as [|c s IH]; simpl; [reflexivity | now rewrite IH]. Qed.

Lemma substring_split (n : nat) (s : string) :
  substring 0 n s +:+ substring n (String.length s - n) s = s.
Proof.
  revert s. induction n as [|n IH]; intros s.
  - rewrite Nat.sub_0_r, substring_whole. now destruct s.
  - destruct s as [|c s]; [reflexivity|]. simpl.
    rewrite append_cons. now rewrite IH.
Qed.

Lemma substring_rest_length (n : nat) (s : string) :
  String.length (substring n (String.length s - n) s) = String.length s - n.
Proof.
  revert s. induction n as [|n IH]; intros s.
  - now rewrite Nat.sub_0_r, substring_whole.
  - destruct s as [|c s]; [reflexivity|]. simpl. apply IH.
Qed.

(** Read [size] bytes at a time, a file gives its contents in non-empty
    chunks. *)
Lemma file_reads_contents (size : nat) :
  0 < size ->
  forall fuel contents,
    String.length contents <= fuel ->
    join (file_reads fuel size contents) = contents
    /\ Forall (fun c => c <> "") (file_reads fuel size contents).
Proof.
  intros Hs. induction fuel as [|fuel IH]; intros contents L.
  - destruct contents; [split; [reflexivity | constructor]|]. simpl in L. lia.
  - destruct contents as [|c contents]; [split; [reflexivity | constructor]|].
    cbn [file_reads].
    set (s := String c contents) in *.
    destruct (IH (substring size (String.length s - size) s)) as [J F].
    { rewrite substring_rest_length. simpl in L. subst s. simpl. lia. }
    split.
    + cbn [join foldr]. fold (join (file_reads fuel size
        (substring size (String.length s - size) s))).
      rewrite J. apply substring_split.
    + constructor; [|exact F].
      destruct size as [|size]; [lia|]. subst s. discriminate.
Qed.

(** The chunk stream of a file that is not empty, read [CHUNK_SIZE] bytes
    at a time: what the intake has of it in the end. *)
Corollary upload_delivers_file `{Msgpack} `{Blake2b} (env : Env)
  (contents : bytes) (inst : Xbbs.t) :
  contents <> "" ->
  let reads := file_reads (String.length contents) CHUNK_SIZE contents in
  let sent := send_chunks "initial" reads in
  let inst' := intake env sent.1 inst in
  exists store,
    Xbbs.table inst' !! sent.2 = Some store
    /\ Xbbs.files inst' !! Xbbs.fd store = Some contents
    /\ hasher_digest (Xbbs.digest_fn store) = blake2b_digest contents.
Proof.
  intros Hne reads sent inst'.
  assert (Hs : 0 < CHUNK_SIZE) by (unfold CHUNK_SIZE; lia).
  destruct (file_reads_contents CHUNK_SIZE Hs (String.length contents)
              contents (le_n _)) as [J F].
  fold reads in J, F.
  assert (R : reads <> []).
  { intros E. rewrite E in J. simpl in J. congruence. }
  subst sent inst'.
  destruct F as [|data rest Hd Hall]; [congruence|].
  simpl. destruct data as [|c data]; [congruence|]. simpl.
  fold (chunk_message "initial" (String c data)).
  set (value := chunk_message "initial" (String c data)).
  destruct (cmd_chunk_initial (String c data) inst)
    as (inst1 & E & (path & T) & Fi).
  fold value in E, T.
  pose proof (chunk_stream_continues env rest Hall (blake2b_digest value)
                _ inst1 (blake2b_digest_size value) T Fi) as K.
  destruct (send_chunks (blake2b_digest value) rest) as [frames last].
  destruct K as (store' & T' & Efd & _ & Efed & F').
  exists store'. simpl. rewrite (intake_chunk env _ _ _ E).
  unfold hasher_digest. rewrite F', Efed. simpl. simpl in J. rewrite J. auto.
Qed.

(** * Further properties *)

(** ** The message codec ([BaseMessage.pack], [BaseMessage.unpack]) *)

Lemma attrs_fill_keys (fs : fields) (kwargs : list (string * value))
  (o : instance) :
  attrs_fill fs kwargs = Ok o -> o.*1 = fs.*1.
Proof.
  revert o. induction fs as [|[n d] fs IH]; intros o; simpl.
  - now intros [= <-].
  - destruct (match dict_get kwargs n with
              | Some v => Ok v
              | None => match d with
                        | Some d0 => Ok d0
                        | None => Raise (TypeError ("missing required argument: " +:+ n))
                        end
              end) as [v|e]; simpl; [|discriminate].
    destruct (attrs_fill fs kwargs) as [o'|e]; simpl; [|discriminate].
    intros [= <-]. simpl. f_equal. now apply IH.
Qed.

Lemma attrs_init_keys (fs : fields) (kwargs : list (string * value))
  (o : instance) :
  attrs_init fs kwargs = Ok o -> o.*1 = fs.*1.
Proof.
  unfold attrs_init. destruct (find _ kwargs) as [[k v]|]; [discriminate|].
  apply attrs_fill_keys.
Qed.

(** The value a keyword gives an attribute is the value of the attribute. *)
Lemma attrs_fill_get (fs : fields) (kwargs : list (string * value))
  (o : instance) (n : string) (v : value) :
  attrs_fill fs kwargs = Ok o ->
  dict_mem fs n = true ->
  dict_get kwargs n = Some v ->
  dict_get o n = Some v.
Proof.
  revert o. induction fs as [|[n' d] fs IH]; intros o; simpl.
  - intros _ M. discriminate M.
  - intros E M G. unfold dict_mem in M. simpl in M.
    destruct (String.eqb_spec n' n) as [->|N].
    + rewrite G in E. simpl in E.
      destruct (attrs_fill fs kwargs) as [o'|e]; simpl in E; [|discriminate].
      injection E as <-. simpl. now rewrite String.eqb_refl.
    + destruct (match dict_get kwargs n' with
                | Some v => Ok v
                | None => match d with
                          | Some d0 => Ok d0
                          | None => Raise (TypeError ("missing required argument: " +:+ n'))
                          end
                end) as [v'|e]; simpl in E; [|discriminate].
      destruct (attrs_fill fs kwargs) as [o'|e] eqn:F; simpl in E; [|discriminate].
      injection E as <-. simpl.
      destruct (String.eqb_spec n' n) as [|_]; [contradiction|].
      apply IH; auto.
Qed.

Lemma dict_get_elem {V} (d : list (string * V)) (k : string) (v : V) :
  dict_get d k = Some v -> (k, v) ∈ d.
Proof.
  induction d as [|[k' v'] d IH]; simpl; [discriminate|].
  destruct (String.eqb_spec k' k) as [->|_].
  - intros [= ->]. apply list_elem_of_here.
  - intros G. apply list_elem_of_further, IH, G.
Qed.

Lemma find_none_elem {A} (p : A -> bool) (l : list A) (x : A) :
  find p l = None -> x ∈ l -> p x = false.
Proof.
  induction l as [|y l IH]; intros F M; [inversion M|]. simpl in F.
  destruct (p y) eqn:P; [discriminate|].
  apply elem_of_cons in M as [->|M]; auto.
Qed.

(** X1.  What [unpack] returns has exactly the attributes of its class, in
    order, and every required property of the validator of the class is
    an attribute whose value passes the validator of the property. *)
Theorem unpack_is_validated `{Msgpack} (cls : message_class) (data : bytes)
  (o : instance) :
  unpack cls data = Ok o ->
  o.*1 = (cls_fields cls).*1
  /\ forall p,
       p ∈ cls_validator cls ->
       prop_required p = true ->
       exists v,
         dict_get o (prop_name p) = Some v
         /\ vtype_ok (prop_type p) v = true.
Proof.
  unfold unpack. destruct (loads data) as [x|]; simpl; [|discriminate].
  unfold validate. destruct x as [| | | | | |d]; simpl; try discriminate.
  destruct (find _ (cls_validator cls)) as [p|] eqn:F; simpl; [discriminate|].
  intros I. split; [now apply attrs_init_keys in I|].
  intros p M R. pose proof (find_none_elem _ _ p F M) as K.
  apply negb_false_iff in K. unfold property_ok in K.
  destruct (dict_get d (prop_name p)) as [v|] eqn:G.
  2:{ rewrite R in K. discriminate K. }
  exists v. split; [|exact K].
  unfold attrs_init in I.
  destruct (find _ d) as [[k w]|] eqn:U; [discriminate|].
  pose proof (find_none_elem _ _ _ U (dict_get_elem _ _ _ G)) as Q.
  apply negb_false_iff in Q. simpl in Q.
  eapply attrs_fill_get; eauto.
Qed.

(** The dictionary a message is sent as: [attr.asdict(self, filter=...)]. *)
Definition wire (cls : message_class) (o : instance) : list (string * value) :=
  filter (fun kv => cls_filter cls kv.2 = true) o.

Lemma validate_ok (schema : list property) (d d' : list (string * value)) :
  validate schema (VDict d) = Ok d' -> d' = d.
Proof.
  unfold validate. destruct (find _ schema); [discriminate|]. now intros [= <-].
Qed.

(** Gives an instance whose attribute names are known its shape. *)
Ltac instance_shape o E :=
  simpl in E;
  repeat (destruct o as [|[? ?] o];
          [discriminate E | simpl in E; injection E as ? E; subst]);
  destruct o; [clear E | discriminate E].

Lemma unpack_pack_keep_all `{Msgpack} (cls : message_class) (o : instance) :
  cls_filter cls = keep_all ->
  (exists d, validate (cls_validator cls) (VDict (wire cls o)) = Ok d) ->
  attrs_init (cls_fields cls) o = Ok o ->
  unpack cls (pack cls o) = Ok o.
Proof.
  intros K [d V] I. unfold unpack, pack. fold (wire cls o).
  assert (W : wire cls o = o).
  { unfold wire, instance. rewrite K. clear.
    induction o as [|kv o IH]; [reflexivity|].
    rewrite filter_cons_True by reflexivity. now rewrite IH. }
  rewrite W in *. rewrite loads_dumps. cbn [mbind result_bind].
  rewrite V, (validate_ok _ _ _ V). exact I.
Qed.

(** The classes of [messages.py] whose attributes the validator takes
    as strings, bytes, booleans and numbers, and hands on as they are.
    ([Heartbeat] and [StatusMessage] have a [load] that the validator
    adapts to a tuple; [JobMessage] has mappings and a list.) *)
Definition scalar_messages : list string :=
  ["WorkMessage"; "ArtifactMessage"; "LogMessage"; "ChunkMessage";
   "JobCompletionMessage"; "ScheduleMessage"].

(** X2.  A message of one of the classes [WorkMessage],
    [ArtifactMessage], [LogMessage], [ChunkMessage],
    [JobCompletionMessage] and [ScheduleMessage], whose integers
    [msgpack] can pack and which passes the validator of its class, comes
    back from [unpack(pack(...))] as it was. *)
Theorem unpack_pack_round_trip `{Msgpack} (name : string)
  (cls : message_class) (kwargs : list (string * value)) (o : instance) :
  name ∈ scalar_messages ->
  module_getattr messages name = Ok cls ->
  attrs_init (cls_fields cls) kwargs = Ok o ->
  packable (VDict o) = true ->
  (exists d, validate (cls_validator cls) (VDict (wire cls o)) = Ok d) ->
  unpack cls (pack cls o) = Ok o.
Proof.
  intros N M I _ V. apply attrs_init_keys in I. unfold scalar_messages in N.
  repeat (apply elem_of_cons in N as [->|N]); [.. | inversion N].
  all: injection M as <-;
       (apply unpack_pack_keep_all; [reflexivity | exact V |]);
       instance_shape o I; reflexivity.
Qed.

Lemma unpack_pack_round_trip_witness :
  let o := [("project", VStr "demo"); ("job", VStr "package:p");
            ("exit_code", VNum (Int 2)); ("run_time", VNum (Float 3 (-1)))] in
  @unpack reference_msgpack JobCompletionMessage
    (@pack reference_msgpack JobCompletionMessage o)
  = Ok o.
Proof.
  apply (@unpack_pack_round_trip reference_msgpack "JobCompletionMessage"
           JobCompletionMessage
           [("run_time", VNum (Float 3 (-1))); ("exit_code", VNum (Int 2));
            ("job", VStr "package:p"); ("project", VStr "demo")]).
  - unfold scalar_messages. repeat constructor.
  - reflexivity.
  - reflexivity.
  - reflexivity.
  - eexists. vm_compute. reflexivity.
Defined.

Lemma unpack_is_validated_witness :
  let o := [("project", VStr "demo"); ("job", VStr "package:p");
            ("line", VStr "building")] in
  o.*1 = (cls_fields LogMessage).*1
  /\ forall p,
       p ∈ cls_validator LogMessage ->
       prop_required p = true ->
       exists v,
         dict_get o (prop_name p) = Some v
         /\ vtype_ok (prop_type p) v = true.
Proof.
  apply (@unpack_is_validated reference_msgpack LogMessage
           (@pack reference_msgpack LogMessage
              [("project", VStr "demo"); ("job", VStr "package:p");
               ("line", VStr "building")])).
  vm_compute. reflexivity.
Defined.

(** ** The progress stream of a job ([parse_yaml_stream]) *)

Lemma lstrip_empty : lstrip "" = "".
Proof. reflexivity. Qed.







(** Two notifications and a last one that was not ended. *)
Example parse_yaml_stream_example :
  parse_yaml_stream (fun b => Ok (VStr b))
    ["action: pack" +:+ String (Ascii.ascii_of_nat 10) "";
     "..." +:+ String (Ascii.ascii_of_nat 10) "";
     " ...  "; "status: success"]
  = ([VStr ("action: pack" +:+ String (Ascii.ascii_of_nat 10) ""
            +:+ "..." +:+ String (Ascii.ascii_of_nat 10) "");
      VStr " ...  "; VStr "status: success"], None).
Proof. reflexivity. Qed.

(** ** The package registry ([load_package_registries]) *)

(** [sep in s] *)
Fixpoint has_char (sep : Ascii.ascii) (s : string) : bool :=
  match s with
  | EmptyString => false
  | String c s' => Ascii.eqb c sep || has_char sep s'
  end.

Lemma rsplit1_spec (sep : Ascii.ascii) (s : string) :
  match rsplit1 sep s with
  | Some (h, t) => s = h +:+ String sep t /\ has_char sep t = false
  | None => has_char sep s = false
  end.
Proof.
  induction s as [|c s IH]; simpl; [reflexivity|].
  destruct (rsplit1 sep s) as [[h t]|].
  - destruct IH as [-> N]. split; [reflexivity | exact N].
  - destruct (Ascii.eqb_spec c sep) as [->|Ne]; simpl.
    + split; [reflexivity | exact IH].
    + exact IH.
Qed.

Lemma rsplit1_last (sep : Ascii.ascii) (h t : string) :
  has_char sep t = false -> rsplit1 sep (h +:+ String sep t) = Some (h, t).
Proof.
  intros N. assert (T : rsplit1 sep t = None).
  { pose proof (rsplit1_spec sep t) as S.
    destruct (rsplit1 sep t) as [[h' t']|]; [|reflexivity].
    destruct S as [-> _]. exfalso. clear -N.
    induction h' as [|c h' IH].
    - change (has_char sep (String sep t') = false) in N. simpl in N.
      now rewrite Ascii.eqb_refl in N.
    - rewrite append_cons in N. simpl in N.
      apply orb_false_iff in N as [_ N]. auto. }
  induction h as [|c h IH].
  - simpl. now rewrite T, Ascii.eqb_refl.
  - rewrite append_cons. simpl. now rewrite IH.
Qed.

(** [s.rpartition(sep)] cuts [s] at the last [sep]. *)
Lemma rpartition_spec (sep : Ascii.ascii) (s : string) :
  match rpartition sep s with
  | (h, m, t) =>
      s = h +:+ m +:+ t
      /\ has_char sep t = false
      /\ (if has_char sep s then m = String sep "" else h = "" /\ m = "")
  end.
Proof.
  unfold rpartition. pose proof (rsplit1_spec sep s) as S.
  destruct (rsplit1 sep s) as [[h t]|].
  - destruct S as [-> N]. split; [reflexivity|]. split; [exact N|].
    assert (has_char sep (h +:+ String sep t) = true) as ->; [|reflexivity].
    clear. induction h as [|c h IH].
    + change (has_char sep (String sep t) = true). simpl.
      now rewrite Ascii.eqb_refl.
    + rewrite append_cons. simpl. rewrite IH. apply orb_true_r.
  - rewrite S. auto.
Qed.

Lemma dict_get_set {V} (d : list (string * V)) (k k' : string) (v : V) :
  dict_get (dict_set d k v) k'
  = if String.eqb k k' then Some v else dict_get d k'.
Proof.
  induction d as [|[k0 v0] d IH]; simpl.
  - destruct (String.eqb k k'); reflexivity.
  - destruct (String.eqb_spec k0 k) as [->|N]; simpl.
    + destruct (String.eqb k k'); reflexivity.
    + rewrite IH. destruct (String.eqb_spec k0 k') as [->|N'];
        [|reflexivity].
      destruct (String.eqb_spec k k') as [->|_]; [contradiction | reflexivity].
Qed.

(** The version [load_package_registries] reads off a mapping of
    [xbps] repository data. *)
Definition pkgver_version (info : list (string * value)) : option string :=
  match dict_get info "pkgver" with
  | Some (VStr s) => Some (rpartition dash s).2
  | _ => None
  end.

Lemma registry_versions_spec (rd : list (string * list (string * value)))
  (keys : list string) :
  forall pkgs pkgs',
    registry_versions rd keys pkgs = Ok pkgs' ->
    forall pkg,
      dict_get pkgs' pkg
      = if bool_decide (pkg ∈ keys) then dict_get rd pkg ≫= pkgver_version
        else dict_get pkgs pkg.
Proof.
  induction keys as [|k keys IH]; intros pkgs pkgs'; simpl.
  - intros [= <-] pkg. reflexivity.
  - destruct (dict_get rd k) as [info|] eqn:R; simpl; [|discriminate].
    destruct (dict_get info "pkgver") as [[| | |s| | |]|] eqn:P; simpl;
      try discriminate.
    intros E pkg. rewrite (IH _ _ E pkg).
    destruct (decide (pkg ∈ keys)) as [M|M].
    + rewrite !bool_decide_eq_true_2; auto. now apply list_elem_of_further.
    + rewrite (bool_decide_eq_false_2 _ M), dict_get_set.
      destruct (String.eqb_spec k pkg) as [->|N].
      * rewrite bool_decide_eq_true_2 by apply list_elem_of_here.
        rewrite R. simpl. unfold pkgver_version. now rewrite P.
      * rewrite bool_decide_eq_false_2; [reflexivity|].
        rewrite elem_of_cons. intros [->|?]; [congruence | contradiction].
Qed.

Lemma dict_get_keys {V} (d : list (string * V)) (k : string) :
  k ∈ d.*1 <-> is_Some (dict_get d k).
Proof.
  induction d as [|[k' v] d IH]; simpl.
  - split; [intros M; inversion M | intros [? E]; discriminate E].
  - rewrite elem_of_cons, IH.
    destruct (String.eqb_spec k' k) as [->|N]; split; eauto.
    intros [->|?]; [contradiction | assumption].
Qed.

(** X4.  [load_package_registries], on a directory with one
    [*-repodata] file: the version it gives a package is what follows the
    last ["-"] of its [pkgver], so for [<name>-<version>] with no ["-"]
    in the version it is [<version>].  With no such file, or no
    directory, it gives no versions; with several files it raises. *)
Theorem load_package_registries_versions (listing : option (list string))
  (read_xbps_repodata
     : string -> result (list (string * list (string * value))))
  (pkgs : list (string * string)) :
  load_package_registries listing read_xbps_repodata = Ok pkgs ->
  (exists rdf rd,
     filter (fun x => endswith x "-repodata" = true) (default [] listing)
     = [rdf]
     /\ read_xbps_repodata rdf = Ok rd
     /\ (forall pkg, dict_get pkgs pkg = dict_get rd pkg ≫= pkgver_version)
     /\ forall pkg info name version,
          dict_get rd pkg = Some info ->
          dict_get info "pkgver" = Some (VStr (name +:+ "-" +:+ version)) ->
          has_char dash version = false ->
          dict_get pkgs pkg = Some version)
  \/ (filter (fun x => endswith x "-repodata" = true) (default [] listing) = []
      /\ pkgs = []).
Proof.
  unfold load_package_registries.
  assert (L : match listing with
              | Some xs => filter (fun x => endswith x "-repodata" = true) xs
              | None => []
              end
              = filter (fun x => endswith x "-repodata" = true)
                  (default [] listing)) by (destruct listing; reflexivity).
  rewrite L. clear L.
  destruct (filter _ (default [] listing)) as [|rdf [|rdf' files]];
    [intros [= <-]; right; auto | | discriminate].
  destruct (read_xbps_repodata rdf) as [rd|e] eqn:R; simpl; [|discriminate].
  intros E. left. exists rdf, rd. split; [reflexivity|]. split; [exact R|].
  assert (K : forall pkg, dict_get pkgs pkg = dict_get rd pkg ≫= pkgver_version).
  { intros pkg. rewrite (registry_versions_spec _ _ _ _ E pkg).
    destruct (decide (pkg ∈ rd.*1)) as [M|M].
    - now rewrite bool_decide_eq_true_2.
    - rewrite bool_decide_eq_false_2 by exact M. simpl.
      destruct (dict_get rd pkg) eqn:G; [|reflexivity].
      exfalso. apply M, dict_get_keys. eauto. }
  split; [exact K|].
  intros pkg info name version G P N. rewrite K, G. simpl.
  unfold pkgver_version. rewrite P. unfold rpartition.
  change (name +:+ "-" +:+ version) with (name +:+ String dash version).
  now rewrite rsplit1_last.
Qed.

Definition example_repodata : list (string * list (string * value)) :=
  [("gcc", [("pkgver", VStr "gcc-10.2.0_1"); ("architecture", VStr "x86_64")]);
   ("xbps-triggers", [("pkgver", VStr "xbps-triggers-0.118_1")])].

Lemma load_package_registries_versions_witness :
  let listing := Some ["/srv/rolling/package_repo/x86_64-repodata";
                       "/srv/rolling/package_repo/gcc-10.2.0_1.x86_64.xbps"] in
  let pkgs := [("gcc", "10.2.0_1"); ("xbps-triggers", "0.118_1")] in
  (exists rdf rd,
     filter (fun x => endswith x "-repodata" = true) (default [] listing)
     = [rdf]
     /\ (fun _ => Ok example_repodata) rdf = Ok rd
     /\ (forall pkg, dict_get pkgs pkg = dict_get rd pkg ≫= pkgver_version)
     /\ forall pkg info name version,
          dict_get rd pkg = Some info ->
          dict_get info "pkgver" = Some (VStr (name +:+ "-" +:+ version)) ->
          has_char dash version = false ->
          dict_get pkgs pkg = Some version)
  \/ (filter (fun x => endswith x "-repodata" = true) (default [] listing) = []
      /\ pkgs = []).
Proof.
  apply (load_package_registries_versions
           (Some ["/srv/rolling/package_repo/x86_64-repodata";
                  "/srv/rolling/package_repo/gcc-10.2.0_1.x86_64.xbps"])
           (fun _ => Ok example_repodata)).
  reflexivity.
Defined.

(** Two repository indexes are two architectures. *)
Example load_package_registries_multiarch :
  load_package_registries (Some ["x86_64-repodata"; "aarch64-repodata"])
    (fun _ => Ok example_repodata)
  = Raise (RuntimeError "multiarch builds unsupported").
Proof. reflexivity. Qed.

(** ** The commits object of a build ([run_project]) *)

Lemma merge_commits_get (field : string) (items : list (string * value)) :
  NoDup items.*1 ->
  forall commits k,
    dict_get (merge_commits field items commits) k
    = match dict_get items k with
      | Some v =>
          Some (VDict (dict_set match dict_get commits k with
                                | Some (VDict d) => d
                                | _ => []
                                end field v))
      | None => dict_get commits k
      end.
Proof.
  unfold merge_commits.
  induction items as [|[k0 v0] items IH]; intros N commits k; simpl;
    [reflexivity|].
  apply NoDup_cons in N as [N0 N]. rewrite (IH N), dict_get_set. simpl.
  destruct (String.eqb_spec k0 k) as [->|Ne]; [|reflexivity].
  destruct (dict_get items k) eqn:G; [|reflexivity].
  exfalso. apply N0, dict_get_keys. eauto.
Qed.

(** X5.  The commits object [run_project] hands to [set_graph]: a
    package is in it exactly when it has a rolling id or a variable
    commit, with the first under ["rolling_id"] and the second under
    ["fixed_commit"], and with nothing else. *)
Theorem commits_object_entries (rolling_ids variable_commits
                                  : list (string * value)) (k : string) :
  NoDup rolling_ids.*1 ->
  NoDup variable_commits.*1 ->
  dict_get (merge_commits "fixed_commit" variable_commits
              (merge_commits "rolling_id" rolling_ids [])) k
  = match dict_get rolling_ids k, dict_get variable_commits k with
    | Some r, Some v => Some (VDict [("rolling_id", r); ("fixed_commit", v)])
    | Some r, None => Some (VDict [("rolling_id", r)])
    | None, Some v => Some (VDict [("fixed_commit", v)])
    | None, None => None
    end.
Proof.
  intros NR NV. rewrite (merge_commits_get _ _ NV), (merge_commits_get _ _ NR).
  simpl. destruct (dict_get rolling_ids k), (dict_get variable_commits k);
    reflexivity.
Qed.

Lemma commits_object_entries_witness :
  dict_get (merge_commits "fixed_commit" [("gcc", VStr "0a1b2c")]
              (merge_commits "rolling_id"
                 [("gcc", VNum (Int 7)); ("mlibc", VNum (Int 3))] [])) "gcc"
  = Some (VDict [("rolling_id", VNum (Int 7));
                 ("fixed_commit", VStr "0a1b2c")]).
Proof.
  apply (commits_object_entries
           [("gcc", VNum (Int 7)); ("mlibc", VNum (Int 3))]
           [("gcc", VStr "0a1b2c")] "gcc").
  - compute_done.
  - compute_done.
Defined.

(** ** The fail command ([cmd_fail]) *)

Lemma touched_not_waiting (j j' : Job.t) :
  touched j j' -> Job.status j' <> JobStatus.WAITING.
Proof.
  intros [T | [_ T]]; rewrite T; [destruct (Job.unstable j)|]; discriminate.
Qed.

Lemma job_le_not_waiting (kv kv' : string * Job.t) :
  job_le kv kv' ->
  Job.status kv.2 <> JobStatus.WAITING ->
  Job.status kv'.2 <> JobStatus.WAITING.
Proof.
  intros (_ & _ & _ & _ & _ & [E | T]) N; [congruence|].
  eapply touched_not_waiting; eauto.
Qed.

(** One turn of the loop of [cmd_fail]. *)
Definition fail_if_waiting (g : Job.graph) (i : nat) : Job.graph :=
  match Job.job_at g i with
  | Some x =>
      if JobStatus.eqb (Job.status x) JobStatus.WAITING then Job.fail i g
      else g
  | None => g
  end.

Lemma JobStatus_eqb_eq (a b : JobStatus.t) :
  JobStatus.eqb a b = true <-> a = b.
Proof. destruct a, b; simpl; split; congruence. Qed.

Lemma fail_if_waiting_spec (g : Job.graph) (i : nat) :
  evolves g (fail_if_waiting g i)
  /\ forall j', Job.job_at (fail_if_waiting g i) i = Some j' ->
                Job.status j' <> JobStatus.WAITING.
Proof.
  unfold fail_if_waiting. destruct (Job.job_at g i) as [x|] eqn:J.
  2:{ split; [apply evolves_refl|]. congruence. }
  destruct (JobStatus.eqb (Job.status x) JobStatus.WAITING) eqn:W.
  - destruct (fail_terminates g i) as (g' & _ & -> & Ev & _ & P).
    split; [exact Ev|]. intros j' J'.
    destruct (P x J) as (j'' & J'' & T & _).
    assert (j'' = j') as -> by congruence.
    eapply touched_not_waiting; eauto.
  - split; [apply evolves_refl|]. intros j' J'.
    assert (j' = x) as -> by congruence.
    intros E. rewrite E in W. discriminate W.
Qed.

Lemma fail_waiting_loop (ks : list nat) :
  forall g,
    let g' := foldl fail_if_waiting g ks in
    evolves g g'
    /\ forall k j',
         Job.job_at g' k = Some j' ->
         k ∈ ks
         \/ (exists j, Job.job_at g k = Some j
                       /\ Job.status j <> JobStatus.WAITING) ->
         Job.status j' <> JobStatus.WAITING.
Proof.
  induction ks as [|i ks IH]; intros g; simpl.
  - split; [apply evolves_refl|]. intros k j' J' [M | (j & J & N)].
    + inversion M.
    + congruence.
  - destruct (fail_if_waiting_spec g i) as [Ev1 Self].
    destruct (IH (fail_if_waiting g i)) as [Ev Rest].
    split; [eapply evolves_trans; eauto|].
    intros k j' J' Hk. apply (Rest k j' J').
    destruct (evolves_job_r _ _ _ _ Ev J') as (j1 & n & J1 & _).
    destruct Hk as [M | (j & J & N)].
    + apply elem_of_cons in M as [->|M]; [|auto].
      right. exists j1. split; [exact J1 | now apply Self].
    + right. exists j1. split; [exact J1|].
      destruct (evolves_job _ _ _ _ Ev1 J) as (j1' & n' & J1' & Le).
      assert (j1' = j1) as -> by congruence.
      now apply (job_le_not_waiting _ _ Le).
Qed.

Lemma fail_waiting_spec (g : Job.graph) :
  evolves g (fail_waiting g)
  /\ Forall (fun kv => Job.status kv.2 <> JobStatus.WAITING)
       (Job.jobs (fail_waiting g)).
Proof.
  assert (E : fail_waiting g
              = foldl fail_if_waiting g (seq 0 (length (Job.jobs g))))
    by reflexivity.
  rewrite E. destruct (fail_waiting_loop (seq 0 (length (Job.jobs g))) g)
    as [Ev N].
  split; [exact Ev|]. apply Forall_lookup. intros k [n j'] L.
  apply (N k j').
  - unfold Job.job_at. now rewrite L.
  - left. apply elem_of_seq. split; [lia|]. simpl.
    rewrite (Forall2_length _ _ _ (ev_jobs _ _ Ev)).
    eapply lookup_lt_Some; eauto.
Qed.

Lemma evolves_names (g g' : Job.graph) :
  evolves g g' -> (Job.jobs g').*1 = (Job.jobs g).*1.
Proof.
  intros [_ J]. induction J as [|kv kv' l l' (N & _) _ IH]; [reflexivity|].
  rewrite !fmap_cons. f_equal; [exact N | exact IH].
Qed.

(** X6.  The command [fail] on a project that is building: afterwards
    no job of the build is [WAITING] (each one that was has been failed,
    with the cascade of [Job.fail]), the jobs are the same by name, the
    solver is woken, and the reply is 204. *)
Theorem fail_command_leaves_no_waiting `{Msgpack} (env : Env)
  (msgs : list (string * message_class)) (now project : string)
  (inst : Xbbs.t) (proj : Project.t) (run : Build.t) :
  Xbbs.projects inst !! project = Some proj ->
  Project.current proj = Some run ->
  exists inst' run',
    command_step env msgs now "fail" (dumps (VStr project)) inst
    = (inst', ("204", dumps (VStr "")))
    /\ Xbbs.current project inst' = Some run'
    /\ Build.artifact_received run' = true
    /\ (Build.jobs run').*1 = (Build.jobs run).*1
    /\ Forall (fun kv => Job.status kv.2 <> JobStatus.WAITING)
         (Build.jobs run').
Proof.
  intros P C. unfold command_step. simpl. unfold cmd_fail.
  rewrite loads_dumps. prog_run. rewrite P, C. prog_run.
  do 2 eexists. split; [reflexivity|].
  rewrite current_alter_current, (current_project _ _ _ _ P C). simpl.
  split; [reflexivity|]. split; [reflexivity|].
  destruct (fail_waiting_spec (Build.graph run)) as [Ev N].
  split; [exact (evolves_names _ _ Ev) | exact N].
Qed.

Lemma fail_command_leaves_no_waiting_witness :
  exists inst' run',
    @command_step reference_msgpack reference_env messages "20260101_000000"
      "fail" (@dumps reference_msgpack (VStr "demo")) ready_coordinator
    = (inst', ("204", @dumps reference_msgpack (VStr "")))
    /\ Xbbs.current "demo" inst' = Some run'
    /\ Build.artifact_received run' = true
    /\ (Build.jobs run').*1 = (Build.jobs ready_build).*1
    /\ Forall (fun kv => Job.status kv.2 <> JobStatus.WAITING)
         (Build.jobs run').
Proof.
  apply (@fail_command_leaves_no_waiting reference_msgpack reference_env
           messages "20260101_000000" "demo" ready_coordinator
           (example_project (Some ready_build)) ready_build);
    reflexivity.
Defined.

(** A value that can be looked up in a [dict] and is not a [str]. *)
Definition hashable_not_str (v : value) : bool :=
  match v with
  | VNone | VBool _ | VNum _ | VBytes _ => true
  | VStr _ | VList _ | VDict _ => false
  end.

(** X7.  What the command loop refuses.  A command that is not ASCII
    is answered 500: it is decoded inside the [try].  An ASCII command
    other than [build], [fail] and [status] is answered 400.  [fail] is
    answered 404 for a name that is no project, a [str] or not, and 409
    for a project that is not building.  The coordinator is as before in
    each case. *)
Theorem command_refusals `{Msgpack} (env : Env)
  (msgs : list (string * message_class)) (now : string)
  (command : bytes) (project : string) (arg : bytes) (inst : Xbbs.t) :
  (is_ascii command = false ->
   (command_step env msgs now command arg inst).1 = inst
   /\ (command_step env msgs now command arg inst).2.1 = "500")
  /\ (is_ascii command = true ->
      command <> "build" -> command <> "fail" -> command <> "status" ->
      command_step env msgs now command arg inst
      = (inst, ("400", dumps (VStr "no such command"))))
  /\ (Xbbs.projects inst !! project = None ->
      command_step env msgs now "fail" (dumps (VStr project)) inst
      = (inst, ("404", dumps (VStr "unknown project"))))
  /\ (forall name,
        hashable_not_str name = true ->
        command_step env msgs now "fail" (dumps name) inst
        = (inst, ("404", dumps (VStr "unknown project"))))
  /\ (forall proj,
        Xbbs.projects inst !! project = Some proj ->
        Project.current proj = None ->
        command_step env msgs now "fail" (dumps (VStr project)) inst
        = (inst, ("409", dumps (VStr "project not running")))).
Proof.
  split; [|split; [|split; [|split]]].
  - intros A. unfold command_step, decode_ascii. rewrite A. auto.
  - intros A B F S. unfold command_step, decode_ascii. rewrite A.
    destruct (String.eqb_spec command "build"); [contradiction|].
    destruct (String.eqb_spec command "fail"); [contradiction|].
    destruct (String.eqb_spec command "status"); [contradiction|].
    reflexivity.
  - intros P. unfold command_step. simpl. unfold cmd_fail.
    rewrite loads_dumps. prog_run. rewrite P. reflexivity.
  - intros name Hn. unfold command_step. simpl. unfold cmd_fail.
    rewrite loads_dumps. destruct name; try discriminate Hn; reflexivity.
  - intros proj P C. unfold command_step. simpl. unfold cmd_fail.
    rewrite loads_dumps. prog_run. rewrite P, C. reflexivity.
Qed.

Lemma command_refusals_witness :
  ((@command_step reference_msgpack reference_env messages "20260101_000000"
      (String (Ascii.ascii_of_nat 255) "") "" example_inst).2.1 = "500")
  /\ (@command_step reference_msgpack reference_env messages "20260101_000000"
        "stop" "" example_inst
      = (example_inst,
         ("400", @dumps reference_msgpack (VStr "no such command"))))
  /\ (@command_step reference_msgpack reference_env messages
        "20260101_000000" "fail" (@dumps reference_msgpack (VStr "demo"))
        example_inst
      = (example_inst,
         ("404", @dumps reference_msgpack (VStr "unknown project"))))
  /\ (@command_step reference_msgpack reference_env messages
        "20260101_000000" "fail" (@dumps reference_msgpack (VNum (Int 7)))
        example_inst
      = (example_inst,
         ("404", @dumps reference_msgpack (VStr "unknown project"))))
  /\ (@command_step reference_msgpack reference_env messages
        "20260101_000000" "fail" (@dumps reference_msgpack (VStr "demo"))
        (example_coordinator (example_project None))
      = (example_coordinator (example_project None),
         ("409", @dumps reference_msgpack (VStr "project not running")))).
Proof.
  destruct (@command_refusals reference_msgpack reference_env messages
              "20260101_000000" (String (Ascii.ascii_of_nat 255) "") "demo" ""
              example_inst) as (A & _ & B & N & _).
  destruct (@command_refusals reference_msgpack reference_env messages
              "20260101_000000" "stop" "demo" "" example_inst)
    as (_ & S & _).
  destruct (@command_refusals reference_msgpack reference_env messages
              "20260101_000000" "stop" "demo" ""
              (example_coordinator (example_project None)))
    as (_ & _ & _ & _ & I).
  split; [apply A; reflexivity|].
  split; [apply S; [reflexivity | discriminate..]|].
  split; [apply B; reflexivity|].
  split; [apply N; reflexivity|].
  apply (I (example_project None)); reflexivity.
Defined.

(** ** The solver ([solve_project]) *)

Lemma terminating_not_running (s : JobStatus.t) :
  JobStatus.terminating s = true ->
  JobStatus.eqb s JobStatus.RUNNING = false
  /\ JobStatus.eqb s JobStatus.WAITING = false.
Proof. destruct s; simpl; intros; split; congruence. Qed.

(** The scan passes over a job that is done. *)
Lemma scan_job_done `{Msgpack} (env : Env)
  (msgs : list (string * message_class)) (project : string)
  (projinfo : Project.t) (i : nat) (some_waiting : bool) (inst : Xbbs.t)
  (b : Build.t) :
  Xbbs.current project inst = Some b ->
  Forall (fun kv => JobStatus.terminating (Job.status kv.2) = true)
    (Build.jobs b) ->
  scan_job env msgs project projinfo i some_waiting inst
  = (inst, Ok some_waiting).
Proof.
  intros C T. unfold scan_job, with_state. rewrite C. simpl.
  destruct (Build.jobs b !! i) as [[name job]|] eqn:L; [|reflexivity].
  pose proof (proj1 (Forall_lookup _ _) T i _ L) as Tj. simpl in Tj.
  destruct (terminating_not_running _ Tj) as [R W].
  rewrite R, andb_false_r. prog_run. rewrite W, Tj. simpl.
  now rewrite orb_false_r.
Qed.

Lemma scan_jobs_done `{Msgpack} (env : Env)
  (msgs : list (string * message_class)) (project : string)
  (projinfo : Project.t) (positions : list nat) (some_waiting : bool)
  (inst : Xbbs.t) (b : Build.t) :
  Xbbs.current project inst = Some b ->
  Forall (fun kv => JobStatus.terminating (Job.status kv.2) = true)
    (Build.jobs b) ->
  scan_jobs env msgs project projinfo positions some_waiting inst
  = (inst, Ok some_waiting).
Proof.
  intros C T. induction positions as [|i positions IH]; [reflexivity|].
  simpl. unfold mbind, prog_bind.
  rewrite (scan_job_done env msgs project projinfo i some_waiting inst b C T).
  exact IH.
Qed.

(** X8.  A turn of the solver over a build whose jobs are all done
    (failed, successful, ignored or up to date): nothing is dispatched
    and no job is touched; when every artifact of the three sets is
    received the build is finished, with success exactly when every job
    is successful (none is [FAILED]); otherwise the assertion of the
    solver fails. *)
Theorem solver_finishes_done_build `{Msgpack} (env : Env)
  (msgs : list (string * message_class)) (project : string)
  (projinfo : Project.t) (inst : Xbbs.t) (b : Build.t) :
  Xbbs.current project inst = Some b ->
  Forall (fun kv => JobStatus.terminating (Job.status kv.2) = true)
    (Build.jobs b) ->
  solve_scan env msgs project projinfo inst
  = (Xbbs.alter_current (Build.set_artifact_received false) project inst,
     if all_received b (Build.tool_set b)
        && all_received b (Build.file_set b)
        && all_received b (Build.pkg_set b)
     then Ok (Some (forallb (fun kv => JobStatus.successful (Job.status kv.2))
                      (Build.jobs b)))
     else Raise (AssertionError "solve_project")).
Proof.
  intros C T. unfold solve_scan.
  set (inst0 := Xbbs.alter_current _ project inst).
  assert (C0 : Xbbs.current project inst0
               = Some (Build.set_artifact_received false b)).
  { subst inst0. now rewrite current_alter_current, C. }
  rewrite C0. simpl.
  rewrite (scan_jobs_done env msgs project projinfo _ false inst0 _ C0 T).
  rewrite C0.
  assert (A : forall set,
            all_received (Build.set_artifact_received false b) set
            = all_received b set) by reflexivity.
  rewrite !A.
  change (Build.jobs (Build.set_artifact_received false b))
    with (Build.jobs b).
  change (Build.tool_set (Build.set_artifact_received false b))
    with (Build.tool_set b).
  change (Build.file_set (Build.set_artifact_received false b))
    with (Build.file_set b).
  change (Build.pkg_set (Build.set_artifact_received false b))
    with (Build.pkg_set b).
  assert (TT : forallb (fun kv => JobStatus.terminating (Job.status kv.2))
                 (Build.jobs b) = true).
  { apply forallb_forall. intros kv M. apply list_elem_of_In in M.
    exact (proj1 (Forall_forall _ _) T kv M). }
  rewrite TT, andb_true_r.
  destruct (all_received b (Build.tool_set b)
            && all_received b (Build.file_set b)
            && all_received b (Build.pkg_set b)); reflexivity.
Qed.

(** A build whose one job is up to date and has delivered. *)
Definition done_build : Build.t :=
  Build.set_graph_field
    {| Job.objects := [Artifact.set_received true example_artifact];
       Job.jobs :=
         [("package:p", Job.set_status JobStatus.UP_TO_DATE example_job)] |}
    example_build.

Lemma solver_finishes_done_build_witness :
  let inst := example_coordinator (example_project (Some done_build)) in
  @solve_scan reference_msgpack reference_env messages "demo"
    (example_project (Some done_build)) inst
  = (Xbbs.alter_current (Build.set_artifact_received false) "demo" inst,
     Ok (Some true)).
Proof.
  apply (@solver_finishes_done_build reference_msgpack reference_env messages
           "demo" (example_project (Some done_build))
           (example_coordinator (example_project (Some done_build)))
           done_build).
  - reflexivity.
  - repeat constructor.
Defined.

Lemma queue_alter_current (f : Build.t -> Build.t) (name : string)
  (inst : Xbbs.t) :
  Xbbs.outgoing_job_queue (Xbbs.alter_current f name inst)
  = Xbbs.outgoing_job_queue inst.
Proof. reflexivity. Qed.

(** What [dispatch] does to the queue: nothing, or one message more,
    for the capabilities of the job. *)
Lemma dispatch_queue `{Msgpack} (env : Env)
  (msgs : list (string * message_class)) (project : string)
  (projinfo : Project.t) (i : nat) (name : string) (job : Job.t)
  (inst : Xbbs.t) :
  let out := dispatch env msgs project projinfo i name job inst in
  Xbbs.outgoing_job_queue out.1 = Xbbs.outgoing_job_queue inst
  \/ exists m,
       out.2 = Ok tt
       /\ Xbbs.outgoing_job_queue out.1
          = Xbbs.outgoing_job_queue inst ++ [(Job.capabilities job, m)].
Proof.
  unfold dispatch.
  destruct (truthy (Project.fingerprint projinfo));
    [destruct (file_ok env _)|]; prog_run; auto.
  all: unfold write_job; prog_run;
    destruct (module_getattr msgs "JobMessage") as [cls|e]; prog_run; auto;
    match goal with
    | |- context [Xbbs.current ?p ?s] =>
        destruct (Xbbs.current p s) as [build|]
    end; prog_run; auto;
    match goal with
    | |- context [attrs_init ?fs ?kw] => destruct (attrs_init fs kw) as [o|e]
    end; prog_run; auto;
    right; eexists; split; reflexivity.
Qed.

(** The solver puts a job on the queue only when it finds it [WAITING]
    with every dependency received and none failed; it then puts one
    message, for the capabilities of that job. *)
Lemma scan_job_queue `{Msgpack} (env : Env)
  (msgs : list (string * message_class)) (project : string)
  (projinfo : Project.t) (i : nat) (some_waiting : bool) (inst : Xbbs.t)
  (b : Build.t) (name : string) (job : Job.t) :
  Xbbs.current project inst = Some b ->
  Build.jobs b !! i = Some (name, job) ->
  let out := scan_job env msgs project projinfo i some_waiting inst in
  Xbbs.outgoing_job_queue out.1 <> Xbbs.outgoing_job_queue inst ->
  Job.status job = JobStatus.WAITING
  /\ Forall (fun d => is_received (Build.objects b) d = true) (Job.deps job)
  /\ Forall (fun d => is_failed (Build.objects b) d = false) (Job.deps job)
  /\ exists m,
       Xbbs.outgoing_job_queue out.1
       = Xbbs.outgoing_job_queue inst ++ [(Job.capabilities job, m)].
Proof.
  intros C L out. subst out. unfold scan_job, with_state. rewrite C.
  simpl. rewrite L.
  destruct (forallb (is_received (Build.objects b)) (Job.products job)
            && JobStatus.eqb (Job.status job) JobStatus.RUNNING) eqn:Pr.
  - (* promoted: it was running *)
    unfold write_job. prog_run. intros Q. now contradiction Q.
  - prog_run.
    destruct (JobStatus.eqb (Job.status job) JobStatus.WAITING) eqn:W;
      prog_run; [|intros Q; now contradiction Q].
    apply JobStatus_eqb_eq in W.
    destruct (existsb (is_failed (Build.objects b)) (Job.deps job)) eqn:F;
      prog_run; [intros Q; now contradiction Q|].
    destruct (forallb (is_received (Build.objects b)) (Job.deps job)) eqn:R;
      prog_run; [|intros Q; now contradiction Q].
    pose proof (dispatch_queue env msgs project projinfo i name job inst) as D.
    simpl in D.
    destruct (dispatch env msgs project projinfo i name job inst)
      as [inst' [[]|e]]; simpl in *; intros Q;
      (destruct D as [D | (m & E & D)]; [contradiction|]);
      try discriminate E.
    split; [exact W|]. split; [|split; [|eauto]].
    + apply Forall_forall. intros d M.
      apply (proj1 (forallb_forall _ _) R), list_elem_of_In, M.
    + apply Forall_forall. intros d M.
      destruct (is_failed (Build.objects b) d) eqn:Fd; [|reflexivity].
      rewrite <- F. symmetry. apply existsb_exists. exists d.
      split; [apply list_elem_of_In, M | exact Fd].
Qed.
(** X9.  The solver holds back a job that is not ready: when the job it
    looks at is not [WAITING], or one of its dependencies is not received
    yet, or one has failed, nothing is put on the queue of outgoing
    jobs. *)
Theorem solver_holds_back_unready_jobs `{Msgpack} (env : Env)
  (msgs : list (string * message_class)) (project : string)
  (projinfo : Project.t) (i : nat) (some_waiting : bool) (inst : Xbbs.t)
  (b : Build.t) (name : string) (job : Job.t) :
  Xbbs.current project inst = Some b ->
  Build.jobs b !! i = Some (name, job) ->
  Job.status job <> JobStatus.WAITING
  \/ Exists (fun d => is_received (Build.objects b) d = false) (Job.deps job)
  \/ Exists (fun d => is_failed (Build.objects b) d = true) (Job.deps job) ->
  Xbbs.outgoing_job_queue
    (scan_job env msgs project projinfo i some_waiting inst).1
  = Xbbs.outgoing_job_queue inst.
Proof.
  intros C L U.
  set (q := Xbbs.outgoing_job_queue _).
  destruct (decide (q = Xbbs.outgoing_job_queue inst)) as [|Q]; [assumption|].
  exfalso.
  destruct (scan_job_queue env msgs project projinfo i some_waiting inst b
              name job C L Q) as (W & R & F & _).
  destruct U as [U | [U | U]]; [contradiction | |].
  - apply Exists_exists in U as (d & M & N).
    rewrite (proj1 (Forall_forall _ _) R d M) in N. discriminate N.
  - apply Exists_exists in U as (d & M & N).
    rewrite (proj1 (Forall_forall _ _) F d M) in N. discriminate N.
Qed.

(** A build whose one job waits for the package [p], which has not
    come. *)
Definition waiting_build : Build.t :=
  Build.set_graph_field
    {| Job.objects := [example_artifact];
       Job.jobs :=
         [("tool:t", {| Job.unstable := false; Job.deps := [0];
                        Job.products := []; Job.capabilities := ∅;
                        Job.status := JobStatus.WAITING;
                        Job.exit_code := None; Job.run_time := None |})] |}
    example_build.

Lemma solver_holds_back_unready_jobs_witness :
  let inst := example_coordinator (example_project (Some waiting_build)) in
  Xbbs.outgoing_job_queue
    (@scan_job reference_msgpack reference_env messages "demo"
       (example_project (Some waiting_build)) 0 false inst).1
  = Xbbs.outgoing_job_queue inst.
Proof.
  refine (@solver_holds_back_unready_jobs reference_msgpack reference_env
            messages "demo" (example_project (Some waiting_build)) 0 false
            (example_coordinator (example_project (Some waiting_build)))
            waiting_build "tool:t" _ eq_refl eq_refl _).
  right. left. apply Exists_cons_hd. reflexivity.
Defined.

(** X10.  A job the solver finds [WAITING] with a failed dependency is
    failed on the spot and not dispatched: it becomes [FAILED], or
    [IGNORED_FAILURE] if it is unstable, its products are failed (so
    that the jobs that need them fail in turn), the graph is that of
    [Job.fail], and the solver is told to scan again. *)
Theorem solver_fails_job_with_failed_dependency `{Msgpack} (env : Env)
  (msgs : list (string * message_class)) (project : string)
  (projinfo : Project.t) (i : nat) (some_waiting : bool) (inst : Xbbs.t)
  (b : Build.t) (name : string) (job : Job.t) :
  Xbbs.current project inst = Some b ->
  Build.jobs b !! i = Some (name, job) ->
  Job.status job = JobStatus.WAITING ->
  Exists (fun d => is_failed (Build.objects b) d = true) (Job.deps job) ->
  exists inst' b' job',
    scan_job env msgs project projinfo i some_waiting inst = (inst', Ok true)
    /\ Xbbs.current project inst' = Some b'
    /\ Build.graph b' = Job.fail i (Build.graph b)
    /\ Build.artifact_received b' = true
    /\ Build.jobs b' !! i = Some (name, job')
    /\ Job.status job' = final_status (Job.unstable job)
    /\ Forall (fun p => is_failed (Build.objects b') p = true
                        \/ Build.objects b' !! p = None)
         (Job.products job)
    /\ Xbbs.outgoing_job_queue inst' = Xbbs.outgoing_job_queue inst.
Proof.
  intros C L W F. unfold scan_job, with_state. rewrite C. simpl. rewrite L.
  prog_run. rewrite !W. simpl. rewrite andb_false_r. prog_run.
  rewrite !W. simpl.
  assert (Fb : existsb (is_failed (Build.objects b)) (Job.deps job) = true).
  { apply existsb_exists. apply Exists_exists in F as (d & M & N).
    exists d. split; [apply list_elem_of_In, M | exact N]. }
  rewrite Fb. prog_run. rewrite orb_true_r.
  destruct (fail_terminates (Build.graph b) i) as (g' & _ & Eg & Ev & _ & P).
  assert (J : Job.job_at (Build.graph b) i = Some job).
  { unfold Job.job_at. unfold Build.jobs in L. now rewrite L. }
  destruct (P job J) as (job' & J' & T & A).
  eexists _, _, job'. split; [reflexivity|].
  rewrite current_alter_current, C. simpl. split; [reflexivity|].
  split; [reflexivity|]. split; [reflexivity|]. rewrite Eg.
  split; [|split; [|split; [|reflexivity]]].
  - unfold Job.job_at in J'. unfold Build.jobs. simpl.
    destruct (Job.jobs g' !! i) as [[n' j0]|] eqn:L'; [|discriminate].
    simpl in J'. injection J' as ->.
    pose proof (Forall2_lookup_lr _ _ _ _ _ _ (ev_jobs _ _ Ev) L L')
      as (N & _). simpl in N. now rewrite N.
  - destruct T as [T | [R _]]; [exact T|]. rewrite W in R. discriminate R.
  - apply Forall_forall. intros p M. unfold Build.objects. simpl.
    unfold is_failed. destruct (Job.objects g' !! p) as [a|] eqn:O; [|auto].
    left. exact (A p a M O).
Qed.

(** The package [p] has failed; ["tool:t"] waits for it and makes the
    tool [t]. *)
Definition doomed_build : Build.t :=
  Build.set_graph_field
    {| Job.objects :=
         [Artifact.set_failed true (Artifact.set_received true example_artifact);
          {| Artifact.kind := Kind.TOOL; Artifact.name := "t";
             Artifact.version := Some "2.0";
             Artifact.architecture := ArchVal (Some "x86_64");
             Artifact.received := false; Artifact.failed := false |}];
       Job.jobs :=
         [("tool:t", {| Job.unstable := false; Job.deps := [0];
                        Job.products := [1]; Job.capabilities := ∅;
                        Job.status := JobStatus.WAITING;
                        Job.exit_code := None; Job.run_time := None |})] |}
    example_build.

Lemma solver_fails_job_with_failed_dependency_witness :
  let inst := example_coordinator (example_project (Some doomed_build)) in
  exists inst' b' job',
    @scan_job reference_msgpack reference_env messages "demo"
      (example_project (Some doomed_build)) 0 false inst = (inst', Ok true)
    /\ Xbbs.current "demo" inst' = Some b'
    /\ Build.graph b' = Job.fail 0 (Build.graph doomed_build)
    /\ Build.artifact_received b' = true
    /\ Build.jobs b' !! 0 = Some ("tool:t", job')
    /\ Job.status job' = final_status false
    /\ Forall (fun p => is_failed (Build.objects b') p = true
                        \/ Build.objects b' !! p = None) [1]
    /\ Xbbs.outgoing_job_queue inst' = Xbbs.outgoing_job_queue inst.
Proof.
  refine (@solver_fails_job_with_failed_dependency reference_msgpack
            reference_env messages "demo"
            (example_project (Some doomed_build)) 0 false
            (example_coordinator (example_project (Some doomed_build)))
            doomed_build "tool:t" _ eq_refl eq_refl eq_refl _).
  apply Exists_cons_hd. reflexivity.
Defined.

(** ** The intake: what a handler does besides what it logs *)

Lemma emits_emits (es es' : list event) (inst : Xbbs.t) :
  Xbbs.emits es' (Xbbs.emits es inst) = Xbbs.emits (es ++ es') inst.
Proof. unfold Xbbs.emits. simpl. now rewrite app_assoc. Qed.

Lemma emits_nil (inst : Xbbs.t) : Xbbs.emits [] inst = inst.
Proof. unfold Xbbs.emits. rewrite app_nil_r. now destruct inst. Qed.

(** A program that does nothing to the coordinator but add events, all
    of them in [Q], to the trace of what it did outside. *)
Definition only_emits (Q : event -> Prop) {A} (m : prog Xbbs.t A) : Prop :=
  forall inst, exists es, Forall Q es /\ (m inst).1 = Xbbs.emits es inst.

Section OnlyEmits.
Variable Q : event -> Prop.

Lemma only_emits_ret {A} (a : A) : only_emits Q (mret a).
Proof. intros inst. exists []. simpl. now rewrite emits_nil. Qed.

Lemma only_emits_raise {A} (e : exn) : only_emits Q (@raise Xbbs.t A e).
Proof. intros inst. exists []. simpl. now rewrite emits_nil. Qed.

Lemma only_emits_lift {A} (r : result A) : only_emits Q (lift r).
Proof. intros inst. exists []. simpl. now rewrite emits_nil. Qed.

Lemma only_emits_emit (e : event) : Q e -> only_emits Q (emit e).
Proof. intros He inst. exists [e]. split; [now repeat constructor | reflexivity]. Qed.

Lemma only_emits_bind {A B} (m : prog Xbbs.t A) (k : A -> prog Xbbs.t B) :
  only_emits Q m -> (forall a, only_emits Q (k a)) -> only_emits Q (m ≫= k).
Proof.
  intros M K inst. unfold mbind, prog_bind.
  destruct (M inst) as (es & F & E). destruct (m inst) as [inst1 [a|e]];
    simpl in E; subst inst1.
  - destruct (K a (Xbbs.emits es inst)) as (es' & F' & E').
    exists (es ++ es'). split; [now apply Forall_app|].
    now rewrite E', emits_emits.
  - exists es. auto.
Qed.

End OnlyEmits.

(** The events other than the log entry of a failed deposit. *)
Definition not_deposit_failed (e : event) : Prop :=
  e <> Logged "artifact deposit failed".

Ltac only_emits :=
  repeat first
    [ apply only_emits_ret
    | apply only_emits_raise
    | apply only_emits_lift
    | apply only_emits_emit; discriminate
    | apply only_emits_bind; [|intros ?]
    | match goal with
      | |- only_emits _ (if ?c then _ else _) => destruct c
      | |- only_emits _ (match ?x with _ => _ end) => destruct x
      end ].

Lemma only_emits_check_call_logged (env : Env) (cmd : list string)
  (cwd : string) :
  only_emits not_deposit_failed (check_call_logged env cmd cwd).
Proof. unfold check_call_logged. only_emits. Qed.

Lemma only_emits_file_op (env : Env) (e : event) (path : string) :
  not_deposit_failed e -> only_emits not_deposit_failed (file_op env e path).
Proof.
  intros He. unfold file_op. apply only_emits_bind;
    [now apply only_emits_emit | intros ?; only_emits].
Qed.

Lemma only_emits_maybe_sign_artifact (env : Env) (artifact : string)
  (project : Project.t) :
  only_emits not_deposit_failed (maybe_sign_artifact env artifact project).
Proof.
  unfold maybe_sign_artifact.
  only_emits; apply only_emits_check_call_logged.
Qed.

(** [deposit] works on the file system only. *)
Lemma only_emits_deposit (env : Env) (proj : Project.t) (artifact : Artifact.t)
  (repo repo_roll target : string) (filename : value) :
  only_emits not_deposit_failed
    (deposit env proj artifact repo repo_roll target filename).
Proof.
  unfold deposit.
  only_emits;
    first [ apply only_emits_check_call_logged
          | apply only_emits_file_op; discriminate
          | apply only_emits_maybe_sign_artifact ].
Qed.

Lemma current_emits (es : list event) (name : string) (inst : Xbbs.t) :
  Xbbs.current name (Xbbs.emits es inst) = Xbbs.current name inst.
Proof. reflexivity. Qed.

(** ** Artifacts that a worker reports as failed ([send_fail]) *)

(** X11.  The frame [send_fail] sends for an artifact of the build that
    is running: the intake takes it without an error, the artifact is
    received and failed afterwards, the solver is woken, and the chunk
    table is as it was. *)
Theorem send_fail_marks_artifact_failed `{Msgpack} `{Blake2b} (env : Env)
  (project kind name : string) (inst : Xbbs.t) (proj : Project.t)
  (run : Build.t) (aset : gmap string nat) (r : nat) (a : Artifact.t) :
  Xbbs.projects inst !! project = Some proj ->
  Project.current proj = Some run ->
  aset_of kind run = Ok aset ->
  aset !! name = Some r ->
  Build.objects run !! r = Some a ->
  exists frame inst' run',
    send_fail project kind name = [("artifact", frame)]
    /\ cmd_artifact env frame inst = (inst', Ok tt)
    /\ intake env (send_fail project kind name) inst = inst'
    /\ Xbbs.current project inst' = Some run'
    /\ is_received (Build.objects run') r = true
    /\ is_failed (Build.objects run') r = true
    /\ Build.artifact_received run' = true
    /\ Xbbs.table inst' = Xbbs.table inst.
Proof.
  intros P C A N O. unfold send_fail, intake, intake_step. simpl.
  match goal with
  | |- context [cmd_artifact env ?v inst] =>
      assert (E : exists inst' run',
                cmd_artifact env v inst = (inst', Ok tt)
                /\ Xbbs.current project inst' = Some run'
                /\ is_received (Build.objects run') r = true
                /\ is_failed (Build.objects run') r = true
                /\ Build.artifact_received run' = true
                /\ Xbbs.table inst' = Xbbs.table inst)
  end.
  { unfold cmd_artifact.
    change (module_getattr messages "ArtifactMessage") with (Ok ArtifactMessage).
    unfold unpack, pack. prog_run. rewrite loads_dumps. prog_run.
    unfold validate, property_ok. simpl.
    pose proof (aset_of_kinds _ _ _ A) as K. simpl in K. rewrite K. prog_run.
    rewrite P, C. unfold artifact_body. prog_run. rewrite A. prog_run.
    rewrite N. unfold receive_artifact, write_artifact, wake_solver.
    prog_run. unfold store_status_if_running. prog_run.
    rewrite !current_alter_current, !current_emit,
      (current_project _ _ _ _ P C). simpl.
    destruct (BuildState.terminating (Build.state run)); prog_run;
      do 2 eexists; (split; [reflexivity|]);
      rewrite ?current_emit, !current_alter_current, !current_emit,
        (current_project _ _ _ _ P C); simpl;
      (split; [reflexivity|]);
      rewrite objects_set_artifact_received, !is_received_alter,
        !is_failed_alter, !lookup_alter_object, O;
      simpl; destruct (decide (r = r)); try congruence; auto. }
  destruct E as (inst' & run' & E & Rest).
  eexists _, inst', run'. split; [reflexivity|]. split; [exact E|].
  split; [|exact Rest]. now rewrite E.
Qed.

Lemma send_fail_marks_artifact_failed_witness :
  exists frame inst' run',
    @send_fail reference_msgpack "demo" "package" "p" = [("artifact", frame)]
    /\ @cmd_artifact reference_msgpack reference_env frame example_running
       = (inst', Ok tt)
    /\ @intake reference_msgpack reference_blake2b reference_env
         (@send_fail reference_msgpack "demo" "package" "p") example_running
       = inst'
    /\ Xbbs.current "demo" inst' = Some run'
    /\ is_received (Build.objects run') 0 = true
    /\ is_failed (Build.objects run') 0 = true
    /\ Build.artifact_received run' = true
    /\ Xbbs.table inst' = Xbbs.table example_running.
Proof.
  apply (@send_fail_marks_artifact_failed reference_msgpack
           reference_blake2b reference_env "demo" "package" "p"
           example_running (example_project (Some example_build))
           example_build (Build.pkg_set example_build) 0 example_artifact);
    reflexivity.
Defined.

(** ** Messages for a project the coordinator does not know *)

(** X12.  A frame of the intake that names a project the coordinator
    does not have.  [cmd_job] and [cmd_log] return and change nothing.
    [cmd_artifact] returns from inside its [try], and its [finally]
    clause then reads [run], which was not assigned: it raises
    [UnboundLocalError], which the intake loop logs. *)
Theorem frames_for_unknown_project `{Msgpack} `{Blake2b} (env : Env)
  (project : string) (inst : Xbbs.t) (artifact job log : instance) :
  Xbbs.projects inst !! project = None ->
  unpack ArtifactMessage (pack ArtifactMessage artifact) = Ok artifact ->
  dict_get artifact "project" = Some (VStr project) ->
  unpack JobCompletionMessage (pack JobCompletionMessage job) = Ok job ->
  dict_get job "project" = Some (VStr project) ->
  unpack LogMessage (pack LogMessage log) = Ok log ->
  dict_get log "project" = Some (VStr project) ->
  cmd_job (pack JobCompletionMessage job) inst = (inst, Ok tt)
  /\ cmd_log (pack LogMessage log) inst = (inst, Ok tt)
  /\ cmd_artifact env (pack ArtifactMessage artifact) inst
     = (inst, Raise (UnboundLocalError "run"))
  /\ intake_step env "artifact" (pack ArtifactMessage artifact) inst
     = Xbbs.emit (Logged "intake pipe error, continuing") inst.
Proof.
  intros P UA PA UJ PJ UL PL.
  assert (J : cmd_job (pack JobCompletionMessage job) inst = (inst, Ok tt)).
  { unfold cmd_job.
    change (module_getattr messages "JobCompletionMessage")
      with (Ok JobCompletionMessage).
    prog_run. rewrite UJ. prog_run. unfold str_attr, getattr. rewrite PJ.
    prog_run. now rewrite P. }
  assert (L : cmd_log (pack LogMessage log) inst = (inst, Ok tt)).
  { unfold cmd_log.
    change (module_getattr messages "LogMessage") with (Ok LogMessage).
    prog_run. rewrite UL. prog_run. unfold str_attr, getattr. rewrite PL.
    prog_run. now rewrite P. }
  assert (A : cmd_artifact env (pack ArtifactMessage artifact) inst
              = (inst, Raise (UnboundLocalError "run"))).
  { unfold cmd_artifact.
    change (module_getattr messages "ArtifactMessage") with (Ok ArtifactMessage).
    prog_run. rewrite UA. prog_run. unfold str_attr, getattr. rewrite PA.
    prog_run. now rewrite P. }
  repeat split; auto. unfold intake_step. simpl. now rewrite A.
Qed.

Lemma frames_for_unknown_project_witness :
  let artifact := [("project", VStr "gone"); ("artifact_type", VStr "tool");
                   ("artifact", VStr "t"); ("success", VBool false);
                   ("filename", VNone); ("last_hash", VNone)] in
  let job := [("project", VStr "gone"); ("job", VStr "tool:t");
              ("exit_code", VNum (Int 0)); ("run_time", VNum (Int 1))] in
  let log := [("project", VStr "gone"); ("job", VStr "tool:t");
              ("line", VStr "done")] in
  @cmd_job reference_msgpack (@pack reference_msgpack JobCompletionMessage job)
    example_running = (example_running, Ok tt)
  /\ @cmd_log reference_msgpack (@pack reference_msgpack LogMessage log)
       example_running = (example_running, Ok tt)
  /\ @cmd_artifact reference_msgpack reference_env
       (@pack reference_msgpack ArtifactMessage artifact) example_running
     = (example_running, Raise (UnboundLocalError "run"))
  /\ @intake_step reference_msgpack reference_blake2b reference_env "artifact"
       (@pack reference_msgpack ArtifactMessage artifact) example_running
     = Xbbs.emit (Logged "intake pipe error, continuing") example_running.
Proof.
  apply (@frames_for_unknown_project reference_msgpack reference_blake2b
           reference_env "gone" example_running); vm_compute; reflexivity.
Defined.
(** ** Artifacts that a worker has uploaded ([cmd_artifact]) *)

Lemma current_set_chunks (tbl : gmap string Xbbs.entry)
  (fs : gmap nat bytes) (next : nat) (name : string) (inst : Xbbs.t) :
  Xbbs.current name (Xbbs.set_chunks tbl fs next inst)
  = Xbbs.current name inst.
Proof. reflexivity. Qed.

Lemma table_emits (es : list event) (inst : Xbbs.t) :
  Xbbs.table (Xbbs.emits es inst) = Xbbs.table inst.
Proof. reflexivity. Qed.

(** Reads [inst.projects[name].current] through the writes before it. *)
Ltac current_norm :=
  repeat first [ rewrite current_emit | rewrite current_emits
               | rewrite current_set_chunks | rewrite current_alter_current ].

Lemma deposit_failed_iff (pre l post : list event) (b : bool) :
  Forall not_deposit_failed pre ->
  Forall not_deposit_failed post ->
  (b = true <-> Logged "artifact deposit failed" ∈ l) ->
  (b = true <-> Logged "artifact deposit failed" ∈ pre ++ l ++ post).
Proof.
  intros F F' ->. rewrite !elem_of_app. split; [auto|].
  intros [M | [M | M]]; [|exact M|].
  - exfalso. exact (proj1 (Forall_forall _ _) F _ M eq_refl).
  - exfalso. exact (proj1 (Forall_forall _ _) F' _ M eq_refl).
Qed.

Lemma cmd_artifact_deposits `{Msgpack} `{Blake2b} (env : Env)
  (project kind name filename last_hash : string) (inst : Xbbs.t)
  (proj : Project.t) (run : Build.t) (aset : gmap string nat) (r : nat)
  (a : Artifact.t) (store : Xbbs.entry) :
  Xbbs.projects inst !! project = Some proj ->
  Project.current proj = Some run ->
  aset_of kind run = Ok aset ->
  aset !! name = Some r ->
  Build.objects run !! r = Some a ->
  String.length last_hash = 64 ->
  Xbbs.table inst !! last_hash = Some store ->
  let value :=
    pack ArtifactMessage
      [("project", VStr project); ("artifact_type", VStr kind);
       ("artifact", VStr name); ("success", VBool true);
       ("filename", VStr filename); ("last_hash", VBytes last_hash)] in
  exists inst' run' es,
    cmd_artifact env value inst = (inst', Ok tt)
    /\ Xbbs.current project inst' = Some run'
    /\ is_received (Build.objects run') r = true
    /\ (is_failed (Build.objects run') r = true
        <-> Logged "artifact deposit failed" ∈ es)
    /\ Build.artifact_received run' = true
    /\ Xbbs.table inst' = delete last_hash (Xbbs.table inst)
    /\ Xbbs.files inst' = Xbbs.files inst
    /\ Xbbs.trace inst'
       = Xbbs.trace inst ++ es ++ [Unlink (Xbbs.path store)].
Proof.
  intros P C A N O L T value. subst value. unfold cmd_artifact.
  change (module_getattr messages "ArtifactMessage") with (Ok ArtifactMessage).
  unfold unpack, pack. prog_run. rewrite loads_dumps. prog_run.
  unfold validate, property_ok. simpl.
  pose proof (aset_of_kinds _ _ _ A) as K. simpl in K. rewrite K, L. prog_run.
  rewrite P, C. unfold artifact_body. prog_run. rewrite A. prog_run.
  rewrite N. unfold receive_artifact, write_artifact, wake_solver, claim_entry.
  prog_run. rewrite T. prog_run. unfold try_deposit.
  set (repo := path_join (Build.build_directory run) (kind +:+ "_repo")).
  set (repo_roll :=
         path_join (Project.base proj) ("rolling/" +:+ kind +:+ "_repo")).
  set (inst1 := Xbbs.set_chunks _ _ _ _).
  set (a1 := Artifact.set_failed false (Artifact.set_received true a)).
  set (run1 := Build.alter_object (Artifact.set_failed false) r
                 (Build.alter_object (Artifact.set_received true) r run)).
  assert (C1 : Xbbs.current project inst1 = Some run1).
  { subst inst1. rewrite current_set_chunks, !current_alter_current,
      !current_emit, (current_project _ _ _ _ P C). reflexivity. }
  assert (O1 : Build.objects run1 !! r = Some a1).
  { subst run1. rewrite !lookup_alter_object, O. reflexivity. }
  rewrite C1. simpl. rewrite O1.
  destruct (only_emits_deposit env proj a1 repo repo_roll (Xbbs.path store)
              (VStr filename) inst1) as (es & F & E).
  destruct (deposit env proj a1 repo repo_roll (Xbbs.path store)
              (VStr filename) inst1) as [inst2 res].
  simpl in E. subst inst2.
  assert (Pre : Forall not_deposit_failed
                  ([Makedirs repo; Makedirs repo_roll] ++ es)).
  { apply Forall_app. split; [|exact F]. repeat constructor; discriminate. }
  destruct res as [[]|e]; unfold write_artifact, store_status_if_running;
    prog_run; current_norm; rewrite C1; simpl.
  - (* the deposit went through *)
    destruct (BuildState.terminating (Build.state run)); prog_run.
    + eexists _, _, (([Makedirs repo; Makedirs repo_roll] ++ es) ++ [] ++ []).
      split; [reflexivity|].
      current_norm; rewrite C1.
      simpl. split; [reflexivity|].
      rewrite objects_set_artifact_received.
      unfold is_received, is_failed. rewrite O1. simpl.
      split; [reflexivity|]. split.
      { apply (deposit_failed_iff _ [] [] _ Pre); [constructor|].
        split; [discriminate | intros M; inversion M]. }
      split; [reflexivity|]. split; [reflexivity|]. split; [reflexivity|].
      simpl. rewrite !app_nil_r, <- !app_assoc. reflexivity.
    + eexists _, _,
        (([Makedirs repo; Makedirs repo_roll] ++ es) ++ []
         ++ [Build.store_status None (Build.set_artifact_received true run1)]).
      split; [reflexivity|].
      current_norm; rewrite C1.
      simpl. split; [reflexivity|].
      rewrite objects_set_artifact_received.
      unfold is_received, is_failed. rewrite O1. simpl.
      split; [reflexivity|]. split.
      { apply (deposit_failed_iff _ [] [_] _ Pre);
          [repeat constructor; discriminate|].
        split; [discriminate | intros M; inversion M]. }
      split; [reflexivity|]. split; [reflexivity|]. split; [reflexivity|].
      simpl. rewrite <- !app_assoc. reflexivity.
  - (* the deposit raised *)
    set (run2 := Build.set_artifact_received true
                   (Build.alter_object (Artifact.set_failed true) r run1)).
    assert (O2 : Build.objects run2 !! r = Some (Artifact.set_failed true a1)).
    { subst run2. rewrite objects_set_artifact_received, lookup_alter_object, O1.
      reflexivity. }
    destruct (BuildState.terminating (Build.state run)); prog_run.
    + eexists _, _,
        (([Makedirs repo; Makedirs repo_roll] ++ es)
         ++ [Logged "artifact deposit failed"] ++ []).
      split; [reflexivity|].
      current_norm; rewrite C1.
      simpl. fold run2. split; [reflexivity|].
      unfold is_received, is_failed. rewrite O2. simpl.
      split; [reflexivity|]. split.
      { apply (deposit_failed_iff _ [_] [] _ Pre); [constructor|].
        split; [intros _; apply list_elem_of_here | reflexivity]. }
      split; [reflexivity|]. split; [reflexivity|]. split; [reflexivity|].
      simpl. rewrite ?app_nil_r, <- ?app_assoc. reflexivity.
    + eexists _, _,
        (([Makedirs repo; Makedirs repo_roll] ++ es)
         ++ [Logged "artifact deposit failed"]
         ++ [Build.store_status None run2]).
      split; [reflexivity|].
      current_norm; rewrite C1.
      simpl. fold run2. split; [reflexivity|].
      unfold is_received, is_failed. rewrite O2. simpl.
      split; [reflexivity|]. split.
      { apply (deposit_failed_iff _ [_] [_] _ Pre);
          [repeat constructor; discriminate|].
        split; [intros _; apply list_elem_of_here | reflexivity]. }
      split; [reflexivity|]. split; [reflexivity|]. split; [reflexivity|].
      simpl. rewrite <- !app_assoc. reflexivity.
Qed.
(** X13.  An [ArtifactMessage] with [success=true] for an artifact of
    the build that is running, whose [last_hash] is the key of an entry
    of the chunk table.  Whatever the deposit of the file runs into,
    [cmd_artifact] returns without an error: the artifact is received,
    and failed exactly when the deposit failed (which is then logged);
    the solver is woken, the entry is taken off the table, and the
    staging file is unlinked last. *)
Theorem uploaded_artifact_is_received `{Msgpack} `{Blake2b} (env : Env)
  (project kind name filename last_hash : string) (inst : Xbbs.t)
  (proj : Project.t) (run : Build.t) (aset : gmap string nat) (r : nat)
  (a : Artifact.t) (store : Xbbs.entry) :
  Xbbs.projects inst !! project = Some proj ->
  Project.current proj = Some run ->
  aset_of kind run = Ok aset ->
  aset !! name = Some r ->
  Build.objects run !! r = Some a ->
  String.length last_hash = 64 ->
  Xbbs.table inst !! last_hash = Some store ->
  let value :=
    pack ArtifactMessage
      [("project", VStr project); ("artifact_type", VStr kind);
       ("artifact", VStr name); ("success", VBool true);
       ("filename", VStr filename); ("last_hash", VBytes last_hash)] in
  exists inst' run' es,
    cmd_artifact env value inst = (inst', Ok tt)
    /\ Xbbs.current project inst' = Some run'
    /\ is_received (Build.objects run') r = true
    /\ (is_failed (Build.objects run') r = true
        <-> Logged "artifact deposit failed" ∈ es)
    /\ Build.artifact_received run' = true
    /\ Xbbs.table inst' = delete last_hash (Xbbs.table inst)
    /\ Xbbs.files inst' = Xbbs.files inst
    /\ Xbbs.trace inst'
       = Xbbs.trace inst ++ es ++ [Unlink (Xbbs.path store)].
Proof. apply cmd_artifact_deposits. Qed.

(** A coordinator that has the chunks of the package [p] staged. *)
Definition staged_hash : bytes := pad 64 "the last chunk".

Definition staged_coordinator : Xbbs.t :=
  Xbbs.set_chunks
    {[ staged_hash := {| Xbbs.fd := 3; Xbbs.path := "/srv/xbbs/_coldir/tmp3";
                         Xbbs.digest_fn := {| fed := "contents" |} |} ]}
    {[ 3 := "contents" ]} 4 example_running.

Lemma uploaded_artifact_is_received_witness :
  let value :=
    @pack reference_msgpack ArtifactMessage
      [("project", VStr "demo"); ("artifact_type", VStr "package");
       ("artifact", VStr "p"); ("success", VBool true);
       ("filename", VStr "p-1.0.x86_64.xbps");
       ("last_hash", VBytes staged_hash)] in
  exists inst' run' es,
    @cmd_artifact reference_msgpack reference_env value staged_coordinator
    = (inst', Ok tt)
    /\ Xbbs.current "demo" inst' = Some run'
    /\ is_received (Build.objects run') 0 = true
    /\ (is_failed (Build.objects run') 0 = true
        <-> Logged "artifact deposit failed" ∈ es)
    /\ Build.artifact_received run' = true
    /\ Xbbs.table inst' = delete staged_hash (Xbbs.table staged_coordinator)
    /\ Xbbs.files inst' = Xbbs.files staged_coordinator
    /\ Xbbs.trace inst'
       = Xbbs.trace staged_coordinator ++ es
         ++ [Unlink "/srv/xbbs/_coldir/tmp3"].
Proof.
  apply (@uploaded_artifact_is_received reference_msgpack reference_blake2b
           reference_env "demo" "package" "p" "p-1.0.x86_64.xbps" staged_hash
           staged_coordinator (example_project (Some example_build))
           example_build (Build.pkg_set example_build) 0 example_artifact
           {| Xbbs.fd := 3; Xbbs.path := "/srv/xbbs/_coldir/tmp3";
              Xbbs.digest_fn := {| fed := "contents" |} |});
    reflexivity.
Defined.

(** ** An upload from the worker to the repository *)

(** A chunk frame leaves the projects alone and logs no failed deposit. *)
Lemma chunk_frame `{Msgpack} `{Blake2b} (env : Env) (value : bytes)
  (inst : Xbbs.t) :
  let inst' := intake_step env "chunk" value inst in
  Xbbs.projects inst' = Xbbs.projects inst
  /\ exists es, Forall not_deposit_failed es
                /\ Xbbs.trace inst' = Xbbs.trace inst ++ es.
Proof.
  unfold intake_step. simpl. unfold cmd_chunk.
  destruct (_ ≫= _) as [[last_hash data]|e]; simpl.
  2:{ split; [reflexivity|]. eexists. split; [|reflexivity].
      repeat constructor; discriminate. }
  destruct (String.eqb last_hash "initial"); simpl.
  - split; [reflexivity|]. eexists. split; [|reflexivity].
    repeat constructor; discriminate.
  - destruct (Xbbs.table inst !! last_hash); simpl;
      (split; [reflexivity|]); exists []; rewrite app_nil_r; auto.
Qed.

Lemma chunk_frames `{Msgpack} `{Blake2b} (env : Env)
  (frames : list (string * bytes)) :
  Forall (fun f => f.1 = "chunk") frames ->
  forall inst,
    Xbbs.projects (intake env frames inst) = Xbbs.projects inst
    /\ exists es, Forall not_deposit_failed es
                  /\ Xbbs.trace (intake env frames inst)
                     = Xbbs.trace inst ++ es.
Proof.
  unfold intake. induction 1 as [|[cmd value] frames E _ IH]; intros inst.
  - simpl. split; [reflexivity|]. exists []. now rewrite app_nil_r.
  - simpl in *. subst cmd.
    destruct (chunk_frame env value inst) as (P1 & es1 & F1 & T1).
    destruct (IH (intake_step env "chunk" value inst)) as (P2 & es2 & F2 & T2).
    split; [congruence|]. exists (es1 ++ es2).
    split; [now apply Forall_app|]. now rewrite T2, T1, app_assoc.
Qed.

Lemma send_chunks_frames `{Msgpack} `{Blake2b} (reads : list bytes) :
  forall last_hash,
    Forall (fun f => f.1 = "chunk") (send_chunks last_hash reads).1.
Proof.
  induction reads as [|data reads IH]; intros last_hash; simpl;
    [constructor|].
  destruct (Nat.eqb (String.length data) 0); [constructor|]. simpl.
  specialize (IH (blake2b_digest
    (pack ChunkMessage [("last_hash", VBytes last_hash);
                        ("data", VBytes data)]))).
  destruct (send_chunks _ reads) as [frames last]. simpl in *.
  constructor; [reflexivity | exact IH].
Qed.

Lemma send_chunks_last `{Msgpack} `{Blake2b} (reads : list bytes) :
  forall last_hash,
    String.length last_hash = 64 ->
    String.length (send_chunks last_hash reads).2 = 64.
Proof.
  induction reads as [|data reads IH]; intros last_hash L; simpl;
    [exact L|].
  destruct (Nat.eqb (String.length data) 0); [exact L|]. simpl.
  specialize (IH (blake2b_digest
    (pack ChunkMessage [("last_hash", VBytes last_hash);
                        ("data", VBytes data)]))
               (blake2b_digest_size _)).
  destruct (send_chunks _ reads) as [frames last]. exact IH.
Qed.

Lemma send_chunks_initial_last `{Msgpack} `{Blake2b} (reads : list bytes) :
  reads <> [] ->
  Forall (fun c => c <> "") reads ->
  String.length (send_chunks "initial" reads).2 = 64.
Proof.
  intros Hne Hall. destruct Hall as [|data reads Hd Hall]; [congruence|].
  simpl. destruct data as [|c data]; [congruence|]. simpl.
  pose proof (send_chunks_last reads
    (blake2b_digest
       (pack ChunkMessage [("last_hash", VBytes "initial");
                           ("data", VBytes (String c data))]))
    (blake2b_digest_size _)) as L.
  destruct (send_chunks _ reads) as [frames last]. exact L.
Qed.

Lemma intake_app `{Msgpack} `{Blake2b} (env : Env)
  (frames frames' : list (string * bytes)) (inst : Xbbs.t) :
  intake env (frames ++ frames') inst
  = intake env frames' (intake env frames inst).
Proof. unfold intake. apply foldl_app. Qed.

(** X14.  The upload of a file that is not empty, for an artifact of
    the build that is running, taken frame by frame by the intake.  Once
    the chunk frames are in, the chunk table has, under the last hash of
    the sender, an entry whose staging file holds the contents of the file
    and whose hasher has their BLAKE2b digest.  The artifact frame, which
    names that hash, takes this entry off the table and leaves the files
    as they are; the artifact is received, and failed exactly when the
    deposit failed; the solver is woken and the staging file of the entry
    is unlinked last. *)
Theorem upload_is_received `{Msgpack} `{Blake2b} (env : Env)
  (project kind name fpath : string) (contents : bytes) (inst : Xbbs.t)
  (proj : Project.t) (run : Build.t) (aset : gmap string nat) (r : nat)
  (a : Artifact.t) :
  Xbbs.projects inst !! project = Some proj ->
  Project.current proj = Some run ->
  aset_of kind run = Ok aset ->
  aset !! name = Some r ->
  Build.objects run !! r = Some a ->
  contents <> "" ->
  let reads := file_reads (String.length contents) CHUNK_SIZE contents in
  let sent := send_chunks "initial" reads in
  let staged := intake env sent.1 inst in
  let inst' := intake env (upload project kind name fpath (Some reads)) inst in
  exists run' store es,
    upload project kind name fpath (Some reads)
    = sent.1
      ++ [("artifact",
           pack ArtifactMessage
             [("project", VStr project); ("artifact_type", VStr kind);
              ("artifact", VStr name); ("success", VBool true);
              ("filename", VStr (basename fpath));
              ("last_hash", VBytes sent.2)])]
    /\ Xbbs.table staged !! sent.2 = Some store
    /\ Xbbs.files staged !! Xbbs.fd store = Some contents
    /\ hasher_digest (Xbbs.digest_fn store) = blake2b_digest contents
    /\ Xbbs.table inst' = delete sent.2 (Xbbs.table staged)
    /\ Xbbs.files inst' = Xbbs.files staged
    /\ Xbbs.current project inst' = Some run'
    /\ is_received (Build.objects run') r = true
    /\ (is_failed (Build.objects run') r = true
        <-> Logged "artifact deposit failed" ∈ es)
    /\ Build.artifact_received run' = true
    /\ Xbbs.trace inst'
       = Xbbs.trace inst ++ es ++ [Unlink (Xbbs.path store)].
Proof.
  intros P C A N O Hne reads sent staged inst'.
  assert (Hs : 0 < CHUNK_SIZE) by (unfold CHUNK_SIZE; lia).
  destruct (file_reads_contents CHUNK_SIZE Hs (String.length contents)
              contents (le_n _)) as [J F].
  fold reads in J, F.
  assert (R : reads <> []).
  { intros E. rewrite E in J. simpl in J. congruence. }
  destruct (upload_delivers_file env contents inst Hne)
    as (store & T & Fi & D).
  fold reads in T, Fi.
  pose proof (send_chunks_initial_last reads R F) as L.
  pose proof (send_chunks_frames reads "initial") as Fr.
  subst inst' staged sent. unfold upload.
  destruct (send_chunks "initial" reads) as [frames last]. simpl in *.
  rewrite intake_app.
  destruct (chunk_frames env frames Fr inst) as (P1 & es1 & F1 & T1).
  set (inst1 := intake env frames inst) in *.
  rewrite <- P1 in P.
  destruct (cmd_artifact_deposits env project kind name (basename fpath)
              last inst1 proj run aset r a store P C A N O L T)
    as (inst2 & run2 & es2 & E & C2 & Rc & Fl & W & Tb & Fs & Tr).
  exists run2, store, (es1 ++ es2).
  unfold intake at 1 2. simpl. unfold intake_step. simpl. rewrite E.
  split; [reflexivity|]. split; [exact T|]. split; [exact Fi|].
  split; [exact D|]. split; [exact Tb|]. split; [exact Fs|].
  split; [exact C2|]. split; [exact Rc|]. split.
  { rewrite Fl, elem_of_app. split; [auto|]. intros [M|M]; [|exact M].
    exfalso. exact (proj1 (Forall_forall _ _) F1 _ M eq_refl). }
  split; [exact W|]. now rewrite Tr, T1, <- !app_assoc.
Qed.

Lemma upload_is_received_witness :
  let reads := file_reads 8 CHUNK_SIZE "contents" in
  let sent := @send_chunks reference_msgpack reference_blake2b "initial" reads in
  let staged :=
    @intake reference_msgpack reference_blake2b reference_env sent.1
      example_running in
  let inst' :=
    @intake reference_msgpack reference_blake2b reference_env
      (@upload reference_msgpack reference_blake2b "demo" "package" "p"
         "/build/xbps-repo/p-1.0.x86_64.xbps" (Some reads))
      example_running in
  exists run' store es,
    @upload reference_msgpack reference_blake2b "demo" "package" "p"
      "/build/xbps-repo/p-1.0.x86_64.xbps" (Some reads)
    = sent.1
      ++ [("artifact",
           @pack reference_msgpack ArtifactMessage
             [("project", VStr "demo"); ("artifact_type", VStr "package");
              ("artifact", VStr "p"); ("success", VBool true);
              ("filename",
               VStr (basename "/build/xbps-repo/p-1.0.x86_64.xbps"));
              ("last_hash", VBytes sent.2)])]
    /\ Xbbs.table staged !! sent.2 = Some store
    /\ Xbbs.files staged !! Xbbs.fd store = Some "contents"
    /\ @hasher_digest reference_blake2b (Xbbs.digest_fn store)
       = @blake2b_digest reference_blake2b "contents"
    /\ Xbbs.table inst' = delete sent.2 (Xbbs.table staged)
    /\ Xbbs.files inst' = Xbbs.files staged
    /\ Xbbs.current "demo" inst' = Some run'
    /\ is_received (Build.objects run') 0 = true
    /\ (is_failed (Build.objects run') 0 = true
        <-> Logged "artifact deposit failed" ∈ es)
    /\ Build.artifact_received run' = true
    /\ Xbbs.trace inst'
       = Xbbs.trace example_running ++ es ++ [Unlink (Xbbs.path store)].
Proof.
  apply (@upload_is_received reference_msgpack reference_blake2b
           reference_env "demo" "package" "p"
           "/build/xbps-repo/p-1.0.x86_64.xbps" "contents" example_running
           (example_project (Some example_build)) example_build
           (Build.pkg_set example_build) 0 example_artifact);
    try reflexivity.
  discriminate.
Defined.

(** ** The replies of the command loop ([command_loop]) *)

(** What a handler of the command loop returns or raises, and what it
    leaves of the coordinator when it does not return [None]. *)
Definition refuses_or_acts {A} (m : prog Xbbs.t (option (Z * A)))
  (inst : Xbbs.t) : Prop :=
  match m inst with
  | (inst', Ok None) => True
  | (inst', Ok (Some (code, _))) =>
      inst' = inst /\ (code = 200 \/ code = 404 \/ code = 409)%Z
  | (inst', Raise _) => inst' = inst
  end.

Lemma cmd_build_refuses_or_acts `{Msgpack} (env : Env)
  (msgs : list (string * message_class)) (now : string) (arg : bytes)
  (inst : Xbbs.t) :
  refuses_or_acts (cmd_build env msgs now arg) inst.
Proof.
  unfold refuses_or_acts, cmd_build. prog_run.
  destruct (module_getattr msgs "BuildMessage") as [cls|e]; simpl; [|auto].
  destruct (unpack cls arg) as [msg|e]; simpl; [|auto].
  destruct (str_attr msg "project") as [name|e]; simpl; [|auto].
  destruct (getattr msg "delay") as [delay|e]; simpl; [|auto].
  destruct (getattr msg "incremental") as [incremental|e]; simpl; [|auto].
  destruct (Xbbs.projects inst !! name) as [proj|]; simpl; [|auto].
  destruct (Project.current proj); simpl; [auto|].
  unfold Build.create. destruct (path_exists env _); simpl; auto.
Qed.

Lemma cmd_fail_refuses_or_acts `{Msgpack} (arg : bytes) (inst : Xbbs.t) :
  refuses_or_acts (cmd_fail arg) inst.
Proof.
  unfold refuses_or_acts, cmd_fail. prog_run.
  destruct (loads arg) as [[]|]; simpl; auto.
  destruct (Xbbs.projects inst !! _) as [proj|]; simpl; [|auto].
  destruct (Project.current proj); simpl; auto.
Qed.

Lemma cmd_status_refuses_or_acts `{Msgpack} (env : Env)
  (msgs : list (string * message_class)) (arg : bytes) (inst : Xbbs.t) :
  refuses_or_acts (cmd_status env msgs arg) inst.
Proof.
  unfold refuses_or_acts, cmd_status. prog_run.
  destruct (module_getattr msgs "StatusMessage") as [cls|e]; simpl; [|auto].
  destruct (attrs_init _ _) as [o|e]; simpl; auto.
Qed.

(** X15.  The command loop answers every request, with one of the codes
    200, 204, 400, 404, 409 and 500, and the coordinator is changed by a
    request only when the answer is 204. *)
Theorem command_reply_codes `{Msgpack} (env : Env)
  (msgs : list (string * message_class)) (now command : string) (arg : bytes)
  (inst : Xbbs.t) :
  let out := command_step env msgs now command arg inst in
  out.2.1 ∈ ["200"; "204"; "400"; "404"; "409"; "500"]
  /\ (out.2.1 <> "204" -> out.1 = inst).
Proof.
  assert (K : forall m : prog Xbbs.t (option (Z * bytes)),
             refuses_or_acts m inst ->
             let out :=
               match m inst with
               | (inst, Ok None) => (inst, ("204", dumps (VStr "")))
               | (inst, Ok (Some (code, value))) => (inst, (pretty code, value))
               | (inst, Raise (ValidationError what)) =>
                   (inst,
                    ("400",
                     dumps (VStr (exception_text env (ValidationError what)))))
               | (inst, Raise e) =>
                   (inst, ("500", dumps (VStr (exception_text env e))))
               end in
             out.2.1 ∈ ["200"; "204"; "400"; "404"; "409"; "500"]
             /\ (out.2.1 <> "204" -> out.1 = inst)).
  { intros m R. unfold refuses_or_acts in R.
    destruct (m inst) as [inst' [[[code value]|]|e]]; simpl.
    - destruct R as [-> [-> | [-> | ->]]]; (split; [|reflexivity]);
        repeat constructor.
    - split; [repeat constructor | congruence].
    - subst inst'. destruct e; (split; [repeat constructor | reflexivity]). }
  unfold command_step.
  destruct (decode_ascii command) as [command'|e];
    [|simpl; split; [repeat constructor | reflexivity]].
  destruct (String.eqb command' "build");
    [apply K; apply cmd_build_refuses_or_acts|].
  destruct (String.eqb command' "fail");
    [apply K; apply cmd_fail_refuses_or_acts|].
  destruct (String.eqb command' "status");
    [apply K; apply cmd_status_refuses_or_acts|].
  simpl. split; [repeat constructor | reflexivity].
Qed.

(** ** Chunk streams that arrive interleaved ([cmd_chunk]) *)



(** ** The jobs [set_graph] makes of a graph *)

Lemma ingest_job_needs_capabilities (job : string) (info : Info.t)
  (st : Build.ingest) :
  Info.capabilities info = None ->
  Build.ingest_job job info st = (st, Raise (KeyError "capabilities")).
Proof. intros E. unfold Build.ingest_job. rewrite E. reflexivity. Qed.

Lemma ingest_without_capabilities (graph : list (string * Info.t))
  (job : string) (info : Info.t) :
  (job, info) ∈ graph ->
  Info.capabilities info = None ->
  forall st,
    exists st' e,
      mfor (fun ji => Build.ingest_job ji.1 ji.2) graph st = (st', Raise e).
Proof.
  induction graph as [|[j i] graph IH]; intros M E st; [inversion M|].
  apply elem_of_cons in M as [[= <- <-]|M]; simpl; unfold mbind, prog_bind.
  - rewrite ingest_job_needs_capabilities by exact E. eauto.
  - destruct (Build.ingest_job j i st) as [st1 [[]|e]]; [|eauto].
    apply IH; auto.
Qed.

(** X17.  [GRAPH_VALIDATOR] lets a job go without ["capabilities"], but
    [set_graph] reads the key of every job: on a graph with such a job it
    never returns.  On a new build what it raises is the [KeyError] of
    that key, or the multiarch error of a job before it. *)
Theorem set_graph_needs_capabilities (revision : string)
  (graph : list (string * Info.t)) (commits_object : value) (b : Build.t)
  (job : string) (info : Info.t) :
  (job, info) ∈ graph ->
  Info.capabilities info = None ->
  exists b' e,
    Build.set_graph revision graph commits_object b = (b', Raise e)
    /\ (Build.tool_set b = ∅ -> Build.pkg_set b = ∅ ->
        e = KeyError "capabilities" \/ e = Build.multiarch).
Proof.
  intros M E.
  destruct (Build.set_graph revision graph commits_object b) as [b' r] eqn:S.
  assert (R : exists e, r = Raise e).
  { unfold Build.set_graph in S.
    match type of S with
    | context [mfor ?f graph ?st0] =>
        destruct (ingest_without_capabilities graph job info M E st0)
          as (st' & e & Q)
    end.
    rewrite Q in S. injection S as _ <-. eauto. }
  destruct R as [e ->]. exists b', e. split; [reflexivity|].
  intros T P. pose proof (set_graph_outcome _ _ _ _ _ _ T P S) as O.
  simpl in O. destruct O as [[-> _] | [-> _]]; auto.
Qed.

(** A graph whose second job has no ["capabilities"]. *)
Definition graph_without_capabilities : list (string * Info.t) :=
  [ ("package:p", example_info [] [] [descriptor "p" "1.0" "x86_64"] []);
    ("package:q",
     {| Info.up2date := false; Info.unstable := false;
        Info.capabilities := None;
        Info.products_tools := [];
        Info.products_pkgs := [descriptor "q" "1.0" "x86_64"];
        Info.products_files := [];
        Info.needed_tools := []; Info.needed_pkgs := [] |}) ].

Lemma set_graph_needs_capabilities_witness :
  exists b' e,
    Build.set_graph "abc" graph_without_capabilities (VDict []) new_build
    = (b', Raise e)
    /\ (Build.tool_set new_build = ∅ -> Build.pkg_set new_build = ∅ ->
        e = KeyError "capabilities" \/ e = Build.multiarch).
Proof.
  apply (set_graph_needs_capabilities "abc" graph_without_capabilities
           (VDict []) new_build "package:q"
           {| Info.up2date := false; Info.unstable := false;
              Info.capabilities := None;
              Info.products_tools := [];
              Info.products_pkgs := [descriptor "q" "1.0" "x86_64"];
              Info.products_files := [];
              Info.needed_tools := []; Info.needed_pkgs := [] |}).
  - apply list_elem_of_further, list_elem_of_here.
  - reflexivity.
Defined.
(** An artifact of a build by reference, of a kind and a name. *)
Definition named (b : Build.t) (r : nat) (kn : Kind.t * string) : Prop :=
  exists a,
    Build.objects b !! r = Some a
    /\ Artifact.kind a = kn.1 /\ Artifact.name a = kn.2.

(** An artifact there is no need to wait for. *)
Definition up_to_date (b : Build.t) (r : nat) : Prop :=
  is_received (Build.objects b) r = true
  /\ is_failed (Build.objects b) r = false.

(** What the loop of [set_graph] does to the artifacts it has: it keeps
    them, by kind and name, and does not take back that one is received or
    mark one as failed. *)
Definition grows (b b' : Build.t) : Prop :=
  forall r a,
    Build.objects b !! r = Some a ->
    exists a',
      Build.objects b' !! r = Some a'
      /\ Artifact.kind a' = Artifact.kind a
      /\ Artifact.name a' = Artifact.name a
      /\ (Artifact.received a = true -> Artifact.received a' = true)
      /\ (Artifact.failed a = false -> Artifact.failed a' = false).

(** The three sets refer to artifacts of their kind, by their names. *)
Definition sets_named (b : Build.t) : Prop :=
  forall k n r, Build.aset k b !! n = Some r -> named b r (k, n).

(** The artifacts a job needs and those it makes, as the graph has
    them. *)
Definition needed (info : Info.t) : list (Kind.t * string) :=
  ((fun x => (Kind.TOOL, Info.name x)) <$> Info.needed_tools info)
  ++ ((fun x => (Kind.PACKAGE, Info.name x)) <$> Info.needed_pkgs info).

Definition produced (info : Info.t) : list (Kind.t * string) :=
  ((fun x => (Kind.TOOL, Info.name x)) <$> Info.products_tools info)
  ++ ((fun x => (Kind.PACKAGE, Info.name x)) <$> Info.products_pkgs info)
  ++ (pair Kind.FILE <$> Info.products_files info).

(** The job [set_graph] makes of an entry of the graph. *)
Definition job_of (b : Build.t) (j : Job.t) (info : Info.t) : Prop :=
  Job.unstable j = Info.unstable info
  /\ Some (Job.capabilities j) = Info.capabilities info
  /\ Job.status j = (if Info.up2date info then JobStatus.UP_TO_DATE
                     else JobStatus.WAITING)
  /\ Job.exit_code j = None
  /\ Job.run_time j = None
  /\ Forall2 (named b) (Job.deps j) (needed info)
  /\ Forall2 (named b) (Job.products j) (produced info)
  /\ (Info.up2date info = true -> Forall (up_to_date b) (Job.products j)).

Definition jobs_of (b : Build.t) (graph : list (string * Info.t)) : Prop :=
  Forall2 (fun kv ji => kv.1 = ji.1 /\ job_of b kv.2 ji.2) (Build.jobs b) graph.

Lemma grows_refl (b : Build.t) : grows b b.
Proof. intros r a E. eauto 10. Qed.

Lemma grows_trans (b1 b2 b3 : Build.t) :
  grows b1 b2 -> grows b2 b3 -> grows b1 b3.
Proof.
  intros G1 G2 r a E. destruct (G1 r a E) as (a' & E' & K' & N' & R' & F').
  destruct (G2 r a' E') as (a'' & E'' & K'' & N'' & R'' & F'').
  exists a''. repeat split; try congruence; auto.
Qed.

Lemma grows_same (b b' : Build.t) :
  Build.objects b' = Build.objects b -> grows b b'.
Proof. intros E r a L. rewrite E. eauto 10. Qed.

Lemma named_grows (b b' : Build.t) (r : nat) (kn : Kind.t * string) :
  grows b b' -> named b r kn -> named b' r kn.
Proof.
  intros G (a & E & K & N). destruct (G r a E) as (a' & E' & K' & N' & _).
  exists a'. repeat split; congruence.
Qed.

Lemma up_to_date_grows (b b' : Build.t) (r : nat) :
  grows b b' -> up_to_date b r -> up_to_date b' r.
Proof.
  unfold up_to_date, is_received, is_failed. intros G [R F].
  destruct (Build.objects b !! r) as [a|] eqn:E; [|discriminate].
  destruct (G r a E) as (a' & E' & _ & _ & R' & F'). rewrite E'. auto.
Qed.

Lemma job_of_grows (b b' : Build.t) (j : Job.t) (info : Info.t) :
  grows b b' -> job_of b j info -> job_of b' j info.
Proof.
  intros G (U & C & S & X & T & D & P & R).
  repeat split; auto.
  - eapply Forall2_impl; [exact D|]. intros. eapply named_grows; eauto.
  - eapply Forall2_impl; [exact P|]. intros. eapply named_grows; eauto.
  - intros Y. eapply Forall_impl; [exact (R Y)|].
    intros. eapply up_to_date_grows; eauto.
Qed.

Lemma grows_alter (f : Artifact.t -> Artifact.t) (r : nat) (b : Build.t) :
  (forall a,
     Artifact.kind (f a) = Artifact.kind a
     /\ Artifact.name (f a) = Artifact.name a
     /\ (Artifact.received a = true -> Artifact.received (f a) = true)
     /\ (Artifact.failed a = false -> Artifact.failed (f a) = false)) ->
  grows b (Build.alter_object f r b).
Proof.
  intros F r' a E. unfold Build.alter_object.
  rewrite objects_set_graph_field. simpl. unfold Build.objects in E.
  destruct (decide (r = r')) as [<-|N].
  - rewrite list_lookup_alter_eq, E. simpl. exists (f a).
    destruct (F a) as (? & ? & ? & ?). auto.
  - rewrite list_lookup_alter_ne by exact N. eauto 10.
Qed.

Lemma grows_new_object (a : Artifact.t) (b : Build.t) :
  grows b (Build.new_object a b).1.
Proof.
  intros r x E. simpl. exists x. split; [|auto].
  unfold Build.objects. simpl. apply lookup_app_l_Some. exact E.
Qed.

Lemma aset_new_object (k : Kind.t) (a : Artifact.t) (b : Build.t) :
  Build.aset k (Build.new_object a b).1 = Build.aset k b.
Proof. now destruct k. Qed.

Lemma alter_object_frame (f : Artifact.t -> Artifact.t) (r : nat)
  (b : Build.t) :
  Build.jobs (Build.alter_object f r b) = Build.jobs b
  /\ forall k, Build.aset k (Build.alter_object f r b) = Build.aset k b.
Proof. split; [reflexivity|]. intros []; reflexivity. Qed.

Lemma foldl_alter_grows (f : nat -> Artifact.t -> Artifact.t)
  (refs : list nat) :
  (forall r a,
     Artifact.kind (f r a) = Artifact.kind a
     /\ Artifact.name (f r a) = Artifact.name a
     /\ (Artifact.received a = true -> Artifact.received (f r a) = true)
     /\ (Artifact.failed a = false -> Artifact.failed (f r a) = false)) ->
  forall b,
    let b' := foldl (fun b r => Build.alter_object (f r) r b) b refs in
    grows b b'
    /\ Build.jobs b' = Build.jobs b
    /\ forall k, Build.aset k b' = Build.aset k b.
Proof.
  intros F. induction refs as [|r refs IH]; intros b; simpl.
  - split; [apply grows_refl|]. auto.
  - destruct (IH (Build.alter_object (f r) r b)) as (G & J & A).
    destruct (alter_object_frame (f r) r b) as [J' A'].
    split; [|split].
    + eapply grows_trans; [|exact G]. apply grows_alter, F.
    + congruence.
    + intros k. rewrite A. apply A'.
Qed.

Lemma expand_all_grows (archs : gset (option string)) (b : Build.t) :
  grows b (Build.expand_all archs b)
  /\ Build.jobs (Build.expand_all archs b) = Build.jobs b.
Proof.
  unfold Build.expand_all.
  destruct (foldl_alter_grows (fun _ => Build.expand_noarch archs)
              ((map_to_list (Build.tool_set b)).*2
               ++ (map_to_list (Build.pkg_set b)).*2)) with (b := b)
    as (G & J & _); [|auto].
  intros _ a. unfold Build.expand_noarch.
  destruct (arch_eqb _ _); auto.
Qed.

Lemma mark_up2date_spec (prods : list nat) :
  forall b,
    let b' := Build.mark_up2date prods b in
    grows b b'
    /\ Build.jobs b' = Build.jobs b
    /\ (forall k, Build.aset k b' = Build.aset k b)
    /\ forall r, r ∈ prods -> is_Some (Build.objects b !! r) ->
                 up_to_date b' r.
Proof.
  unfold Build.mark_up2date.
  induction prods as [|p prods IH]; intros b; simpl.
  - split; [apply grows_refl|]. split; [reflexivity|].
    split; [reflexivity|]. intros r M. inversion M.
  - set (b1 := Build.alter_object (Artifact.set_failed false) p
                 (Build.alter_object (Artifact.set_received true) p b)).
    assert (G1 : grows b b1).
    { eapply grows_trans; apply grows_alter; intros a; simpl; auto. }
    destruct (IH b1) as (G & J & A & U).
    split; [eapply grows_trans; eauto|]. split; [now rewrite J|].
    split; [intros k; rewrite A; now destruct k|].
    intros r M [a E]. apply elem_of_cons in M as [->|M].
    + eapply up_to_date_grows; [exact G|].
      unfold up_to_date, is_received, is_failed, b1, Build.alter_object.
      rewrite !objects_set_graph_field. simpl.
      rewrite !list_lookup_alter_eq. unfold Build.objects in E. rewrite E.
      simpl. auto.
    + apply (U r M). destruct (G1 r a E) as (a' & E' & _). eauto.
Qed.

(** A job under construction, with references added to its [deps] and
    [products]. *)
Definition extends (j j' : Job.t) (rd rp : list nat) : Prop :=
  j' = {| Job.unstable := Job.unstable j; Job.deps := Job.deps j ++ rd;
          Job.products := Job.products j ++ rp;
          Job.capabilities := Job.capabilities j; Job.status := Job.status j;
          Job.exit_code := Job.exit_code j; Job.run_time := Job.run_time j |}.

(** A step of the loop over the artifacts of a job: it appends
    references to artifacts of the kinds and names [ds] to [deps] and
    [ps] to [products], or raises. *)
Definition appends (m : prog Build.ingest unit) (ds ps : list (Kind.t * string))
  : Prop :=
  forall st,
    sets_named (Build.build st) ->
    match m st with
    | (st', Ok _) =>
        sets_named (Build.build st')
        /\ grows (Build.build st) (Build.build st')
        /\ Build.jobs (Build.build st') = Build.jobs (Build.build st)
        /\ exists rd rp,
             extends (Build.job_val st) (Build.job_val st') rd rp
             /\ Forall2 (named (Build.build st')) rd ds
             /\ Forall2 (named (Build.build st')) rp ps
    | (_, Raise _) => True
    end.

Lemma appends_ret : appends (mret tt) [] [].
Proof.
  intros st W. simpl. split; [exact W|]. split; [apply grows_refl|].
  split; [reflexivity|]. exists [], []. split; [|auto].
  unfold extends. rewrite !app_nil_r. now destruct (Build.job_val st).
Qed.

Lemma appends_bind (m1 m2 : prog Build.ingest unit)
  (ds1 ps1 ds2 ps2 : list (Kind.t * string)) :
  appends m1 ds1 ps1 -> appends m2 ds2 ps2 ->
  appends (m1 ;; m2) (ds1 ++ ds2) (ps1 ++ ps2).
Proof.
  intros A1 A2 st W. specialize (A1 st W). unfold mbind, prog_bind.
  destruct (m1 st) as [st1 [[]|e]]; [|exact I].
  destruct A1 as (W1 & G1 & J1 & rd1 & rp1 & X1 & D1 & P1).
  specialize (A2 st1 W1). destruct (m2 st1) as [st2 [[]|e]]; [|exact I].
  destruct A2 as (W2 & G2 & J2 & rd2 & rp2 & X2 & D2 & P2).
  split; [exact W2|]. split; [eapply grows_trans; eauto|].
  split; [congruence|]. exists (rd1 ++ rd2), (rp1 ++ rp2).
  split; [|split].
  - unfold extends in *. rewrite X2, X1. simpl. now rewrite !app_assoc.
  - apply Forall2_app; [|exact D2].
    eapply Forall2_impl; [exact D1|]. intros. eapply named_grows; eauto.
  - apply Forall2_app; [|exact P2].
    eapply Forall2_impl; [exact P1|]. intros. eapply named_grows; eauto.
Qed.

Lemma appends_mfor {A} (f : A -> prog Build.ingest unit)
  (gd gp : A -> list (Kind.t * string)) (xs : list A) :
  (forall x, appends (f x) (gd x) (gp x)) ->
  appends (mfor f xs) (xs ≫= gd) (xs ≫= gp).
Proof.
  intros F. induction xs as [|x xs IH]; simpl; [apply appends_ret|].
  apply appends_bind; auto.
Qed.

Lemma appends_handle_artifact (kind : Kind.t) (to_deps : bool)
  (x : Info.descriptor) :
  appends (Build._handle_artifact kind to_deps x)
    (if to_deps then [(kind, Info.name x)] else [])
    (if to_deps then [] else [(kind, Info.name x)]).
Proof.
  intros st W.
  assert (K : forall b archs,
             sets_named b -> grows (Build.build st) b ->
             Build.jobs b = Build.jobs (Build.build st) ->
             forall r, named b r (kind, Info.name x) ->
             let st' := {| Build.build := b; Build.arch_set := archs;
                           Build.job_val :=
                             Build.append_to to_deps r (Build.job_val st) |} in
             sets_named (Build.build st')
             /\ grows (Build.build st) (Build.build st')
             /\ Build.jobs (Build.build st') = Build.jobs (Build.build st)
             /\ exists rd rp,
                  extends (Build.job_val st) (Build.job_val st') rd rp
                  /\ Forall2 (named (Build.build st')) rd
                       (if to_deps then [(kind, Info.name x)] else [])
                  /\ Forall2 (named (Build.build st')) rp
                       (if to_deps then [] else [(kind, Info.name x)])).
  { intros b archs Wb G J r N. simpl. split; [exact Wb|]. split; [exact G|].
    split; [exact J|]. destruct to_deps; simpl.
    - exists [r], []. split; [|auto]. unfold extends. simpl.
      now rewrite app_nil_r.
    - exists [], [r]. split; [|auto]. unfold extends. simpl.
      now rewrite app_nil_r. }
  unfold Build._handle_artifact.
  destruct (Build.aset kind (Build.build st) !! Info.name x) as [r|] eqn:A.
  - pose proof (W _ _ _ A) as N.
    destruct (Artifact.architecture <$> Build.objects (Build.build st) !! r)
      as [[ta|l]|]; try exact I.
    destruct (option_string_eqb ta (Some "noarch"));
      [apply K; auto using grows_refl|].
    destruct (negb _ && negb _); [exact I|].
    apply K; auto using grows_refl.
  - set (a := {| Artifact.kind := kind; Artifact.name := Info.name x;
                 Artifact.version := Some (Info.version x);
                 Artifact.architecture := ArchVal (Some (Info.architecture x));
                 Artifact.received := false; Artifact.failed := false |}).
    set (b0 := Build.build st) in *.
    set (r := length (Build.objects b0)).
    set (b1 := Build.set_aset kind
                 (<[Info.name x := r]> (Build.aset kind (Build.new_object a b0).1))
                 (Build.new_object a b0).1).
    assert (O1 : Build.objects b1 = Build.objects b0 ++ [a]).
    { unfold b1. now rewrite objects_set_aset. }
    assert (G : grows b0 b1).
    { eapply grows_trans; [apply (grows_new_object a)|].
      apply grows_same. unfold b1. now rewrite objects_set_aset. }
    assert (N : named b1 r (kind, Info.name x)).
    { exists a. rewrite O1. split; [|auto].
      unfold r. rewrite lookup_app_r, Nat.sub_diag by lia. reflexivity. }
    assert (W1 : sets_named b1).
    { intros k n r' L. unfold b1 in L. rewrite aset_set_aset in L.
      destruct (Kind.eqb kind k) eqn:Ek.
      - apply Kind_eqb_eq in Ek as <-.
        apply lookup_insert_Some in L as [[<- <-] | [_ L]]; [exact N|].
        rewrite aset_new_object in L.
        eapply named_grows; [exact G|]. apply W. exact L.
      - rewrite aset_new_object in L.
        eapply named_grows; [exact G|]. apply W. exact L. }
    assert (J : Build.jobs b1 = Build.jobs b0).
    { unfold b1. now destruct kind. }
    assert (E : Build.new_object a b0 = ((Build.new_object a b0).1, r))
      by reflexivity.
    rewrite E. cbv beta iota zeta. fold b1.
    destruct (Artifact.architecture <$> Build.objects b1 !! r)
      as [[ta|l]|]; try exact I.
    destruct (option_string_eqb ta (Some "noarch")); [apply K; auto|].
    destruct (negb _ && negb _); [exact I|]. apply K; auto.
Qed.

Lemma appends_handle_file (fname : string) :
  appends (Build.handle_file fname) [] [(Kind.FILE, fname)].
Proof.
  intros st W. unfold Build.handle_file.
  set (a := {| Artifact.kind := Kind.FILE; Artifact.name := fname;
               Artifact.version := None;
               Artifact.architecture := ArchVal None;
               Artifact.received := false; Artifact.failed := false |}).
  set (b0 := Build.build st) in *.
  set (r := length (Build.objects b0)).
  set (b1 := Build.set_aset Kind.FILE
               (<[fname := r]> (Build.file_set (Build.new_object a b0).1))
               (Build.new_object a b0).1).
  assert (E : Build.new_object a b0 = ((Build.new_object a b0).1, r))
    by reflexivity.
  rewrite E. cbv beta iota zeta. fold b1.
  assert (O1 : Build.objects b1 = Build.objects b0 ++ [a]) by reflexivity.
  assert (G : grows b0 b1).
  { eapply grows_trans; [apply (grows_new_object a)|].
    apply grows_same. reflexivity. }
  assert (N : named b1 r (Kind.FILE, fname)).
  { exists a. rewrite O1. split; [|auto].
    unfold r. rewrite lookup_app_r, Nat.sub_diag by lia. reflexivity. }
  cbn [Build.build Build.job_val Build.arch_set]. split.
  { intros k n r' L. unfold b1 in L. rewrite aset_set_aset in L.
    destruct (Kind.eqb Kind.FILE k) eqn:Ek.
    - apply Kind_eqb_eq in Ek as <-.
      apply lookup_insert_Some in L as [[<- <-] | [_ L]]; [exact N|].
      eapply named_grows; [exact G|]. apply (W Kind.FILE). exact L.
    - rewrite aset_new_object in L.
      eapply named_grows; [exact G|]. apply W. exact L. }
  split; [exact G|]. split; [reflexivity|].
  exists [], [r]. split; [|auto]. unfold extends. simpl. now rewrite app_nil_r.
Qed.
Lemma appends_mfor_deps {A} (f : A -> prog Build.ingest unit)
  (g : A -> Kind.t * string) (xs : list A) :
  (forall x, appends (f x) [g x] []) -> appends (mfor f xs) (g <$> xs) [].
Proof.
  intros F. induction xs as [|x xs IH]; simpl; [apply appends_ret|].
  apply (appends_bind _ _ [g x] [] (g <$> xs) []); auto.
Qed.

Lemma appends_mfor_products {A} (f : A -> prog Build.ingest unit)
  (g : A -> Kind.t * string) (xs : list A) :
  (forall x, appends (f x) [] [g x]) -> appends (mfor f xs) [] (g <$> xs).
Proof.
  intros F. induction xs as [|x xs IH]; simpl; [apply appends_ret|].
  apply (appends_bind _ _ [] [g x] [] (g <$> xs)); auto.
Qed.

(** The five loops over the artifacts of a job. *)
Lemma appends_artifacts (info : Info.t) :
  appends
    (mfor (Build._handle_artifact Kind.TOOL true) (Info.needed_tools info);;
     mfor (Build._handle_artifact Kind.PACKAGE true) (Info.needed_pkgs info);;
     mfor (Build._handle_artifact Kind.TOOL false) (Info.products_tools info);;
     mfor (Build._handle_artifact Kind.PACKAGE false)
       (Info.products_pkgs info);;
     mfor Build.handle_file (Info.products_files info))
    (needed info) (produced info).
Proof.
  pose proof (appends_mfor_deps (Build._handle_artifact Kind.TOOL true)
                (fun x => (Kind.TOOL, Info.name x)) (Info.needed_tools info)
                (appends_handle_artifact Kind.TOOL true)) as A1.
  pose proof (appends_mfor_deps (Build._handle_artifact Kind.PACKAGE true)
                (fun x => (Kind.PACKAGE, Info.name x)) (Info.needed_pkgs info)
                (appends_handle_artifact Kind.PACKAGE true)) as A2.
  pose proof (appends_mfor_products (Build._handle_artifact Kind.TOOL false)
                (fun x => (Kind.TOOL, Info.name x)) (Info.products_tools info)
                (appends_handle_artifact Kind.TOOL false)) as A3.
  pose proof (appends_mfor_products
                (Build._handle_artifact Kind.PACKAGE false)
                (fun x => (Kind.PACKAGE, Info.name x))
                (Info.products_pkgs info)
                (appends_handle_artifact Kind.PACKAGE false)) as A4.
  pose proof (appends_mfor_products Build.handle_file (pair Kind.FILE)
                (Info.products_files info) appends_handle_file) as A5.
  pose proof (appends_bind _ _ _ _ _ _ A1
                (appends_bind _ _ _ _ _ _ A2
                   (appends_bind _ _ _ _ _ _ A3
                      (appends_bind _ _ _ _ _ _ A4 A5)))) as A.
  simpl in A. rewrite !app_nil_r in A. exact A.
Qed.

Lemma artifacts_then_run {S} (m1 m2 m3 m4 m5 k : prog S unit) (s : S) :
  (m1;; m2;; m3;; m4;; m5;; k) s
  = match (m1;; m2;; m3;; m4;; m5) s with
    | (s', Ok _) => k s'
    | (s', Raise e) => (s', Raise e)
    end.
Proof.
  unfold mbind, prog_bind.
  destruct (m1 s) as [s1 [[]|e]]; [|reflexivity].
  destruct (m2 s1) as [s2 [[]|e]]; [|reflexivity].
  destruct (m3 s2) as [s3 [[]|e]]; [|reflexivity].
  destruct (m4 s3) as [s4 [[]|e]]; [|reflexivity].
  destruct (m5 s4) as [s5 [[]|e]]; reflexivity.
Qed.

Lemma ret_bind_run {S A B} (a : A) (f : A -> prog S B) (s : S) :
  (mret a ≫= f) s = f a s.
Proof. reflexivity. Qed.

Lemma modify_then_run {S B} (f : S -> S) (k : prog S B) (s : S) :
  (modify f;; k) s = k (f s).
Proof. reflexivity. Qed.

Lemma dict_set_fresh {V} (d : list (string * V)) (k : string) (v : V) :
  k ∉ d.*1 -> dict_set d k v = d ++ [(k, v)].
Proof.
  induction d as [|[k' v'] d IH]; simpl; intros N; [reflexivity|].
  apply not_elem_of_cons in N as [N1 N2].
  destruct (String.eqb_spec k' k); [congruence|]. f_equal. auto.
Qed.

Lemma jobs_of_names (b : Build.t) (graph : list (string * Info.t)) :
  jobs_of b graph -> (Build.jobs b).*1 = graph.*1.
Proof.
  unfold jobs_of. induction 1 as [|kv ji l l' [N _] _ IH]; [reflexivity|].
  rewrite !fmap_cons. f_equal; [exact N | exact IH].
Qed.

(** The end of a turn of the loop over the graph: [self.jobs[job] =
    job_val]. *)
Lemma ingest_job_finish (b_st b5 b : Build.t) (j : Job.t) (job : string)
  (info : Info.t) (done : list (string * Info.t)) :
  sets_named b5 -> grows b_st b5 -> Build.jobs b5 = Build.jobs b_st ->
  jobs_of b_st done -> job ∉ done.*1 ->
  grows b5 b -> Build.jobs b = Build.jobs b5 ->
  (forall k, Build.aset k b = Build.aset k b5) ->
  job_of b j info ->
  let bf := Build.set_graph_field
              {| Job.objects := Build.objects b;
                 Job.jobs := dict_set (Build.jobs b) job j |} b in
  sets_named bf /\ jobs_of bf (done ++ [(job, info)]).
Proof.
  intros W5 G5 J5 Jo N G J A Q bf.
  assert (Gf : grows b bf) by (apply grows_same; reflexivity).
  split.
  - intros k n r L. unfold bf in L. rewrite aset_set_graph_field, A in L.
    eapply named_grows; [exact Gf|]. eapply named_grows; [exact G|]. auto.
  - unfold jobs_of. change (Build.jobs bf) with (dict_set (Build.jobs b) job j).
    rewrite dict_set_fresh.
    2:{ rewrite J, J5, (jobs_of_names _ _ Jo). exact N. }
    apply Forall2_app.
    + rewrite J, J5. eapply Forall2_impl; [exact Jo|].
      intros kv ji [E P]. split; [exact E|].
      eapply job_of_grows; [|exact P].
      eapply grows_trans; [exact G5|]. eapply grows_trans; eauto.
    + constructor; [|constructor]. split; [reflexivity|].
      eapply job_of_grows; eauto.
Qed.

Lemma ingest_job_spec (job : string) (info : Info.t) (st : Build.ingest)
  (done : list (string * Info.t)) :
  sets_named (Build.build st) ->
  jobs_of (Build.build st) done ->
  job ∉ done.*1 ->
  match Build.ingest_job job info st with
  | (st', Ok _) =>
      sets_named (Build.build st')
      /\ jobs_of (Build.build st') (done ++ [(job, info)])
  | (_, Raise _) => True
  end.
Proof.
  intros W Jo N. unfold Build.ingest_job.
  destruct (Info.capabilities info) as [caps|] eqn:C; [|exact I].
  rewrite ret_bind_run, modify_then_run, artifacts_then_run.
  set (st0 := {| Build.build := Build.build st;
                 Build.arch_set := Build.arch_set st;
                 Build.job_val :=
                   {| Job.unstable := Info.unstable info; Job.deps := [];
                      Job.products := []; Job.capabilities := caps;
                      Job.status := JobStatus.WAITING;
                      Job.exit_code := None; Job.run_time := None |} |}).
  pose proof (appends_artifacts info st0 W) as Sp.
  match type of Sp with
  | match ?x with _ => _ end => destruct x as [st5 [[]|e]]
  end; [|exact I].
  destruct Sp as (W5 & G5 & J5 & rd & rp & X & D & P).
  destruct st5 as [b5 a5 jv5]. unfold extends in X. simpl in *. subst jv5.
  unfold modify. simpl.
  destruct (Info.up2date info) eqn:U.
  - destruct (mark_up2date_spec rp b5) as (Gm & Jm & Am & Um).
    apply (ingest_job_finish (Build.build st) b5); auto.
    unfold job_of. rewrite U, C. simpl.
    repeat split; auto.
    + eapply Forall2_impl; [exact D|]. intros. eapply named_grows; eauto.
    + eapply Forall2_impl; [exact P|]. intros. eapply named_grows; eauto.
    + intros _. apply Forall_forall. intros r M. apply (Um r M).
      apply list_elem_of_lookup in M as [i L].
      destruct (Forall2_lookup_l _ _ _ _ _ P L) as (kn & _ & a & E & _).
      eauto.
  - apply (ingest_job_finish (Build.build st) b5); auto using grows_refl.
    unfold job_of. rewrite U, C. simpl.
    repeat split; auto. discriminate.
Qed.

Lemma ingest_graph_jobs (graph : list (string * Info.t)) :
  forall done st,
    sets_named (Build.build st) ->
    jobs_of (Build.build st) done ->
    NoDup (done ++ graph).*1 ->
    match mfor (fun ji => Build.ingest_job ji.1 ji.2) graph st with
    | (st', Ok _) =>
        sets_named (Build.build st')
        /\ jobs_of (Build.build st') (done ++ graph)
    | (_, Raise _) => True
    end.
Proof.
  induction graph as [|[job info] graph IH]; intros done st W Jo ND; simpl.
  - rewrite app_nil_r. auto.
  - unfold mbind, prog_bind.
    pose proof (ingest_job_spec job info st done W Jo) as Sp.
    destruct (Build.ingest_job job info st) as [st1 [[]|e]]; [|exact I].
    destruct Sp as [W1 J1].
    { rewrite fmap_app in ND. apply NoDup_app in ND as (_ & ND & _).
      intros M. apply (ND _ M). simpl. apply list_elem_of_here. }
    specialize (IH (done ++ [(job, info)]) st1 W1 J1).
    rewrite <- app_assoc in IH. apply IH. exact ND.
Qed.

(** X18.  [set_graph] on a new build and a graph it returns on: the
    jobs of the build are those of the graph, in order and by name.  Each
    has the [unstable] flag and the capabilities of its entry, no exit
    code yet, is [UP_TO_DATE] if the entry is [up2date] and [WAITING]
    otherwise, depends on the artifacts of the kinds and names its entry
    needs and makes those of its products (tools, packages, then files);
    and every product of an [up2date] job is received and not failed. *)
Theorem set_graph_jobs (revision : string) (graph : list (string * Info.t))
  (commits_object : value) (b b' : Build.t) (e : event) :
  Build.jobs b = [] ->
  Build.tool_set b = ∅ ->
  Build.pkg_set b = ∅ ->
  Build.file_set b = ∅ ->
  NoDup graph.*1 ->
  Build.set_graph revision graph commits_object b = (b', Ok e) ->
  Forall2 (fun kv ji => kv.1 = ji.1 /\ job_of b' kv.2 ji.2)
    (Build.jobs b') graph.
Proof.
  intros J T P F ND. unfold Build.set_graph.
  match goal with
  | |- context [mfor ?f graph ?st0] =>
      pose proof (ingest_graph_jobs graph [] st0) as Sp;
      destruct (mfor f graph st0) as [st [[]|e']]
  end; [|discriminate].
  intros [= <- _]. destruct Sp as [W Jo].
  - intros k n r L. simpl in L.
    destruct k; simpl in L; rewrite ?T, ?P, ?F in L; inversion L.
  - unfold jobs_of. simpl. change (Build.jobs _) with (Build.jobs b).
    rewrite J. constructor.
  - exact ND.
  - destruct (expand_all_grows (Build.arch_set st) (Build.build st))
      as [G Je].
    pose proof (job_of_grows) as K.
    unfold jobs_of in Jo. rewrite Je. eapply Forall2_impl; [exact Jo|].
    intros kv ji [N Q]. split; [exact N|]. eapply job_of_grows; eauto.
Qed.
(** A graph whose first job is up to date. *)
Definition up2date_graph : list (string * Info.t) :=
  [ ("package:p",
     {| Info.up2date := true; Info.unstable := false;
        Info.capabilities := Some ∅;
        Info.products_tools := [];
        Info.products_pkgs := [descriptor "p" "1.0" "x86_64"];
        Info.products_files := ["p.log"];
        Info.needed_tools := []; Info.needed_pkgs := [] |});
    ("tool:t", example_info [descriptor "p" "1.0" "x86_64"]
                 [descriptor "t" "2.0" "noarch"] [] ["t.log"]) ].

Lemma set_graph_jobs_witness :
  let b' := (Build.set_graph "abc" up2date_graph (VDict []) new_build).1 in
  Forall2 (fun kv ji => kv.1 = ji.1 /\ job_of b' kv.2 ji.2)
    (Build.jobs b') up2date_graph.
Proof.
  refine (set_graph_jobs "abc" up2date_graph (VDict []) new_build
            (Build.set_graph "abc" up2date_graph (VDict []) new_build).1
            (Build.store_status None
               (Build.set_graph "abc" up2date_graph (VDict []) new_build).1)
            _ _ _ _ _ _);
    [reflexivity | reflexivity | reflexivity | reflexivity | compute_done
    | vm_compute; reflexivity].
Defined.

(** The products of the job that is up to date in this graph. *)
Example set_graph_up2date_products :
  let b' := (Build.set_graph "abc" up2date_graph (VDict []) new_build).1 in
  (fun a => (Artifact.name a, Artifact.received a, Artifact.failed a))
    <$> Build.objects b'
  = [("p", true, false); ("p.log", true, false); ("t", false, false);
     ("t.log", false, false)].
Proof. reflexivity. Qed.
